(** * Agent Skill Builder: deployment and link synchronisation

    A shallow embedding of the TypeScript sources
    (validator.ts, converter.ts, deployer.ts, utils.ts, types.ts and the
    link manager) together with the properties of the specification
    that concern them.

    Conventions.
    - A JavaScript string is the list of its UTF-16 code units.
    - A value of type [unknown] is a [jsval].
    - Asynchronous functions are run to completion one after the other
      (the sources await every call), so they are state transformers
      that either return a value or throw. *)

From Stdlib Require Import NArith String Ascii Floats DecimalString Lia.
From stdpp Require Import base list gmap.
From stdpp Require Import sorting.

Set Default Proof Using "Type".
Set Warnings "-register-all".
Open Scope N_scope.
Open Scope list_scope.

(** ** JavaScript strings *)

Module JS.

Abbreviation jsstring := (list N).

(** The code units of an ASCII literal. *)
Fixpoint js (s : string) : jsstring :=
  match s with
  | EmptyString => []
  | String a rest => N_of_ascii a :: js rest
  end.

Arguments js s : simpl never.

Definition LF : N := 10.
Definition SLASH : N := 47.
Definition QUOTE : N := 34.

(** [String.prototype.startsWith] *)
Fixpoint startsWith (s p : jsstring) {struct p} : bool :=
  match p, s with
  | [], _ => true
  | _ :: _, [] => false
  | c :: p', d :: s' => (c =? d) && startsWith s' p'
  end.

(** [String.prototype.endsWith] *)
Definition endsWith (s p : jsstring) : bool :=
  startsWith (rev s) (rev p).

(** [String.prototype.includes] *)
Fixpoint includes (s p : jsstring) : bool :=
  startsWith s p ||
  match s with
  | [] => false
  | _ :: s' => includes s' p
  end.

(** White space and line terminators, as [String.prototype.trim]
    removes them. *)
Definition isWhiteSpace (c : N) : bool :=
  (c =? 9) || (c =? 10) || (c =? 11) || (c =? 12) || (c =? 13) ||
  (c =? 32) || (c =? 160) || (c =? 5760) ||
  ((8192 <=? c) && (c <=? 8202)) ||
  (c =? 8232) || (c =? 8233) || (c =? 8239) || (c =? 8287) ||
  (c =? 12288) || (c =? 65279).

Fixpoint trimStart (s : jsstring) : jsstring :=
  match s with
  | [] => []
  | c :: rest => if isWhiteSpace c then trimStart rest else s
  end.

Definition trimEnd (s : jsstring) : jsstring := rev (trimStart (rev s)).

Definition trim (s : jsstring) : jsstring := trimEnd (trimStart s).

(** [s.split("\n")]: the lines of [s]; never empty. *)
Fixpoint splitLines (s : jsstring) : list jsstring :=
  match s with
  | [] => [[]]
  | c :: rest =>
      if c =? LF then [] :: splitLines rest
      else match splitLines rest with
           | [] => [[c]]
           | l :: ls => (c :: l) :: ls
           end
  end.

(** [lines.join("\n")] on an array of strings. *)
Fixpoint joinLines (lines : list jsstring) : jsstring :=
  match lines with
  | [] => []
  | [l] => l
  | l :: rest => l ++ LF :: joinLines rest
  end.

(** [Array.prototype.slice(from)] and [slice(from, to)]. *)
Definition slice_from {A} (from : nat) (l : list A) : list A := drop from l.
Definition slice {A} (from to : nat) (l : list A) : list A :=
  take (to - from) (drop from l).

(** [Array.prototype.findIndex]: [None] stands for -1. *)
Fixpoint findIndex {A} (p : A -> bool) (l : list A) : option nat :=
  match l with
  | [] => None
  | x :: rest => if p x then Some O else S <$> findIndex p rest
  end.

(** [Array.prototype.find]. *)
Fixpoint find {A} (p : A -> bool) (l : list A) : option A :=
  match l with
  | [] => None
  | x :: rest => if p x then Some x else find p rest
  end.

(** [s.lastIndexOf("/")]: [None] stands for -1. *)
Fixpoint lastIndexOf (c : N) (s : jsstring) : option nat :=
  match s with
  | [] => None
  | d :: rest =>
      match lastIndexOf c rest with
      | Some i => Some (S i)
      | None => if d =? c then Some O else None
      end
  end.

(** A number inside a template literal: its decimal digits. *)
Definition decimal (n : nat) : jsstring :=
  js (NilZero.string_of_uint (Nat.to_uint n)).
Arguments decimal n : simpl never.

(** Equality of strings ([===] on two strings). *)
Definition str_eqb (a b : jsstring) : bool := bool_decide (a = b).

(** *** Values of type [unknown] *)

Inductive jsval :=
  | VUndefined
  | VNull
  | VBool (b : bool)
  | VNum (x : float)
  | VStr (s : jsstring)
  | VArr (items : list jsval)
  | VObj (fields : list (jsstring * jsval)).

(** [!v] is false exactly on truthy values. *)
Definition truthy (v : jsval) : bool :=
  match v with
  | VUndefined | VNull => false
  | VBool b => b
  | VNum x => negb (PrimFloat.is_zero x || PrimFloat.is_nan x)
  | VStr s => match s with [] => false | _ => true end
  | VArr _ | VObj _ => true
  end.

Definition isString (v : jsval) : bool :=
  match v with VStr _ => true | _ => false end.

Definition isUndefined (v : jsval) : bool :=
  match v with VUndefined => true | _ => false end.

(** [Record<string, unknown>]; a key that is not there reads as
    [undefined]. *)
Abbreviation Record := (gmap jsstring jsval).

Definition prop (o : Record) (key : jsstring) : jsval :=
  default VUndefined (o !! key).

(** *** The header of a manifest

    [parse] of std/yaml returns a value of type [unknown], which
    [parseFrontmatter] casts to [Record<string, unknown>] without a
    check.  A header with nothing in it parses to [null] or
    [undefined], not to an object, and reading a property of these
    throws.  A mapping is a record.  A scalar or a sequence has none of the
    properties the sources read ([name], [description],
    [allowed-tools], [model], [skills]): it reads as the record with
    no key. *)
Inductive Header :=
  | HNull
  | HUndefined
  | HRecord (fields : Record).

End JS.
Export JS.

(** ** types.ts *)

Module Types.

Record ValidationError := {
  field : jsstring;
  message : jsstring
}.

Record ValidationResult := {
  valid : bool;
  errors : list ValidationError
}.

Record SkillFile := {
  metadata : Header;
  content : jsstring;
  raw : jsstring
}.

Inductive DeployTarget := claude | codex | cursor.

(** [force] and [dryRun] are optional booleans that the code only ever
    tests for truth, so [undefined] is [false] here. *)
Record DeployOptions := {
  targets : list DeployTarget;
  force : bool;
  dryRun : bool;
  projectPath : option jsstring
}.

Record DeployResult := {
  target : DeployTarget;
  success : bool;
  path : option jsstring;
  error : option jsstring
}.

Module TARGET_PATHS.
Module claude.
Definition user := js "~/.claude/skills".
Definition project := js ".claude/skills".
End claude.
Module codex.
Definition user := js "~/.codex/skills".
Definition project := js ".codex/skills".
End codex.
Module cursor.
Definition project := js ".cursorrules".
End cursor.
End TARGET_PATHS.

Module LIMITS.
Definition name : nat := 64.
Definition description : nat := 500.
End LIMITS.

(** *** External skill linking types *)

(** [LinkType] is "local" | "git" | "web": a string at run time.  The
    command line casts the value of [--type] to it unchecked, so the
    code compares it with each tag and keeps a branch for the rest. *)
Abbreviation LinkType := jsstring.
Definition local : LinkType := js "local".
Definition git : LinkType := js "git".
Definition web : LinkType := js "web".

Record SkillLink := {
  link_name : jsstring;
  link_type : LinkType;
  link_source : jsstring;
  link_path : option jsstring;
  link_branch : option jsstring;
  link_enabled : bool;
  link_description : option jsstring
}.

Record SkillLinkRegistry := {
  version : jsstring;
  links : list SkillLink
}.

(** [force] is only tested for truth; [userLevel] is read both with
    [?? true] and for truth, so it keeps its [undefined]. *)
Record LinkOptions := {
  lo_target : DeployTarget;
  lo_userLevel : option bool;
  lo_force : bool
}.

Record LinkResult := {
  lr_success : bool;
  lr_link : option SkillLink;
  lr_error : option jsstring
}.

(** [sr_link = None] is the empty object [{} as SkillLink]. *)
Record SyncResult := {
  sr_link : option SkillLink;
  sr_success : bool;
  sr_deployResults : option (list DeployResult);
  sr_error : option jsstring
}.

Definition LINK_REGISTRY_VERSION := js "1.0.0".

Module LINK_REGISTRY_PATHS.
Module claude.
Definition user := js "~/.claude/skill-links.json".
Definition project := js ".claude/skill-links.json".
End claude.
Module codex.
Definition user := js "~/.codex/skill-links.json".
Definition project := js ".codex/skill-links.json".
End codex.
Module cursor.
Definition user := js "~/.cursor/skill-links.json".
Definition project := js ".cursor/skill-links.json".
End cursor.
End LINK_REGISTRY_PATHS.

End Types.
Export Types.

(** ** validator.ts: [validateMetadata] *)

Module Validator.

Definition push {A} (l : list A) (x : A) : list A := l ++ [x].

Definition hasNewline (s : jsstring) : bool := includes s [LF].

(** The character class [[a-z0-9-]]. *)
Definition nameChar (c : N) : bool :=
  ((97 <=? c) && (c <=? 122)) || ((48 <=? c) && (c <=? 57)) || (c =? 45).

(** [/^[a-z0-9-]+$/.test(s)]: one or more characters of the class and
    nothing else (no [m] flag, so [$] is the end of the string). *)
Definition nameRegex_test (s : jsstring) : bool :=
  match s with
  | [] => false
  | _ => forallb nameChar s
  end.

(** The body of [forEach((item, index) => ...)] over an optional array
    field: every element that is not a string is reported with its
    index. *)
Fixpoint forEach_string_check (fld : jsstring) (items : list jsval)
    (index : nat) (errors : list ValidationError) : list ValidationError :=
  match items with
  | [] => errors
  | item :: rest =>
      forEach_string_check fld rest (S index)
        (if negb (isString item)
         then push errors
                {| field := fld;
                   message := js "Item at index " ++ decimal index ++
                              js " must be a string" |}
         else errors)
  end.

Definition validateMetadata (metadata : Record) : list ValidationError :=
  let errors : list ValidationError := [] in
  (* Required field: name *)
  let errors :=
    let name := prop metadata (js "name") in
    if negb (truthy name)
    then push errors {| field := js "name"; message := js "Required field is missing" |}
    else match name with
    | VStr name =>
        (* Check character limit *)
        let errors :=
          if (LIMITS.name <? length name)%nat
          then push errors
                 {| field := js "name";
                    message := js "Must be " ++ decimal LIMITS.name ++
                               js " characters or less (got " ++
                               decimal (length name) ++ js ")" |}
          else errors in
        (* Check for newlines (single line only) *)
        let errors :=
          if hasNewline name
          then push errors {| field := js "name";
                              message := js "Must be a single line (no newlines)" |}
          else errors in
        (* Check format (lowercase letters, numbers, hyphens only) *)
        if negb (nameRegex_test name)
        then push errors
               {| field := js "name";
                  message := js "Must contain only lowercase letters, numbers, and hyphens" |}
        else errors
    | _ => push errors {| field := js "name"; message := js "Must be a string" |}
    end in
  (* Required field: description *)
  let errors :=
    let description := prop metadata (js "description") in
    if negb (truthy description)
    then push errors {| field := js "description";
                        message := js "Required field is missing" |}
    else match description with
    | VStr description =>
        let errors :=
          if (LIMITS.description <? length description)%nat
          then push errors
                 {| field := js "description";
                    message := js "Must be " ++ decimal LIMITS.description ++
                               js " characters or less (got " ++
                               decimal (length description) ++ js ")" |}
          else errors in
        if hasNewline description
        then push errors {| field := js "description";
                            message := js "Must be a single line (no newlines)" |}
        else errors
    | _ => push errors {| field := js "description"; message := js "Must be a string" |}
    end in
  (* Optional field: allowed-tools (array of strings) *)
  let errors :=
    match prop metadata (js "allowed-tools") with
    | VUndefined => errors
    | VArr tools => forEach_string_check (js "allowed-tools") tools 0 errors
    | _ => push errors {| field := js "allowed-tools"; message := js "Must be an array" |}
    end in
  (* Optional field: model (string) *)
  let errors :=
    if negb (isUndefined (prop metadata (js "model"))) &&
       negb (isString (prop metadata (js "model")))
    then push errors {| field := js "model"; message := js "Must be a string" |}
    else errors in
  (* Optional field: skills (array of strings) *)
  let errors :=
    match prop metadata (js "skills") with
    | VUndefined => errors
    | VArr skills => forEach_string_check (js "skills") skills 0 errors
    | _ => push errors {| field := js "skills"; message := js "Must be an array" |}
    end in
  errors.

End Validator.
Export Validator.

(** ** The runtime the sources call into

    Filesystem, process and library calls are capabilities of the host:
    the functions below are written against the interface [Deno] and
    hold for every implementation of it.  Calls that only read are
    functions of the world; calls that may change it return the new
    world.  A call either returns or throws an [Error]. *)

Module Runtime.

Inductive ErrorClass :=
  | NotFound        (* Deno.errors.NotFound *)
  | AlreadyExists   (* Deno.errors.AlreadyExists *)
  | TypeError
  | PlainError.     (* new Error(...) and every other class *)

Record Error := {
  errorClass : ErrorClass;
  errorMessage : jsstring   (* error.message *)
}.

Definition newError (msg : jsstring) : Error :=
  {| errorClass := PlainError; errorMessage := msg |}.

Definition isNotFound (e : Error) : bool :=
  match errorClass e with NotFound => true | _ => false end.

Definition isAlreadyExists (e : Error) : bool :=
  match errorClass e with AlreadyExists => true | _ => false end.

Inductive outcome (A : Type) :=
  | Returned (a : A)
  | Thrown (e : Error).
Arguments Returned {A} a.
Arguments Thrown {A} e.

(** Sequencing of computations that touch nothing but may throw. *)
Definition and_then {A B} (r : outcome A) (k : A -> outcome B) : outcome B :=
  match r with
  | Returned a => k a
  | Thrown e => Thrown e
  end.

(** The TypeError of reading a property of [null] or [undefined]. *)
Definition cannot_read (value key : jsstring) : Error :=
  {| errorClass := TypeError;
     errorMessage := js "Cannot read properties of " ++ value ++
                     js " (reading '" ++ key ++ js "')" |}.

(** [metadata.key] on a header that was not checked to be an
    object. *)
Definition prop_of (metadata : Header) (key : jsstring) : outcome jsval :=
  match metadata with
  | HRecord fields => Returned (prop fields key)
  | HNull => Thrown (cannot_read (js "null") key)
  | HUndefined => Thrown (cannot_read (js "undefined") key)
  end.

Record FileInfo := { isDirectory : bool }.
Record DirEntry := { entryName : jsstring; entryIsDirectory : bool }.
Record CommandOutput := { cmdSuccess : bool; cmdStderr : jsstring }.

Class Deno (W : Type) := {
  (* Deno.env.get(key) *)
  Deno_env_get : jsstring -> W -> option jsstring;
  (* Deno.cwd() *)
  Deno_cwd : W -> jsstring;
  (* Deno.stat(path) *)
  Deno_stat : jsstring -> W -> outcome FileInfo;
  (* Deno.readTextFile(path) *)
  Deno_readTextFile : jsstring -> W -> outcome jsstring;
  (* Deno.readDir(path), read to the end *)
  Deno_readDir : jsstring -> W -> outcome (list DirEntry);
  (* Deno.mkdir(path, { recursive: true }) *)
  Deno_mkdir : jsstring -> W -> outcome unit * W;
  (* Deno.remove(path, { recursive }) *)
  Deno_remove : jsstring -> bool -> W -> outcome unit * W;
  (* Deno.writeTextFile(path, data) *)
  Deno_writeTextFile : jsstring -> jsstring -> W -> outcome unit * W;
  (* Deno.copyFile(from, to) *)
  Deno_copyFile : jsstring -> jsstring -> W -> outcome unit * W;
  (* Deno.makeTempDir({ prefix }) *)
  Deno_makeTempDir : jsstring -> W -> outcome jsstring * W;
  (* new Deno.Command(cmd, { args }).output(), stderr decoded *)
  Deno_Command_output : jsstring -> list jsstring -> W -> outcome CommandOutput * W;
  (* join(a, b) of std/path, on strings *)
  path_join : jsstring -> jsstring -> jsstring;
  (* the message of the TypeError join throws on a non-string *)
  path_assert_message : jsval -> jsstring;
  (* the deepest nesting of directories a path can name *)
  path_max_depth : nat;
  (* parse(text) of std/yaml, cast to Record<string, unknown> unchecked *)
  parseYaml : jsstring -> outcome Header;
  (* Number.prototype.toString *)
  Number_toString : float -> jsstring;
  (* JSON.parse(content) as SkillLinkRegistry: throws on text that is
     not JSON or not a document with a [links] array of links *)
  JSON_parse : jsstring -> outcome SkillLinkRegistry;
  (* JSON.stringify(registry, null, 2) *)
  JSON_stringify : SkillLinkRegistry -> jsstring
}.

(** What the program did to the outside, in order. *)
Inductive Effect :=
  | EMkdir (path : jsstring)
  | ERemove (path : jsstring) (recursive : bool)
  | EWriteTextFile (path data : jsstring)
  | ECopyFile (from to : jsstring)
  | EMakeTempDir (prefix : jsstring)
  | ECommand (cmd : jsstring) (args : list jsstring).

#[global] Instance Effect_eq_dec : EqDecision Effect.
Proof. solve_decision. Defined.

Record State (W : Type) := {
  world : W;
  effects : list Effect
}.
Arguments world {W} s.
Arguments effects {W} s.

Definition M (W A : Type) : Type := State W -> outcome A * State W.

Section Monad.
Context {W : Type}.

Definition ret {A} (a : A) : M W A := fun s => (Returned a, s).

Definition throw {A} (e : Error) : M W A := fun s => (Thrown e, s).

Definition bind {A B} (m : M W A) (k : A -> M W B) : M W B :=
  fun s =>
    match m s with
    | (Returned a, s') => k a s'
    | (Thrown e, s') => (Thrown e, s')
    end.

(** [try { body } catch (error) { handler }] *)
Definition try_catch {A} (body : M W A) (handler : Error -> M W A) : M W A :=
  fun s =>
    match body s with
    | (Returned a, s') => (Returned a, s')
    | (Thrown e, s') => handler e s'
    end.

(** [try { body } finally { final }] *)
Definition try_finally {A} (body : M W A) (final : M W unit) : M W A :=
  fun s =>
    match body s with
    | (r, s') =>
        match final s' with
        | (Returned _, s'') => (r, s'')
        | (Thrown e, s'') => (Thrown e, s'')
        end
    end.

(** [promise.catch(() => {})] *)
Definition catch_ignore (m : M W unit) : M W unit :=
  try_catch m (fun _ => ret tt).

(** A call that only reads. *)
Definition reading {A} (f : W -> outcome A) : M W A :=
  fun s => (f (world s), s).

(** A call that may change the world; it is recorded. *)
Definition acting {A} (ev : Effect) (f : W -> outcome A * W) : M W A :=
  fun s =>
    match f (world s) with
    | (r, w') => (r, {| world := w'; effects := effects s ++ [ev] |})
    end.

(** A pure computation that may throw. *)
Definition lift {A} (r : outcome A) : M W A := fun s => (r, s).

(** A statement in which [return r] may be executed: [Some r] leaves
    the function with [r], [None] goes on with the statements after
    it. *)
Definition or_continue {A} (statement : M W (option A)) (rest : M W A) : M W A :=
  bind statement (fun returned =>
    match returned with
    | Some r => ret r
    | None => rest
    end).

(** [for (const x of xs) { body(x) }] *)
Fixpoint for_of {A} (xs : list A) (body : A -> M W unit) : M W unit :=
  match xs with
  | [] => ret tt
  | x :: rest => bind (body x) (fun _ => for_of rest body)
  end.
End Monad.

Declare Scope js_scope.
Delimit Scope js_scope with js.
Notation "x <- m ;; k" := (bind m (fun x => k))
  (at level 20, m at level 99, k at level 200, only parsing) : js_scope.
Notation "'do' m ;; k" := (bind m (fun _ => k))
  (at level 20, m at level 99, k at level 200, only parsing) : js_scope.
Open Scope js_scope.

End Runtime.
Export Runtime.

(** ** utils.ts *)

Module Utils.
Section Utils.
Context {W : Type} `{Deno W}.

Definition getErrorMessage (error : Error) : jsstring := errorMessage error.

(** [a || b] on two optional strings. *)
Definition or_string (a b : option jsstring) : option jsstring :=
  match a with
  | Some (_ :: _) => a
  | _ => b
  end.

Definition expandHome (filepath : jsstring) : M W jsstring :=
  if startsWith filepath (js "~/") then
    home <- reading (fun w =>
              Returned (or_string (Deno_env_get (js "HOME") w)
                                  (Deno_env_get (js "USERPROFILE") w))) ;;
    match home with
    | Some ((_ :: _) as home) => ret (path_join home (slice_from 2 filepath))
    | _ => throw (newError (js "Could not determine home directory"))
    end
  else ret filepath.

(** [join(base, name)] where [name] is typed [string] but comes out
    of the manifest header unchecked. *)
Definition join_unchecked (base : jsstring) (name : jsval) : M W jsstring :=
  match name with
  | VStr name => ret (path_join base name)
  | _ => throw {| errorClass := TypeError;
                  errorMessage := path_assert_message name |}
  end.

Definition exists_ (path : jsstring) : M W bool :=
  try_catch
    (do reading (Deno_stat path) ;;
     ret true)
    (fun error =>
       if isNotFound error then ret false else throw error).

Definition ensureDir (path : jsstring) : M W unit :=
  try_catch
    (acting (EMkdir path) (Deno_mkdir path))
    (fun error =>
       if negb (isAlreadyExists error) then throw error else ret tt).

(** [copyDir] descends one directory level per call; the host
    refuses paths nested deeper than [path_max_depth]. *)
Fixpoint copyDir_at (depth : nat) (src dest : jsstring) : M W unit :=
  match depth with
  | O => throw (newError (js "File name too long"))
  | S depth =>
      do ensureDir dest ;;
      entries <- reading (Deno_readDir src) ;;
      for_of entries (fun entry =>
        let srcPath := path_join src (entryName entry) in
        let destPath := path_join dest (entryName entry) in
        if entryIsDirectory entry
        then copyDir_at depth srcPath destPath
        else acting (ECopyFile srcPath destPath) (Deno_copyFile srcPath destPath))
  end.

Definition copyDir (src dest : jsstring) : M W unit :=
  copyDir_at path_max_depth src dest.

Definition readTextFile (path : jsstring) : M W jsstring :=
  try_catch
    (reading (Deno_readTextFile path))
    (fun error =>
       if isNotFound error
       then throw (newError (js "File not found: " ++ path))
       else throw error).

Definition parseFrontmatter (text : jsstring) : outcome SkillFile :=
  let lines := splitLines text in
  (* Check if file starts with --- *)
  if negb (str_eqb (trim (hd [] lines)) (js "---")) then
    Thrown (newError (js "SKILL.md must start with YAML frontmatter (---)"))
  else
    (* Find the closing --- *)
    match findIndex (fun line => str_eqb (trim line) (js "---"))
                    (slice_from 1 lines) with
    | None => Thrown (newError (js "YAML frontmatter must end with ---"))
    | Some endIndex =>
        let yamlLines := slice 1 (endIndex + 1) lines in
        let contentLines := slice_from (endIndex + 2) lines in
        let yamlText := joinLines yamlLines in
        let content := joinLines contentLines in
        match parseYaml yamlText with
        | Returned metadata =>
            Returned {| metadata := metadata; content := content; raw := text |}
        | Thrown error =>
            Thrown (newError (js "Invalid YAML syntax: " ++ getErrorMessage error))
        end
    end.

End Utils.
End Utils.
Export Utils.

(** ** validator.ts: reading a skill *)

Module ValidatorIO.
Section ValidatorIO.
Context {W : Type} `{Deno W}.

Definition parseSkillFile (filepath : jsstring) : M W SkillFile :=
  text <- readTextFile filepath ;;
  parsed <- lift (parseFrontmatter text) ;;
  ret {| metadata := metadata parsed;
         content := content parsed;
         raw := raw parsed |}.

(** [validateMetadata(skill.metadata as unknown as Record<string,
    unknown>)]: on a header that is [null] or [undefined] the first
    statement of [validateMetadata], [if (!metadata.name)], throws. *)
Definition validateMetadata_unchecked (metadata : Header)
    : outcome (list ValidationError) :=
  match metadata with
  | HRecord fields => Returned (validateMetadata fields)
  | HNull => Thrown (cannot_read (js "null") (js "name"))
  | HUndefined => Thrown (cannot_read (js "undefined") (js "name"))
  end.

Definition validateSkillFile (filepath : jsstring) : M W ValidationResult :=
  try_catch
    (skill <- parseSkillFile filepath ;;
     errors <- lift (validateMetadata_unchecked (metadata skill)) ;;
     ret {| valid := (length errors =? 0)%nat; errors := errors |})
    (fun error =>
       ret {| valid := false;
              errors := [{| field := js "file";
                            message := getErrorMessage error |}] |}).

Definition validateSkillDir (dirPath : jsstring) : M W ValidationResult :=
  try_catch
    ((* Check if directory exists *)
     stat <- reading (Deno_stat dirPath) ;;
     if negb (isDirectory stat) then
       ret {| valid := false;
              errors := [{| field := js "directory";
                            message := js "Path is not a directory" |}] |}
     else
       (* Check for SKILL.md file *)
       let skillPath := dirPath ++ js "/SKILL.md" in
       found <- try_catch (do reading (Deno_stat skillPath) ;; ret true)
                          (fun _ => ret false) ;;
       if negb found then
         ret {| valid := false;
                errors := [{| field := js "SKILL.md";
                              message := js "File not found in directory" |}] |}
       else
         (* Validate SKILL.md content *)
         validateSkillFile skillPath)
    (fun error =>
       ret {| valid := false;
              errors := [{| field := js "directory";
                            message := getErrorMessage error |}] |}).

End ValidatorIO.
End ValidatorIO.
Export ValidatorIO.

(** ** converter.ts *)

Module Converter.
Section Converter.
Context {W : Type} `{Deno W}.

(** The string a value turns into inside a template literal. *)
Fixpoint ToString (v : jsval) : jsstring :=
  match v with
  | VUndefined => js "undefined"
  | VNull => js "null"
  | VBool true => js "true"
  | VBool false => js "false"
  | VNum x => Number_toString x
  | VStr s => s
  | VArr items =>
      (fix join_items (l : list jsval) : jsstring :=
         match l with
         | [] => []
         | x :: rest =>
             let sx := match x with
                       | VUndefined | VNull => []
                       | _ => ToString x
                       end in
             match rest with
             | [] => sx
             | _ => sx ++ js "," ++ join_items rest
             end
         end) items
  | VObj _ => js "[object Object]"
  end.

(** [Array.prototype.join(sep)]: [undefined] and [null] elements are
    empty, the others are converted to strings. *)
Fixpoint Array_join (sep : jsstring) (items : list jsval) : jsstring :=
  match items with
  | [] => []
  | x :: rest =>
      let sx := match x with
                | VUndefined | VNull => []
                | _ => ToString x
                end in
      match rest with
      | [] => sx
      | _ => sx ++ sep ++ Array_join sep rest
      end
  end.

Definition convertToCursorRules (skill : SkillFile) : outcome jsstring :=
  let metadata := metadata skill in
  let content := content skill in
  let lines : list jsval := [] in
  (* Add header comment with skill metadata *)
  and_then (prop_of metadata (js "name")) (fun name =>
  let lines := push lines (VStr (js "# " ++ ToString name)) in
  let lines := push lines (VStr []) in
  let lines := push lines (VStr (js "## Description")) in
  and_then (prop_of metadata (js "description")) (fun description =>
  let lines := push lines description in
  let lines := push lines (VStr []) in
  (* If content already has rule sections, use it as-is *)
  let lines :=
    if includes content (js "## Rule:") then
      push lines (VStr (trim content))
    else
      (* Otherwise, wrap the content in a generic rule section *)
      let lines := push lines (VStr (js "## Rule: Skill Instructions")) in
      let lines := push lines (VStr []) in
      push lines (VStr (trim content)) in
  Returned (Array_join [LF] lines))).

End Converter.
End Converter.
Export Converter.

(** ** deployer.ts *)

Module Deployer.
Section Deployer.
Context {W : Type} `{Deno W}.

(** Get target directory path for deployment. *)
Definition getTargetPath (target : DeployTarget) (isUserLevel : bool) : jsstring :=
  match target with
  | claude =>
      if isUserLevel then TARGET_PATHS.claude.user else TARGET_PATHS.claude.project
  | codex =>
      if isUserLevel then TARGET_PATHS.codex.user else TARGET_PATHS.codex.project
  | cursor => TARGET_PATHS.cursor.project (* Cursor only has project-level *)
  end.

Definition deployFailure (target : DeployTarget) (msg : jsstring) : DeployResult :=
  {| target := target; success := false; path := None; error := Some msg |}.

Definition deploySuccess (target : DeployTarget) (targetPath : jsstring) : DeployResult :=
  {| target := target; success := true; path := Some targetPath; error := None |}.

(** Deploy skill to Claude Code or OpenAI Codex. *)
Definition deployToClaudeOrCodex (skillDir : jsstring) (target : DeployTarget)
    (skillName : jsval) (options : DeployOptions) : M W DeployResult :=
  try_catch
    ((* Determine target path (default to user-level) *)
     let targetBase := getTargetPath target true in
     expandedBase <- expandHome targetBase ;;
     targetPath <- join_unchecked expandedBase skillName ;;
     or_continue
       ((* Check if skill already exists *)
        present <- exists_ targetPath ;;
        if present then
          if negb (force options) then
            ret (Some (deployFailure target
                         (js "Skill already exists at " ++ targetPath ++
                          js ". Use --force to overwrite.")))
          else
            (* Remove existing skill *)
            do (if negb (dryRun options)
                then acting (ERemove targetPath true) (Deno_remove targetPath true)
                else ret tt) ;;
            ret None
        else ret None)
       ((* Create target directory *)
        do (if negb (dryRun options) then
              do ensureDir expandedBase ;;
              copyDir skillDir targetPath
            else ret tt) ;;
        ret (deploySuccess target targetPath)))
    (fun error => ret (deployFailure target (errorMessage error))).

(** Deploy skill to Cursor: converts SKILL.md to .cursorrules. *)
Definition deployToCursor (skillDir : jsstring) (options : DeployOptions)
    : M W DeployResult :=
  try_catch
    (let skillPath := path_join skillDir (js "SKILL.md") in
     skill <- parseSkillFile skillPath ;;
     (* Convert to Cursor rules format *)
     cursorRules <- lift (convertToCursorRules skill) ;;
     (* Cursor rules are project-level only *)
     let targetPath := TARGET_PATHS.cursor.project in
     or_continue
       ((* Check if .cursorrules already exists *)
        present <- exists_ targetPath ;;
        if present then
          if negb (force options) then
            ret (Some (deployFailure cursor
                         (targetPath ++ js " already exists. Use --force to overwrite.")))
          else ret None
        else ret None)
       ((* Write .cursorrules file *)
        do (if negb (dryRun options)
            then acting (EWriteTextFile targetPath cursorRules)
                        (Deno_writeTextFile targetPath cursorRules)
            else ret tt) ;;
        ret (deploySuccess cursor targetPath)))
    (fun error => ret (deployFailure cursor (errorMessage error))).

(** The body of the loop of [deploySkill] for one target. *)
Definition deployTarget (skillDir : jsstring) (skillName : jsval)
    (options : DeployOptions) (target : DeployTarget) : M W DeployResult :=
  match target with
  | cursor => deployToCursor skillDir options
  | _ => deployToClaudeOrCodex skillDir target skillName options
  end.

Fixpoint deploySkill_loop (skillDir : jsstring) (skillName : jsval)
    (options : DeployOptions) (todo : list DeployTarget)
    (results : list DeployResult) : M W (list DeployResult) :=
  match todo with
  | [] => ret results
  | target :: rest =>
      result <- deployTarget skillDir skillName options target ;;
      deploySkill_loop skillDir skillName options rest (push results result)
  end.

(** Deploy skill to specified targets. *)
Definition deploySkill (skillDir : jsstring) (options : DeployOptions)
    : M W (list DeployResult) :=
  let results : list DeployResult := [] in
  (* Get skill name from SKILL.md *)
  let skillPath := path_join skillDir (js "SKILL.md") in
  skill <- parseSkillFile skillPath ;;
  skillName <- lift (prop_of (metadata skill) (js "name")) ;;
  deploySkill_loop skillDir skillName options (targets options) results.

Record RemoveResult := {
  removed : bool;               (* success *)
  remove_error : option jsstring  (* error *)
}.

(** Remove deployed skill from target. *)
Definition removeSkill (skillName : jsstring) (target : DeployTarget)
    : M W RemoveResult :=
  try_catch
    (or_continue
       (match target with
        | cursor =>
            let targetPath := TARGET_PATHS.cursor.project in
            present <- exists_ targetPath ;;
            if present then
              do acting (ERemove targetPath false) (Deno_remove targetPath false) ;;
              ret None
            else ret None
        | _ =>
            let targetBase := getTargetPath target true in
            expandedBase <- expandHome targetBase ;;
            let targetPath := path_join expandedBase skillName in
            present <- exists_ targetPath ;;
            if present then
              do acting (ERemove targetPath true) (Deno_remove targetPath true) ;;
              ret None
            else
              ret (Some {| removed := false;
                           remove_error :=
                             Some (js "Skill not found: " ++ targetPath) |})
        end)
       (ret {| removed := true; remove_error := None |}))
    (fun error =>
       ret {| removed := false; remove_error := Some (errorMessage error) |}).

End Deployer.
End Deployer.
Export Deployer.

(** ** External skill linking management *)

Module Links.
Section Links.
Context {W : Type} `{Deno W}.

(** [options.userLevel ?? true] *)
Definition userLevel_or_true (options : LinkOptions) : bool :=
  default true (lo_userLevel options).

(** [options.userLevel ? a : b] *)
Definition userLevel_truthy (options : LinkOptions) : bool :=
  default false (lo_userLevel options).

(** Get the path to the link registry file. *)
Definition getLinkRegistryPath (target : DeployTarget) (userLevel : bool)
    : M W jsstring :=
  let relativePath :=
    match target with
    | claude => if userLevel then LINK_REGISTRY_PATHS.claude.user
                else LINK_REGISTRY_PATHS.claude.project
    | codex => if userLevel then LINK_REGISTRY_PATHS.codex.user
               else LINK_REGISTRY_PATHS.codex.project
    | cursor => if userLevel then LINK_REGISTRY_PATHS.cursor.user
                else LINK_REGISTRY_PATHS.cursor.project
    end in
  expandHome relativePath.

Definition emptyRegistry : SkillLinkRegistry :=
  {| version := LINK_REGISTRY_VERSION; links := [] |}.

(** Read the link registry from disk. *)
Definition readLinkRegistry (target : DeployTarget) (userLevel : bool)
    : M W SkillLinkRegistry :=
  registryPath <- getLinkRegistryPath target userLevel ;;
  try_catch
    (content <- reading (Deno_readTextFile registryPath) ;;
     registry <- lift (JSON_parse content) ;;
     (* Validate registry structure *)
     if negb (truthy (VStr (version registry))) then
       throw (newError (js "Invalid registry format"))
     else ret registry)
    (fun error =>
       if isNotFound error then
         (* Return empty registry if file doesn't exist *)
         ret emptyRegistry
       else throw error).

(** [path.substring(0, path.lastIndexOf("/"))] *)
Definition dirname (registryPath : jsstring) : jsstring :=
  match lastIndexOf SLASH registryPath with
  | Some i => take i registryPath
  | None => []
  end.

(** Write the link registry to disk. *)
Definition writeLinkRegistry (target : DeployTarget) (userLevel : bool)
    (registry : SkillLinkRegistry) : M W unit :=
  registryPath <- getLinkRegistryPath target userLevel ;;
  (* Ensure directory exists *)
  let dir := dirname registryPath in
  do acting (EMkdir dir) (Deno_mkdir dir) ;;
  (* Write registry *)
  let data := JSON_stringify registry ++ [LF] in
  acting (EWriteTextFile registryPath data) (Deno_writeTextFile registryPath data).

(** Detect link type from source string. *)
Definition detectLinkType (source : jsstring) : LinkType :=
  if startsWith source (js "http://") || startsWith source (js "https://") then
    if includes source (js "github.com") || endsWith source (js ".git") then git
    else web
  else local.

Record LinkValidation := {
  lv_valid : bool;
  lv_error : option jsstring
}.

Definition invalidLink (msg : jsstring) : LinkValidation :=
  {| lv_valid := false; lv_error := Some msg |}.

(** Validate a skill link. *)
Definition validateLink (link : SkillLink) : M W LinkValidation :=
  (* Validate name format (same as skill name) *)
  if negb (nameRegex_test (link_name link)) then
    ret (invalidLink
           (js "Link name must contain only lowercase letters, numbers, and hyphens"))
  else
    (* Validate source based on type *)
    if str_eqb (link_type link) local then
      sourcePath <- expandHome (link_source link) ;;
      try_catch
        (stat <- reading (Deno_stat sourcePath) ;;
         if negb (isDirectory stat) then
           ret (invalidLink (js "Local source must be a directory"))
         else
           (* Check if it's a valid skill directory *)
           validation <- validateSkillDir sourcePath ;;
           if negb (valid validation) then
             ret (invalidLink
                    (js "Invalid skill directory: " ++
                     Array_join (js ", ")
                       (map (fun e => VStr (message e)) (errors validation))))
           else ret {| lv_valid := true; lv_error := None |})
        (fun error =>
           ret (invalidLink (js "Cannot access source: " ++ errorMessage error)))
    else if str_eqb (link_type link) git then
      (* Basic URL validation for git *)
      if negb (startsWith (link_source link) (js "http://")) &&
         negb (startsWith (link_source link) (js "https://")) &&
         negb (startsWith (link_source link) (js "git@"))
      then ret (invalidLink (js "Git source must be a valid URL or SSH address"))
      else ret {| lv_valid := true; lv_error := None |}
    else if str_eqb (link_type link) web then
      (* Basic URL validation for web *)
      if negb (startsWith (link_source link) (js "http://")) &&
         negb (startsWith (link_source link) (js "https://"))
      then ret (invalidLink (js "Web source must be a valid HTTP(S) URL"))
      else ret {| lv_valid := true; lv_error := None |}
    else ret {| lv_valid := true; lv_error := None |}.

Definition linkFailure (msg : jsstring) : LinkResult :=
  {| lr_success := false; lr_link := None; lr_error := Some msg |}.

Definition linkSuccess (link : SkillLink) : LinkResult :=
  {| lr_success := true; lr_link := Some link; lr_error := None |}.

Definition hasName (name : jsstring) (l : SkillLink) : bool :=
  str_eqb (link_name l) name.

(** [registry.links[index]] is read only at an index that [findIndex]
    returned. *)
#[global] Instance SkillLink_inhabited : Inhabited SkillLink :=
  populate {| link_name := []; link_type := []; link_source := [];
              link_path := None; link_branch := None; link_enabled := false;
              link_description := None |}.

(** The optional fourth argument of [addLink]; a missing object is
    the one whose fields are all [undefined]. *)
Record LinkDetails := {
  ld_type : option LinkType;
  ld_path : option jsstring;
  ld_branch : option jsstring;
  ld_description : option jsstring;
  ld_enabled : option bool
}.

(** Add a skill link. *)
Definition addLink (name source : jsstring) (options : LinkOptions)
    (linkOptions : LinkDetails) : M W LinkResult :=
  try_catch
    (registry <- readLinkRegistry (lo_target options) (userLevel_or_true options) ;;
     (* Check if link already exists *)
     let existingIndex := findIndex (hasName name) (links registry) in
     if bool_decide (is_Some existingIndex) && negb (lo_force options) then
       ret (linkFailure (js "Link " ++ [QUOTE] ++ name ++ [QUOTE] ++
                         js " already exists. Use --force to overwrite."))
     else
       (* Detect link type if not provided *)
       let linkType := default (detectLinkType source) (ld_type linkOptions) in
       (* Create link *)
       let link :=
         {| link_name := name;
            link_type := linkType;
            link_source := source;
            link_path := ld_path linkOptions;
            link_branch := ld_branch linkOptions;
            link_enabled := default true (ld_enabled linkOptions);
            link_description := ld_description linkOptions |} in
       (* Validate link *)
       validation <- validateLink link ;;
       if negb (lv_valid validation) then
         ret {| lr_success := false; lr_link := None;
                lr_error := lv_error validation |}
       else
         (* Add or update link *)
         let registry :=
           match existingIndex with
           | Some i => {| version := version registry;
                          links := <[i := link]> (links registry) |}
           | None => {| version := version registry;
                        links := push (links registry) link |}
           end in
         (* Save registry *)
         do writeLinkRegistry (lo_target options) (userLevel_or_true options) registry ;;
         ret (linkSuccess link))
    (fun error => ret (linkFailure (errorMessage error))).

(** Remove a skill link. *)
Definition removeLink (name : jsstring) (options : LinkOptions) : M W LinkResult :=
  try_catch
    (registry <- readLinkRegistry (lo_target options) (userLevel_or_true options) ;;
     (* Find link *)
     match findIndex (hasName name) (links registry) with
     | None =>
         ret (linkFailure (js "Link " ++ [QUOTE] ++ name ++ [QUOTE] ++ js " not found"))
     | Some index =>
         let link := links registry !!! index in
         (* Remove link: splice(index, 1) *)
         let registry :=
           {| version := version registry;
              links := delete index (links registry) |} in
         (* Save registry *)
         do writeLinkRegistry (lo_target options) (userLevel_or_true options)
              registry ;;
         ret (linkSuccess link)
     end)
    (fun error => ret (linkFailure (errorMessage error))).

(** List all skill links. *)
Definition listLinks (options : LinkOptions) : M W (list SkillLink) :=
  registry <- readLinkRegistry (lo_target options) (userLevel_or_true options) ;;
  ret (links registry).

Definition setEnabled (enabled : bool) (link : SkillLink) : SkillLink :=
  {| link_name := link_name link;
     link_type := link_type link;
     link_source := link_source link;
     link_path := link_path link;
     link_branch := link_branch link;
     link_enabled := enabled;
     link_description := link_description link |}.

(** Toggle a link's enabled status.  [find] returns the first
    matching element of [registry.links] itself, not a copy: the
    element is named by its position, and the assignment to
    [link.enabled] is an update of the array at that position. *)
Definition toggleLink (name : jsstring) (enabled : bool) (options : LinkOptions)
    : M W LinkResult :=
  try_catch
    (registry <- readLinkRegistry (lo_target options) (userLevel_or_true options) ;;
     (* Find link *)
     match findIndex (hasName name) (links registry) with
     | None =>
         ret (linkFailure (js "Link " ++ [QUOTE] ++ name ++ [QUOTE] ++ js " not found"))
     | Some index =>
         (* Update enabled status *)
         let link := setEnabled enabled (links registry !!! index) in
         let registry :=
           {| version := version registry;
              links := <[index := link]> (links registry) |} in
         (* Save registry *)
         do writeLinkRegistry (lo_target options) (userLevel_or_true options)
              registry ;;
         ret (linkSuccess link)
     end)
    (fun error => ret (linkFailure (errorMessage error))).

Definition syncFailure (link : option SkillLink) (msg : jsstring) : SyncResult :=
  {| sr_link := link; sr_success := false;
     sr_deployResults := None; sr_error := Some msg |}.

(** A string tested for truth: [undefined] and the empty string are
    false. *)
Definition truthy_string (o : option jsstring) : option jsstring :=
  match o with
  | Some (_ :: _) => o
  | _ => None
  end.

(** The last step of [syncLink]: deploy the skill, then clean up. *)
Definition syncLink_deploy (link : SkillLink) (options : LinkOptions)
    (skillDir : jsstring) (cleanup : bool) : M W SyncResult :=
  try_finally
    (projectPath <- reading (fun w =>
         Returned (if userLevel_truthy options then None
                   else Some (Deno_cwd w))) ;;
     let deployOptions :=
       {| targets := [lo_target options];
          force := lo_force options;
          dryRun := false;
          projectPath := projectPath |} in
     deployResults <- deploySkill skillDir deployOptions ;;
     ret {| sr_link := Some link;
            sr_success := forallb success deployResults;
            sr_deployResults := Some deployResults;
            sr_error := None |})
    (if cleanup
     then catch_ignore (acting (ERemove skillDir true) (Deno_remove skillDir true))
     else ret tt).

(** Sync a linked skill (download/copy and deploy). *)
Definition syncLink (name : jsstring) (options : LinkOptions) : M W SyncResult :=
  try_catch
    (registry <- readLinkRegistry (lo_target options) (userLevel_or_true options) ;;
     (* Find link *)
     match find (hasName name) (links registry) with
     | None =>
         ret (syncFailure None
                (js "Link " ++ [QUOTE] ++ name ++ [QUOTE] ++ js " not found"))
     | Some link =>
         if negb (link_enabled link) then
           ret (syncFailure (Some link)
                  (js "Link " ++ [QUOTE] ++ name ++ [QUOTE] ++ js " is disabled"))
         else
           (* Get skill source based on link type *)
           if str_eqb (link_type link) local then
             skillDir <- expandHome (link_source link) ;;
             syncLink_deploy link options skillDir false
           else if str_eqb (link_type link) git then
             (* Clone to temporary directory *)
             tempDir <- acting (EMakeTempDir (js "skill-link-"))
                               (Deno_makeTempDir (js "skill-link-")) ;;
             let cleanup := true in
             skillDir <-
               try_catch
                 ((* Clone repository *)
                  let cloneArgs := [js "git"; js "clone"; js "--depth"; js "1"] in
                  let cloneArgs :=
                    match truthy_string (link_branch link) with
                    | Some branch => cloneArgs ++ [js "--branch"; branch]
                    | None => cloneArgs
                    end in
                  let cloneArgs := cloneArgs ++ [link_source link; tempDir] in
                  cloneOutput <-
                    acting (ECommand (hd [] cloneArgs) (slice_from 1 cloneArgs))
                           (Deno_Command_output (hd [] cloneArgs)
                                                (slice_from 1 cloneArgs)) ;;
                  if negb (cmdSuccess cloneOutput) then
                    throw (newError (js "Git clone failed: " ++
                                     cmdStderr cloneOutput))
                  else
                    (* Use subdirectory if specified *)
                    ret match truthy_string (link_path link) with
                        | Some path => tempDir ++ js "/" ++ path
                        | None => tempDir
                        end)
                 (fun error =>
                    do (if cleanup
                        then catch_ignore
                               (acting (ERemove tempDir true)
                                       (Deno_remove tempDir true))
                        else ret tt) ;;
                    throw error) ;;
             syncLink_deploy link options skillDir cleanup
           else if str_eqb (link_type link) web then
             ret (syncFailure (Some link)
                    (js "Web links are not yet supported for syncing"))
           else
             ret (syncFailure (Some link)
                    (js "Unknown link type: " ++ link_type link))
     end)
    (fun error => ret (syncFailure None (errorMessage error))).

Fixpoint syncAllLinks_loop (options : LinkOptions) (todo : list SkillLink)
    (results : list SyncResult) : M W (list SyncResult) :=
  match todo with
  | [] => ret results
  | link :: rest =>
      if negb (link_enabled link) then
        syncAllLinks_loop options rest results
      else
        result <- syncLink (link_name link) options ;;
        syncAllLinks_loop options rest (push results result)
  end.

(** Sync all enabled linked skills. *)
Definition syncAllLinks (options : LinkOptions) : M W (list SyncResult) :=
  registry <- readLinkRegistry (lo_target options) (userLevel_or_true options) ;;
  let results : list SyncResult := [] in
  syncAllLinks_loop options (links registry) results.

End Links.
End Links.
Export Links.

(** ** converter.ts: rules and white space *)

Module ConverterRules.

Record Rule := {
  title : jsstring;
  items : list jsstring
}.

(** One turn of the loop of [extractRules]: [rules] and [currentRule]
    before and after the line. *)
Definition extractRules_line (state : list Rule * option Rule) (line : jsstring)
    : list Rule * option Rule :=
  let '(rules, currentRule) := state in
  (* Check for rule headers *)
  if startsWith line (js "## ") then
    let rules :=
      match currentRule with
      | Some rule => push rules rule
      | None => rules
      end in
    (rules, Some {| title := trim (slice_from 3 line); items := [] |})
  else
    match currentRule with
    | Some rule =>
        if startsWith (trim line) (js "- ") then
          (* List item *)
          (rules, Some {| title := title rule;
                          items := push (items rule) (trim line) |})
        else if truthy (VStr (trim line)) then
          (* Regular paragraph *)
          (rules, Some {| title := title rule;
                          items := push (items rule) (trim line) |})
        else (rules, currentRule)
    | None => (rules, currentRule)
    end.

Definition extractRules (content : jsstring) : list Rule :=
  let rules : list Rule := [] in
  let lines := splitLines content in
  let '(rules, currentRule) := fold_left extractRules_line lines (rules, None) in
  match currentRule with
  | Some rule => push rules rule
  | None => rules
  end.

(** [text.replace(/\n{3,}/g, "\n\n")], reading [text] from the left
    with the number [run] of line breaks just passed: a run of three
    or more is one match of the pattern and becomes two, a shorter run
    is no match and stays. *)
Definition replaced_run (run : nat) : jsstring :=
  if (3 <=? run)%nat then [LF; LF] else repeat LF run.

Fixpoint replace_newlines (run : nat) (text : jsstring) : jsstring :=
  match text with
  | [] => replaced_run run
  | c :: rest =>
      if c =? LF then replace_newlines (S run) rest
      else replaced_run run ++ c :: replace_newlines 0 rest
  end.

Definition optimizeSkillContent (content : jsstring) : jsstring :=
  replace_newlines 0 (joinLines (map trimEnd (splitLines content))).

End ConverterRules.

(** ** utils.ts: finding and listing skills *)

Module Listing.

(** [a < b] on strings, as [Array.prototype.sort] without a
    comparison function orders them: by code units, a proper prefix
    first. *)
Fixpoint str_ltb (a b : jsstring) : bool :=
  match a, b with
  | _, [] => false
  | [], _ :: _ => true
  | c :: a', d :: b' => (c <? d) || ((c =? d) && str_ltb a' b')
  end.

Definition str_le (a b : jsstring) : Prop := str_ltb b a = false.

#[global] Instance str_le_dec : RelDecision str_le.
Proof. intros a b. unfold str_le. apply _. Defined.

(** [array.sort()] on an array of strings: the sorted arrangement of
    the elements (there is one only, equal strings being the same). *)
Definition sort (l : list jsstring) : list jsstring := merge_sort str_le l.

(** What the functions below use of the host besides [Deno]. *)
Class Shell (W : Type) := {
  (* resolve(path) of std/path *)
  path_resolve : jsstring -> W -> jsstring;
  (* console.log(text): the terminal is part of the world *)
  console_print : jsstring -> W -> W;
  (* console.error(text) *)
  console_error_print : jsstring -> W -> W
}.

Section Listing.
Context {W : Type} `{Deno W} `{Shell W}.

Definition findSkillFile (dir : jsstring) : M W (option jsstring) :=
  let skillPath := path_join dir (js "SKILL.md") in
  present <- exists_ skillPath ;;
  if present then ret (Some skillPath) else ret None.

Fixpoint listSkills_loop (expandedPath : jsstring) (entries : list DirEntry)
    (skills : list jsstring) : M W (list jsstring) :=
  match entries with
  | [] => ret skills
  | entry :: rest =>
      if entryIsDirectory entry then
        skillFile <- findSkillFile (path_join expandedPath (entryName entry)) ;;
        listSkills_loop expandedPath rest
          match truthy_string skillFile with
          | Some _ => push skills (entryName entry)
          | None => skills
          end
      else listSkills_loop expandedPath rest skills
  end.

(** List all deployed skills in a target directory. *)
Definition listSkills (targetDir : jsstring) : M W (list jsstring) :=
  expandedPath <- expandHome targetDir ;;
  present <- exists_ expandedPath ;;
  if negb present then ret []
  else
    let skills : list jsstring := [] in
    entries <- reading (Deno_readDir expandedPath) ;;
    skills <- listSkills_loop expandedPath entries skills ;;
    ret (sort skills).

(** Format validation errors for display. *)
Definition formatErrors (errors : list ValidationError) : jsstring :=
  joinLines (map (fun e => js "  - " ++ field e ++ js ": " ++ message e) errors).

Fixpoint discoverSkills_loop (resolvedPath : jsstring) (entries : list DirEntry)
    (skills : list jsstring) : M W (list jsstring) :=
  match entries with
  | [] => ret skills
  | entry :: rest =>
      if entryIsDirectory entry then
        let skillDir := path_join resolvedPath (entryName entry) in
        skillFile <- findSkillFile skillDir ;;
        discoverSkills_loop resolvedPath rest
          match truthy_string skillFile with
          | Some _ => push skills skillDir
          | None => skills
          end
      else discoverSkills_loop resolvedPath rest skills
  end.

(** Discover all skill directories in a given parent directory. *)
Definition discoverSkills (parentDir : jsstring) : M W (list jsstring) :=
  resolvedPath <- reading (fun w => Returned (path_resolve parentDir w)) ;;
  present <- exists_ resolvedPath ;;
  if negb present then
    throw (newError (js "Directory not found: " ++ parentDir))
  else
    let skills : list jsstring := [] in
    entries <- reading (Deno_readDir resolvedPath) ;;
    skills <- discoverSkills_loop resolvedPath entries skills ;;
    ret (sort skills).

End Listing.
End Listing.

(** ** importer.ts *)

Module Importer.
Import Listing.

Definition COLON : N := 58.
Definition DOT : N := 46.

Definition notSlash (c : N) : bool := negb (c =? SLASH).
Definition notSlashDot (c : N) : bool := negb (c =? SLASH) && negb (c =? DOT).

(** The longest run of characters of a class at the start of a
    string, and what follows it. *)
Fixpoint span (p : N -> bool) (s : jsstring) : jsstring * jsstring :=
  match s with
  | [] => ([], [])
  | c :: rest =>
      if p c then let '(run, after) := span p rest in (c :: run, after)
      else ([], s)
  end.

(** [/github\.com[\/:]([^\/]+)\/([^\/\.]+)(\.git)?$/] tried at the
    start of [s].  A class repeated with [+] takes its longest run
    first and gives characters back on failure; what follows each of
    the two groups ([/] after the first, [.git] or the end after the
    second) is not in the class of the group, so only the longest run
    can be followed by it, and the attempt is decided without
    alternatives. *)
Definition match_url_at (s : jsstring) : option (jsstring * jsstring) :=
  if startsWith s (js "github.com") then
    match slice_from 10 s with
    | c :: rest =>
        if (c =? SLASH) || (c =? COLON) then
          let '(owner, rest) := span notSlash rest in
          match owner, rest with
          | _ :: _, _ :: rest =>
              let '(repo, rest) := span notSlashDot rest in
              match repo with
              | _ :: _ =>
                  if str_eqb rest (js ".git") || str_eqb rest []
                  then Some (owner, repo)
                  else None
              | [] => None
              end
          | _, _ => None
          end
        else None
    | [] => None
    end
  else None.

(** The pattern has no [^]: it is tried at every position from the
    left, and the first position where it matches decides. *)
Fixpoint match_url (s : jsstring) : option (jsstring * jsstring) :=
  match match_url_at s with
  | Some groups => Some groups
  | None =>
      match s with
      | [] => None
      | _ :: rest => match_url rest
      end
  end.

(** [/^([^\/]+)\/([^\/]+)$/] *)
Definition match_short (s : jsstring) : option (jsstring * jsstring) :=
  let '(owner, rest) := span notSlash s in
  match owner, rest with
  | _ :: _, _ :: rest =>
      let '(repo, rest) := span notSlash rest in
      match repo, rest with
      | _ :: _, [] => Some (owner, repo)
      | _, _ => None
      end
  | _, _ => None
  end.

(** Parse GitHub URL to extract owner/repo. *)
Definition parseGitHubUrl (url : jsstring) : option (jsstring * jsstring) :=
  (* HTTPS URL *)
  match match_url url with
  | Some (owner, repo) => Some (owner, repo)
  | None =>
      (* Short format: owner/repo *)
      match match_short url with
      | Some (owner, repo) => Some (owner, repo)
      | None => None
      end
  end.

Record ImportOptions := {
  io_branch : option jsstring;      (* branch *)
  io_skillsPath : option jsstring;  (* skillsPath *)
  io_force : bool;                  (* force, tested for truth only *)
  io_dryRun : bool;                 (* dryRun, tested for truth only *)
  io_targetDir : option jsstring    (* targetDir *)
}.

Record ImportResult := {
  ir_skillName : jsstring;
  ir_skillDir : jsstring;
  ir_success : bool;
  ir_error : option jsstring;
  ir_validationErrors : option (list jsstring);
  ir_alreadyExists : option bool
}.

Record ImportSummary := {
  is_repoUrl : jsstring;
  is_branch : jsstring;
  is_totalFound : nat;
  is_imported : nat;
  is_failed : nat;
  is_skipped : nat;
  is_results : list ImportResult
}.

Record CloneResult := {
  clone_success : bool;
  clone_error : option jsstring
}.

(** [results], [imported], [failed] and [skipped] of
    [importFromGitHub]. *)
Record Tally := {
  results : list ImportResult;
  imported : nat;
  failed : nat;
  skipped : nat
}.

(** [s.split(sep)] for a separator of one character; never empty. *)
Fixpoint split_on (sep : N) (s : jsstring) : list jsstring :=
  match s with
  | [] => [[]]
  | c :: rest =>
      if c =? sep then [] :: split_on sep rest
      else match split_on sep rest with
           | [] => [[c]]
           | l :: ls => (c :: l) :: ls
           end
  end.

(** [skillDir.split("/").pop() || skillDir] *)
Definition lastSegment (skillDir : jsstring) : jsstring :=
  match last (split_on SLASH skillDir) with
  | Some ((_ :: _) as name) => name
  | _ => skillDir
  end.

(** [a || b] where [b] is a string. *)
Definition or_default (a : option jsstring) (b : jsstring) : jsstring :=
  default b (truthy_string a).

Definition CHECK : N := 10003.   (* the check mark *)
Definition CROSS : N := 10007.   (* the ballot cross *)
Definition SKIP : N := 8856.     (* the circled slash *)
Definition APOSTROPHE : N := 39.

Section Importer.
Context {W : Type} `{Deno W} `{Shell W}.

(** [console.log(text)] *)
Definition console_log (text : jsstring) : M W unit :=
  fun s => (Returned tt,
            {| world := console_print text (world s); effects := effects s |}).

(** Clone GitHub repository to temporary directory.  [code !== 0] is
    [!success] of the command's output. *)
Definition cloneRepo (repoUrl branch tempDir : jsstring) : M W CloneResult :=
  try_catch
    ((* Ensure temp directory exists *)
     do ensureDir tempDir ;;
     (* Build git clone command *)
     let cloneArgs :=
       [js "clone"; js "--depth"; js "1"; js "--branch"; branch;
        js "--single-branch"; repoUrl; tempDir] in
     (* Execute git clone *)
     output <- acting (ECommand (js "git") cloneArgs)
                      (Deno_Command_output (js "git") cloneArgs) ;;
     if negb (cmdSuccess output) then
       let errorMsg := cmdStderr output in
       ret {| clone_success := false;
              clone_error := Some (js "Git clone failed: " ++ errorMsg) |}
     else ret {| clone_success := true; clone_error := None |})
    (fun error =>
       ret {| clone_success := false;
              clone_error :=
                Some (js "Failed to clone repository: " ++ errorMessage error) |}).

(** [new Error(message).message] for an optional string. *)
Definition Error_of (message : option jsstring) : Error :=
  newError (default [] message).

(** The body of the loop over the discovered skills.  Either branch
    of the [try] changes [results] and the counters in its last
    statements only, after everything that can throw, so the [catch]
    finds them as they were before the turn. *)
Definition importSkill (targetDir : jsstring) (force dryRun : bool)
    (tally : Tally) (skillDir : jsstring) : M W Tally :=
  let skillDirName := lastSegment skillDir in
  try_catch
    ((* Validate skill *)
     validation <- validateSkillDir skillDir ;;
     if negb (valid validation) then
       let tally :=
         {| results := push (results tally)
              {| ir_skillName := skillDirName;
                 ir_skillDir := skillDir;
                 ir_success := false;
                 ir_error := None;
                 ir_validationErrors :=
                   Some (map (fun e => field e ++ js ": " ++ message e)
                             (errors validation));
                 ir_alreadyExists := None |};
            imported := imported tally;
            failed := S (failed tally);
            skipped := skipped tally |} in
       do console_log (js "  " ++ [CROSS] ++ js " " ++ skillDirName ++
                       js ": Validation failed") ;;
       ret tally
     else
       (* Get skill metadata to get the actual skill name *)
       skillFile <- parseSkillFile (path_join skillDir (js "SKILL.md")) ;;
       skillName <- lift (prop_of (metadata skillFile) (js "name")) ;;
       (* Check if skill already exists in target directory *)
       let targetSkillDir := path_join targetDir skillDirName in
       skillExists <- exists_ targetSkillDir ;;
       if skillExists && negb force then
         let tally :=
           {| results := push (results tally)
                {| ir_skillName := skillDirName;
                   ir_skillDir := skillDir;
                   ir_success := false;
                   ir_error :=
                     Some (js "Skill already exists. Use --force to overwrite.");
                   ir_validationErrors := None;
                   ir_alreadyExists := Some true |};
              imported := imported tally;
              failed := failed tally;
              skipped := S (skipped tally) |} in
         do console_log (js "  " ++ [SKIP] ++ js " " ++ skillDirName ++
                         js ": Already exists (use --force to overwrite)") ;;
         ret tally
       else
         (* Copy skill to target directory (unless dry-run) *)
         do (if negb dryRun then
               do ensureDir targetDir ;;
               (* Remove existing skill if force is enabled *)
               do (if skillExists && force
                   then acting (ERemove targetSkillDir true)
                               (Deno_remove targetSkillDir true)
                   else ret tt) ;;
               copyDir skillDir targetSkillDir
             else ret tt) ;;
         let tally :=
           {| results := push (results tally)
                {| ir_skillName := skillDirName;
                   ir_skillDir := targetSkillDir;
                   ir_success := true;
                   ir_error := None;
                   ir_validationErrors := None;
                   ir_alreadyExists := None |};
              imported := S (imported tally);
              failed := failed tally;
              skipped := skipped tally |} in
         do (if dryRun
             then console_log (js "  " ++ [CHECK] ++ js " " ++ skillDirName ++
                               js ": Would be imported (dry run)")
             else console_log (js "  " ++ [CHECK] ++ js " " ++ skillDirName ++
                               js ": Imported successfully")) ;;
         ret tally)
    (fun error =>
       let tally :=
         {| results := push (results tally)
              {| ir_skillName := skillDirName;
                 ir_skillDir := skillDir;
                 ir_success := false;
                 ir_error := Some (errorMessage error);
                 ir_validationErrors := None;
                 ir_alreadyExists := None |};
            imported := imported tally;
            failed := S (failed tally);
            skipped := skipped tally |} in
       do console_log (js "  " ++ [CROSS] ++ js " " ++ skillDirName ++ js ": " ++
                       errorMessage error) ;;
       ret tally).

Fixpoint importSkills (targetDir : jsstring) (force dryRun : bool)
    (todo : list jsstring) (tally : Tally) : M W Tally :=
  match todo with
  | [] => ret tally
  | skillDir :: rest =>
      tally <- importSkill targetDir force dryRun tally skillDir ;;
      importSkills targetDir force dryRun rest tally
  end.

(** Import skills from a GitHub repository. *)
Definition importFromGitHub (githubUrl : jsstring) (options : ImportOptions)
    : M W ImportSummary :=
  let branch := or_default (io_branch options) (js "main") in
  let skillsPath := or_default (io_skillsPath options) (js "skills") in
  let targetDir := or_default (io_targetDir options) (js "./skills") in
  let force := io_force options in
  let dryRun := io_dryRun options in
  let tally := {| results := []; imported := 0; failed := 0; skipped := 0 |} in
  (* Parse GitHub URL *)
  match parseGitHubUrl githubUrl with
  | None => throw (newError (js "Invalid GitHub URL: " ++ githubUrl))
  | Some (owner, repo) =>
      (* Build full GitHub URL *)
      let fullRepoUrl :=
        js "https://github.com/" ++ owner ++ js "/" ++ repo ++ js ".git" in
      (* Create temporary directory *)
      tempDir <- acting (EMakeTempDir (js "skill-import-"))
                        (Deno_makeTempDir (js "skill-import-")) ;;
      try_finally
        ((* Clone repository *)
         do console_log ([LF] ++ js "Cloning repository: " ++ fullRepoUrl) ;;
         do console_log (js "Branch: " ++ branch) ;;
         do console_log (js "Temporary directory: " ++ tempDir ++ [LF]) ;;
         cloneResult <- cloneRepo fullRepoUrl branch tempDir ;;
         if negb (clone_success cloneResult) then
           throw (Error_of (clone_error cloneResult))
         else
           do console_log ([CHECK] ++ js " Repository cloned successfully" ++ [LF]) ;;
           (* Discover skills in the cloned repo *)
           let skillsDir := path_join tempDir skillsPath in
           (* Check if skills directory exists *)
           present <- exists_ skillsDir ;;
           if negb present then
             throw (newError
                      (js "Skills directory not found: " ++ skillsPath ++ [LF] ++
                       js "Make sure the repository has a " ++ [APOSTROPHE] ++
                       skillsPath ++ [APOSTROPHE] ++ js " directory."))
           else
             do console_log (js "Discovering skills in: " ++ skillsPath ++
                             js "/" ++ [LF]) ;;
             discoveredSkills <- discoverSkills skillsDir ;;
             if (length discoveredSkills =? 0)%nat then
               do console_log (js "No skills found in " ++ skillsPath ++ js "/") ;;
               ret {| is_repoUrl := fullRepoUrl;
                      is_branch := branch;
                      is_totalFound := 0;
                      is_imported := 0;
                      is_failed := 0;
                      is_skipped := 0;
                      is_results := [] |}
             else
               do console_log (js "Found " ++ decimal (length discoveredSkills) ++
                               js " skill(s):" ++ [LF]) ;;
               (* Process each skill *)
               tally <- importSkills targetDir force dryRun discoveredSkills tally ;;
               ret {| is_repoUrl := fullRepoUrl;
                      is_branch := branch;
                      is_totalFound := length discoveredSkills;
                      is_imported := imported tally;
                      is_failed := failed tally;
                      is_skipped := skipped tally;
                      is_results := results tally |})
        ((* Clean up temporary directory *)
         catch_ignore (acting (ERemove tempDir true) (Deno_remove tempDir true)))
  end.

End Importer.
End Importer.

(** ** main.ts: the commands *)

Module Main.
Import Listing Importer.

Definition VERSION : jsstring := js "0.1.0".

(** The text [printHelp] prints. *)
Definition helpText : jsstring :=
  joinLines
    [js "";
     js "Agent Skill Builder v" ++ VERSION;
     js "Cross-platform skill deployment tool for AI editors";
     js "";
     js "USAGE:";
     js "  skill-builder <command> [options]";
     js "";
     js "COMMANDS:";
     js "  deploy <dir>       Deploy skill to target platforms";
     js "  batch-deploy <dir> Deploy all skills in a directory";
     js "  validate <dir>     Validate SKILL.md format";
     js "  list               List deployed skills";
     js "  remove <name>      Remove deployed skill";
     js "  help               Show this help message";
     js "  version            Show version";
     js "";
     js "DEPLOY OPTIONS:";
     js "  --target <t>       Target platform: claude, codex, cursor";
     js "  --all              Deploy to all platforms";
     js "  --force            Overwrite existing skills";
     js "  --dry-run          Simulate deployment without writing files";
     js "  --project-path <p> Deploy to specified project folder (e.g., /path/to/project)";
     js "";
     js "BATCH-DEPLOY OPTIONS:";
     js "  --target <t>       Target platform: claude, codex, cursor";
     js "  --all              Deploy to all platforms";
     js "  --force            Overwrite existing skills";
     js "  --dry-run          Simulate deployment without writing files";
     js "  --project-path <p> Deploy to specified project folder (e.g., /path/to/project)";
     js "";
     js "LIST OPTIONS:";
     js "  --target <t>     List skills from specific target";
     js "  --all            List skills from all platforms";
     js "";
     js "REMOVE OPTIONS:";
     js "  --target <t>     Remove from specific target (required)";
     js "";
     js "EXAMPLES:";
     js "  # Validate a skill";
     js "  skill-builder validate ./my-skill";
     js "";
     js "  # Deploy to Claude Code";
     js "  skill-builder deploy ./my-skill --target claude";
     js "";
     js "  # Deploy to all platforms";
     js "  skill-builder deploy ./my-skill --all";
     js "";
     js "  # Deploy with overwrite";
     js "  skill-builder deploy ./my-skill --target codex --force";
     js "";
     js "  # Batch deploy all skills in a directory";
     js "  skill-builder batch-deploy ./skills --target claude";
     js "";
     js "  # Batch deploy all skills to all platforms";
     js "  skill-builder batch-deploy ./skills --all --force";
     js "";
     js "  # Deploy to a specific project folder";
     js "  skill-builder deploy ./my-skill --target claude --project-path /path/to/my-project";
     js "";
     js "  # Batch deploy to a specific project folder";
     js "  skill-builder batch-deploy ./skills --all --project-path ~/workspace/my-app";
     js "";
     js "  # List all deployed skills";
     js "  skill-builder list --all";
     js "";
     js "  # Remove a skill";
     js "  skill-builder remove my-skill --target claude";
     js ""].

(** What the commands read of the parsed arguments: a flag declared
    boolean is false when absent, an option declared string is
    undefined when absent. *)
Record Args := {
  args_all : bool;                        (* args.all *)
  args_target : option jsstring;          (* args.target *)
  args_force : bool;                      (* args.force *)
  args_dry_run : bool;                    (* args["dry-run"] *)
  args_project_path : option jsstring     (* args["project-path"] *)
}.

(** A target, spelled. *)
Definition targetName (target : DeployTarget) : jsstring :=
  match target with
  | claude => js "claude"
  | codex => js "codex"
  | cursor => js "cursor"
  end.

(** [["claude", "codex", "cursor"].includes(target)] and the cast
    [target as DeployTarget] that follows it. *)
Definition asDeployTarget (target : jsstring) : option DeployTarget :=
  if str_eqb target (js "claude") then Some claude
  else if str_eqb target (js "codex") then Some codex
  else if str_eqb target (js "cursor") then Some cursor
  else None.

(** [targets.join(", ")] *)
Fixpoint joinTargets (targets : list DeployTarget) : jsstring :=
  match targets with
  | [] => []
  | [target] => targetName target
  | target :: rest => targetName target ++ js ", " ++ joinTargets rest
  end.

(** An optional string inside a template literal. *)
Definition orUndefined (o : option jsstring) : jsstring :=
  default (js "undefined") o.

Section Main.
Context {W : Type} `{Deno W} `{Shell W}.

(** [console.error(text)] *)
Definition console_error (text : jsstring) : M W unit :=
  fun s => (Returned tt,
            {| world := console_error_print text (world s); effects := effects s |}).

Definition printHelp : M W unit := console_log helpText.

(** [Deno.exit(code)] ends the process there: a command is a
    computation of the status it exits with. *)
Definition exit (code : nat) : M W nat := ret code.

Definition invalidTargetMessage (target : jsstring) : jsstring :=
  js "Error: Invalid target " ++ [QUOTE] ++ target ++ [QUOTE] ++
  js ". Must be: claude, codex, or cursor".

Definition commandValidate (dir : jsstring) : M W nat :=
  do console_log (js "Validating skill: " ++ dir ++ [LF]) ;;
  result <- validateSkillDir dir ;;
  if valid result then
    do console_log ([CHECK] ++ js " Validation passed!") ;;
    exit 0
  else
    do console_error ([CROSS] ++ js " Validation failed:" ++ [LF]) ;;
    do console_error (formatErrors (errors result)) ;;
    exit 1.

(** The lines of [commandDeploy] that print the result of each
    target and tell whether one failed. *)
Fixpoint printResults (results : list DeployResult) (hasErrors : bool) : M W bool :=
  match results with
  | [] => ret hasErrors
  | result :: rest =>
      if success result then
        do console_log ([CHECK] ++ js " " ++ targetName (target result) ++ js ": " ++
                        orUndefined (path result)) ;;
        printResults rest hasErrors
      else
        do console_error ([CROSS] ++ js " " ++ targetName (target result) ++ js ": " ++
                          orUndefined (error result)) ;;
        printResults rest true
  end.

(** The first statement of [commandDeploy] either exits with a status
    or leaves the targets. *)
Definition parseTargets (args : Args) : M W (nat + list DeployTarget) :=
  let targets : list DeployTarget := [] in
  if args_all args then
    ret (inr (targets ++ [claude; codex; cursor]))
  else
    match truthy_string (args_target args) with
    | Some target =>
        match asDeployTarget target with
        | None =>
            do console_error (invalidTargetMessage target) ;;
            ret (inl 1%nat)
        | Some target => ret (inr (push targets target))
        end
    | None =>
        do console_error (js "Error: Must specify --target or --all") ;;
        do printHelp ;;
        ret (inl 1%nat)
    end.

Definition commandDeploy (dir : jsstring) (args : Args) : M W nat :=
  (* Parse targets *)
  parsed <- parseTargets args ;;
  match parsed with
  | inl code => exit code
  | inr targets =>
      (* Validate skill first *)
      do console_log (js "Validating skill: " ++ dir) ;;
      validation <- validateSkillDir dir ;;
      if negb (valid validation) then
        do console_error ([LF] ++ [CROSS] ++ js " Validation failed:" ++ [LF]) ;;
        do console_error (formatErrors (errors validation)) ;;
        exit 1
      else
        do console_log ([CHECK] ++ js " Validation passed" ++ [LF]) ;;
        (* Deploy options *)
        let options :=
          {| targets := targets;
             force := args_force args;
             dryRun := args_dry_run args;
             projectPath := args_project_path args |} in
        do (if dryRun options
            then console_log (js "(Dry run mode - no files will be written)" ++ [LF])
            else ret tt) ;;
        (* Deploy *)
        do console_log (js "Deploying to: " ++ joinTargets targets ++ [LF]) ;;
        results <- deploySkill dir options ;;
        (* Print results *)
        hasErrors <- printResults results false ;;
        exit (if hasErrors then 1 else 0)
  end.

Definition commandRemove (name : jsstring) (args : Args) : M W nat :=
  match truthy_string (args_target args) with
  | None =>
      do console_error (js "Error: --target is required for remove command") ;;
      exit 1
  | Some target =>
      match asDeployTarget target with
      | None =>
          do console_error (invalidTargetMessage target) ;;
          exit 1
      | Some deployTarget =>
          do console_log (js "Removing skill " ++ [QUOTE] ++ name ++ [QUOTE] ++
                          js " from " ++ target ++ js "...") ;;
          result <- removeSkill name deployTarget ;;
          if removed result then
            do console_log ([CHECK] ++ js " Skill removed successfully") ;;
            exit 0
          else
            do console_error ([CROSS] ++ js " Failed to remove skill: " ++
                              orUndefined (remove_error result)) ;;
            exit 1
      end
  end.

End Main.
End Main.

(** ** A simulated host

    A small filesystem, environment and git, used to run the functions
    above on concrete inputs.  Paths are the strings the program
    spells; a path without a directory part lives in the working
    directory. *)

Module Sim.

Inductive Node :=
  | File (data : jsstring)
  | Folder.

Record World := {
  files : gmap jsstring Node;
  env : gmap jsstring jsstring;
  cwd : jsstring;
  temps : nat;
  (* the repositories [git clone] can fetch: url, then the tree *)
  remotes : gmap jsstring (list (jsstring * Node))
}.

Definition with_files (w : World) (fs : gmap jsstring Node) : World :=
  {| files := fs; env := env w; cwd := cwd w; temps := temps w;
     remotes := remotes w |}.

Definition notFound (path : jsstring) : Error :=
  {| errorClass := NotFound;
     errorMessage := js "No such file or directory: " ++ path |}.

Definition failure (msg path : jsstring) : Error :=
  newError (msg ++ js ": " ++ path).

(** [p] lies strictly below the directory [dir]. *)
Definition under (dir p : jsstring) : bool := startsWith p (dir ++ [SLASH]).

(** The directory part of a path, when it has one. *)
Definition parent (p : jsstring) : option jsstring :=
  match lastIndexOf SLASH p with
  | Some (S i) => Some (take (S i) p)
  | _ => None
  end.

Definition parent_is_folder (w : World) (p : jsstring) : bool :=
  match parent p with
  | None => true
  | Some q => match files w !! q with Some Folder => true | _ => false end
  end.

Definition is_file (w : World) (p : jsstring) : bool :=
  match files w !! p with Some (File _) => true | _ => false end.

(** The directories on the way to [p], outermost first. *)
Fixpoint ancestors_from (done rest : jsstring) : list jsstring :=
  match rest with
  | [] => []
  | c :: rest' =>
      (if (c =? SLASH) && negb (bool_decide (done = [])) then [done] else [])
      ++ ancestors_from (done ++ [c]) rest'
  end.

Definition ancestors (p : jsstring) : list jsstring := ancestors_from [] p.

Definition stat (p : jsstring) (w : World) : outcome FileInfo :=
  match files w !! p with
  | Some (File _) => Returned {| isDirectory := false |}
  | Some Folder => Returned {| isDirectory := true |}
  | None => Thrown (notFound p)
  end.

Definition readTextFile (p : jsstring) (w : World) : outcome jsstring :=
  match files w !! p with
  | Some (File data) => Returned data
  | Some Folder => Thrown (failure (js "Is a directory") p)
  | None => Thrown (notFound p)
  end.

Definition readDir (p : jsstring) (w : World) : outcome (list DirEntry) :=
  match files w !! p with
  | Some Folder =>
      Returned
        (omap (fun kv : jsstring * Node =>
                 if bool_decide (parent kv.1 = Some p)
                 then Some {| entryName := drop (S (length p)) kv.1;
                              entryIsDirectory :=
                                match kv.2 with Folder => true | File _ => false end |}
                 else None)
              (map_to_list (files w)))
  | Some (File _) => Thrown (failure (js "Not a directory") p)
  | None => Thrown (notFound p)
  end.

Definition mkdir (p : jsstring) (w : World) : outcome unit * World :=
  if bool_decide (p = []) then (Thrown (notFound p), w)
  else if is_file w p then
    (Thrown {| errorClass := AlreadyExists;
               errorMessage := js "File exists: " ++ p |}, w)
  else if existsb (is_file w) (ancestors p) then
    (Thrown (failure (js "Not a directory") p), w)
  else
    (Returned tt,
     with_files w (foldr (fun q fs => <[q := Folder]> fs) (files w)
                         (ancestors p ++ [p]))).

Definition remove (p : jsstring) (recursive : bool) (w : World)
    : outcome unit * World :=
  match files w !! p with
  | None => (Thrown (notFound p), w)
  | Some (File _) => (Returned tt, with_files w (delete p (files w)))
  | Some Folder =>
      let below := filter (fun kv : jsstring * Node => under p kv.1 = true) (files w) in
      if recursive then
        (Returned tt,
         with_files w (delete p (filter (fun kv : jsstring * Node => under p kv.1 = false)
                                        (files w))))
      else if bool_decide (below = ∅) then
        (Returned tt, with_files w (delete p (files w)))
      else (Thrown (failure (js "Directory not empty") p), w)
  end.

Definition writeTextFile (p data : jsstring) (w : World) : outcome unit * World :=
  match files w !! p with
  | Some Folder => (Thrown (failure (js "Is a directory") p), w)
  | _ =>
      if parent_is_folder w p
      then (Returned tt, with_files w (<[p := File data]> (files w)))
      else (Thrown (notFound p), w)
  end.

Definition copyFile (from to : jsstring) (w : World) : outcome unit * World :=
  match files w !! from with
  | Some (File data) => writeTextFile to data w
  | Some Folder => (Thrown (failure (js "Is a directory") from), w)
  | None => (Thrown (notFound from), w)
  end.

Definition makeTempDir (prefix : jsstring) (w : World) : outcome jsstring * World :=
  let dir := js "/tmp/" ++ prefix ++ decimal (temps w) in
  (Returned dir,
   {| files := <[dir := Folder]> (files w); env := env w; cwd := cwd w;
      temps := S (temps w); remotes := remotes w |}).

(** [git clone ... source dest]: the last two arguments name the
    repository and the directory it is unpacked into. *)
Definition Command_output (cmd : jsstring) (args : list jsstring) (w : World)
    : outcome CommandOutput * World :=
  if negb (str_eqb cmd (js "git")) then
    (Thrown {| errorClass := NotFound;
               errorMessage := js "Failed to spawn: " ++ cmd |}, w)
  else
    match rev args with
    | dest :: source :: _ =>
        match remotes w !! source with
        | Some tree =>
            (Returned {| cmdSuccess := true; cmdStderr := [] |},
             with_files w
               (foldr (fun (e : jsstring * Node) fs => <[dest ++ js "/" ++ e.1 := e.2]> fs)
                      (files w) tree))
        | None =>
            (Returned {| cmdSuccess := false;
                         cmdStderr := js "fatal: repository not found" |}, w)
        end
    | _ => (Returned {| cmdSuccess := false; cmdStderr := js "usage: git clone" |}, w)
    end.

(** [join] on paths that need no normalising. *)
Definition join (a b : jsstring) : jsstring :=
  match a, b with
  | [], _ => b
  | _, [] => a
  | _, _ => a ++ js "/" ++ b
  end.

(** A manifest header in the simulation is a flat mapping of plain
    scalars, one [key: value] per line. *)
Fixpoint break_at (c : N) (s : jsstring) : option (jsstring * jsstring) :=
  match s with
  | [] => None
  | d :: rest =>
      if d =? c then Some ([], rest)
      else match break_at c rest with
           | Some (a, b) => Some (d :: a, b)
           | None => None
           end
  end.

Fixpoint parseYaml_lines (lines : list jsstring) : outcome Record :=
  match lines with
  | [] => Returned ∅
  | line :: rest =>
      if bool_decide (trim line = []) then parseYaml_lines rest
      else match break_at 58 line, parseYaml_lines rest with
           | Some (key, value), Returned m =>
               Returned (<[trim key := VStr (trim value)]> m)
           | None, _ => Thrown (newError (js "bad indentation of a mapping entry"))
           | _, Thrown e => Thrown e
           end
  end.

(** A header with nothing but white space in it is [null]. *)
Definition parseYaml_flat (text : jsstring) : outcome Header :=
  if forallb (fun line => bool_decide (trim line = [])) (splitLines text)
  then Returned HNull
  else and_then (parseYaml_lines (splitLines text))
                (fun fields => Returned (HRecord fields)).

(** The registry document in the simulation: every string is written
    with its length in front, every list with its number of
    elements. *)
Module Codec.

Definition put_string (s : jsstring) : jsstring := N.of_nat (length s) :: s.

Definition put_option (o : option jsstring) : jsstring :=
  match o with
  | None => [0]
  | Some s => 1 :: put_string s
  end.

Definition put_bool (b : bool) : jsstring := [if b then 1 else 0].

Definition put_link (l : SkillLink) : jsstring :=
  put_string (link_name l) ++ put_string (link_type l) ++
  put_string (link_source l) ++ put_option (link_path l) ++
  put_option (link_branch l) ++ put_bool (link_enabled l) ++
  put_option (link_description l).

Definition put_registry (r : SkillLinkRegistry) : jsstring :=
  put_string (version r) ++
  N.of_nat (length (links r)) :: concat (map put_link (links r)).

Definition get_string (s : jsstring) : option (jsstring * jsstring) :=
  match s with
  | [] => None
  | n :: rest =>
      if (N.to_nat n <=? length rest)%nat
      then Some (take (N.to_nat n) rest, drop (N.to_nat n) rest)
      else None
  end.

Definition get_option (s : jsstring) : option (option jsstring * jsstring) :=
  match s with
  | 0 :: rest => Some (None, rest)
  | 1 :: rest =>
      match get_string rest with
      | Some (x, rest') => Some (Some x, rest')
      | None => None
      end
  | _ => None
  end.

Definition get_bool (s : jsstring) : option (bool * jsstring) :=
  match s with
  | 0 :: rest => Some (false, rest)
  | 1 :: rest => Some (true, rest)
  | _ => None
  end.

Definition get_link (s : jsstring) : option (SkillLink * jsstring) :=
  '(name, s) ← get_string s;
  '(type, s) ← get_string s;
  '(source, s) ← get_string s;
  '(path, s) ← get_option s;
  '(branch, s) ← get_option s;
  '(enabled, s) ← get_bool s;
  '(description, s) ← get_option s;
  Some ({| link_name := name; link_type := type; link_source := source;
           link_path := path; link_branch := branch; link_enabled := enabled;
           link_description := description |}, s).

Fixpoint get_links (n : nat) (s : jsstring) : option (list SkillLink * jsstring) :=
  match n with
  | O => Some ([], s)
  | S n =>
      '(l, s) ← get_link s;
      '(ls, s) ← get_links n s;
      Some (l :: ls, s)
  end.

Definition get_registry (s : jsstring) : option SkillLinkRegistry :=
  '(v, s) ← get_string s;
  match s with
  | [] => None
  | n :: s =>
      '(ls, s) ← get_links (N.to_nat n) s;
      if bool_decide (s = [LF] \/ s = [])
      then Some {| version := v; links := ls |}
      else None
  end.

Definition JSON_parse (text : jsstring) : outcome SkillLinkRegistry :=
  match get_registry text with
  | Some r => Returned r
  | None => Thrown (newError (js "Unexpected token in JSON"))
  end.

End Codec.

#[global] Instance host : Deno World := {|
  Deno_env_get k w := env w !! k;
  Deno_cwd := cwd;
  Deno_stat := stat;
  Deno_readTextFile := readTextFile;
  Deno_readDir := readDir;
  Deno_mkdir := mkdir;
  Deno_remove := remove;
  Deno_writeTextFile := writeTextFile;
  Deno_copyFile := copyFile;
  Deno_makeTempDir := makeTempDir;
  Deno_Command_output := Command_output;
  path_join := join;
  path_assert_message := fun _ => js "Path must be a string";
  path_max_depth := 32;
  parseYaml := parseYaml_flat;
  Number_toString := fun _ => js "NaN";
  JSON_parse := Codec.JSON_parse;
  JSON_stringify := Codec.put_registry
|}.

(** Run a computation in a world, with nothing done so far. *)
Definition run {A} (m : M World A) (w : World) : outcome A * State World :=
  m {| world := w; effects := [] |}.

End Sim.

(** *** The simulated host, continued *)

Module SimShell.
Import Sim Listing.

(** [resolve] on paths that need no normalising: a path that does not
    start at the root is taken from the working directory. *)
Definition resolve (p : jsstring) (w : World) : jsstring :=
  if startsWith p (js "/") then p else join (cwd w) p.

(** The simulated host has no terminal: what is printed is lost. *)
#[global] Instance shell : Shell World := {|
  path_resolve := resolve;
  console_print := fun _ w => w;
  console_error_print := fun _ w => w
|}.

End SimShell.

(** * Properties *)

(** ** Vocabulary of the statements *)

Module Props.
Section Props.
Context {W : Type} `{Deno W}.

(** A computation that leaves the world and the record of effects as
    they were, whatever it returns. *)
Definition ReadOnly {A} (m : M W A) : Prop := forall s, (m s).2 = s.

(** A computation that never throws. *)
Definition Total {A} (m : M W A) : Prop :=
  forall s, exists a, (m s).1 = Returned a.

Definition setDryRun (b : bool) (o : DeployOptions) : DeployOptions :=
  {| targets := targets o; force := force o; dryRun := b;
     projectPath := projectPath o |}.

Definition setProjectPath (p : option jsstring) (o : DeployOptions) : DeployOptions :=
  {| targets := targets o; force := force o; dryRun := dryRun o;
     projectPath := p |}.

(** The destination of a skill on a target, as the two deploy
    functions compute it. *)
Definition destination (skillName : jsval) (target : DeployTarget) : M W jsstring :=
  match target with
  | cursor => ret TARGET_PATHS.cursor.project
  | _ =>
      expandedBase <- expandHome (getTargetPath target true) ;;
      join_unchecked expandedBase skillName
  end.

(** The message of the overwrite guard. *)
Definition alreadyExistsMessage (target : DeployTarget) (targetPath : jsstring)
    : jsstring :=
  match target with
  | cursor => targetPath ++ js " already exists. Use --force to overwrite."
  | _ => js "Skill already exists at " ++ targetPath ++
         js ". Use --force to overwrite."
  end.


(** One call of [syncLink] per link of the list, in order, each on the
    state the previous one left. *)
Inductive SyncRun (options : LinkOptions)
    : list SkillLink -> State W -> list SyncResult -> State W -> Prop :=
  | SyncRun_nil s : SyncRun options [] s [] s
  | SyncRun_cons link rest s result s1 results s2 :
      syncLink (link_name link) options s = (Returned result, s1) ->
      SyncRun options rest s1 results s2 ->
      SyncRun options (link :: rest) s (result :: results) s2.

(** One deployment per target of the list, in order, each on the
    state the previous one left. *)
Inductive DeployRun (skillDir : jsstring) (skillName : jsval) (options : DeployOptions)
    : list DeployTarget -> State W -> list DeployResult -> State W -> Prop :=
  | DeployRun_nil s : DeployRun skillDir skillName options [] s [] s
  | DeployRun_cons target rest s result s1 results s2 :
      deployTarget skillDir skillName options target s = (Returned result, s1) ->
      DeployRun skillDir skillName options rest s1 results s2 ->
      DeployRun skillDir skillName options (target :: rest) s (result :: results) s2.

(** What the registry functions need from the host besides its
    interface: writing does not touch the environment, a file reads
    back as written, and a registry parses back from its text. *)
Record HostLaws : Prop := {
  mkdir_env : forall key p w r w',
    Deno_mkdir p w = (r, w') -> Deno_env_get key w' = Deno_env_get key w;
  write_env : forall key p data w r w',
    Deno_writeTextFile p data w = (r, w') ->
    Deno_env_get key w' = Deno_env_get key w;
  read_after_write : forall p data w w',
    Deno_writeTextFile p data w = (Returned tt, w') ->
    Deno_readTextFile p w' = Returned data;
  JSON_roundtrip : forall registry,
    JSON_parse (JSON_stringify registry ++ [LF]) = Returned registry
}.

Definition names (ls : list SkillLink) : list jsstring := map link_name ls.

(** How many links of a list carry a name. *)
Definition occurrences (name : jsstring) (ls : list SkillLink) : nat :=
  length (filter (fun l => link_name l = name) ls).

(** The directory the last step of a git sync removes. *)
Definition cleanupTarget (link : SkillLink) (tempDir : jsstring)
    (clone : outcome CommandOutput) : jsstring :=
  match clone with
  | Returned output =>
      if cmdSuccess output then
        match truthy_string (link_path link) with
        | Some path => tempDir ++ js "/" ++ path
        | None => tempDir
        end
      else tempDir
  | Thrown _ => tempDir
  end.

Definition cloneArguments (link : SkillLink) (tempDir : jsstring) : list jsstring :=
  [js "clone"; js "--depth"; js "1"] ++
  match truthy_string (link_branch link) with
  | Some branch => [js "--branch"; branch]
  | None => []
  end ++ [link_source link; tempDir].

(** At most one link per name. *)
Definition OnePerName (ls : list SkillLink) : Prop :=
  forall name, (occurrences name ls <= 1)%nat.

(** The registry [addLink] writes. *)
Definition upsert (link : SkillLink) (registry : SkillLinkRegistry)
    : SkillLinkRegistry :=
  match findIndex (hasName (link_name link)) (links registry) with
  | Some i => {| version := version registry;
                 links := <[i := link]> (links registry) |}
  | None => {| version := version registry;
               links := links registry ++ [link] |}
  end.

(** The registry [removeLink] writes. *)
Definition without (index : nat) (registry : SkillLinkRegistry) : SkillLinkRegistry :=
  {| version := version registry; links := delete index (links registry) |}.

(** The registry [toggleLink] writes. *)
Definition toggled (index : nat) (enabled : bool) (registry : SkillLinkRegistry)
    : SkillLinkRegistry :=
  {| version := version registry;
     links := <[index := setEnabled enabled (links registry !!! index)]>
                (links registry) |}.

(** What the caller gets from a write that was attempted last. *)
Definition afterWrite (target : DeployTarget) (userLevel : bool)
    (registry : SkillLinkRegistry) (link : SkillLink) (s : State W)
    : outcome LinkResult * State W :=
  match writeLinkRegistry target userLevel registry s with
  | (Returned _, s') => (Returned (linkSuccess link), s')
  | (Thrown e, s') => (Returned (linkFailure (errorMessage e)), s')
  end.

Definition notFoundMessage (name : jsstring) : jsstring :=
  js "Link " ++ [QUOTE] ++ name ++ [QUOTE] ++ js " not found".

Definition existsMessage (name : jsstring) : jsstring :=
  js "Link " ++ [QUOTE] ++ name ++ [QUOTE] ++
  js " already exists. Use --force to overwrite.".

Definition newLink (name source : jsstring) (details : LinkDetails) : SkillLink :=
  {| link_name := name;
     link_type := default (detectLinkType source) (ld_type details);
     link_source := source;
     link_path := ld_path details;
     link_branch := ld_branch details;
     link_enabled := default true (ld_enabled details);
     link_description := ld_description details |}.

End Props.
Arguments HostLaws W {_}.
End Props.
Export Props.

(** ** The rules of the manifest header *)

Module Rules.

Definition mkError (fld msg : jsstring) : ValidationError :=
  {| field := fld; message := msg |}.

Definition tooLong (limit len : nat) : jsstring :=
  js "Must be " ++ decimal limit ++ js " characters or less (got " ++
  decimal len ++ js ")".

Definition itemMessage (index : nat) : jsstring :=
  js "Item at index " ++ decimal index ++ js " must be a string".

(** The rules of the manifest header, each with the error it is
    reported as. *)
Inductive Violation (m : Record) : ValidationError -> Prop :=
  | name_missing :
      truthy (prop m (js "name")) = false ->
      Violation m (mkError (js "name") (js "Required field is missing"))
  | name_not_string :
      truthy (prop m (js "name")) = true ->
      isString (prop m (js "name")) = false ->
      Violation m (mkError (js "name") (js "Must be a string"))
  | name_too_long s :
      prop m (js "name") = VStr s -> s <> [] ->
      (LIMITS.name < length s)%nat ->
      Violation m (mkError (js "name") (tooLong LIMITS.name (length s)))
  | name_multiline s :
      prop m (js "name") = VStr s -> hasNewline s = true ->
      Violation m (mkError (js "name") (js "Must be a single line (no newlines)"))
  | name_format s :
      prop m (js "name") = VStr s -> s <> [] -> nameRegex_test s = false ->
      Violation m (mkError (js "name")
                     (js "Must contain only lowercase letters, numbers, and hyphens"))
  | description_missing :
      truthy (prop m (js "description")) = false ->
      Violation m (mkError (js "description") (js "Required field is missing"))
  | description_not_string :
      truthy (prop m (js "description")) = true ->
      isString (prop m (js "description")) = false ->
      Violation m (mkError (js "description") (js "Must be a string"))
  | description_too_long s :
      prop m (js "description") = VStr s -> s <> [] ->
      (LIMITS.description < length s)%nat ->
      Violation m (mkError (js "description")
                     (tooLong LIMITS.description (length s)))
  | description_multiline s :
      prop m (js "description") = VStr s -> hasNewline s = true ->
      Violation m (mkError (js "description")
                     (js "Must be a single line (no newlines)"))
  | tools_not_array :
      prop m (js "allowed-tools") <> VUndefined ->
      (forall items, prop m (js "allowed-tools") <> VArr items) ->
      Violation m (mkError (js "allowed-tools") (js "Must be an array"))
  | tools_item items index item :
      prop m (js "allowed-tools") = VArr items ->
      items !! index = Some item -> isString item = false ->
      Violation m (mkError (js "allowed-tools") (itemMessage index))
  | model_not_string :
      prop m (js "model") <> VUndefined ->
      isString (prop m (js "model")) = false ->
      Violation m (mkError (js "model") (js "Must be a string"))
  | skills_not_array :
      prop m (js "skills") <> VUndefined ->
      (forall items, prop m (js "skills") <> VArr items) ->
      Violation m (mkError (js "skills") (js "Must be an array"))
  | skills_item items index item :
      prop m (js "skills") = VArr items ->
      items !! index = Some item -> isString item = false ->
      Violation m (mkError (js "skills") (itemMessage index)).

(** The errors of one field. *)
Definition errorsFor (fld : jsstring) (m : Record) : list ValidationError :=
  filter (fun e => field e = fld) (validateMetadata m).

(** The five blocks of [validateMetadata], each as a function of the
    field it reads and of the errors collected before it. *)
Definition nameBlock (name : jsval) (errors : list ValidationError) :=
  if negb (truthy name)
  then push errors (mkError (js "name") (js "Required field is missing"))
  else match name with
  | VStr name =>
      let errors :=
        if (LIMITS.name <? length name)%nat
        then push errors (mkError (js "name") (tooLong LIMITS.name (length name)))
        else errors in
      let errors :=
        if hasNewline name
        then push errors (mkError (js "name") (js "Must be a single line (no newlines)"))
        else errors in
      if negb (nameRegex_test name)
      then push errors
             (mkError (js "name")
                (js "Must contain only lowercase letters, numbers, and hyphens"))
      else errors
  | _ => push errors (mkError (js "name") (js "Must be a string"))
  end.

Definition descriptionBlock (description : jsval) (errors : list ValidationError) :=
  if negb (truthy description)
  then push errors (mkError (js "description") (js "Required field is missing"))
  else match description with
  | VStr description =>
      let errors :=
        if (LIMITS.description <? length description)%nat
        then push errors (mkError (js "description")
                            (tooLong LIMITS.description (length description)))
        else errors in
      if hasNewline description
      then push errors (mkError (js "description")
                          (js "Must be a single line (no newlines)"))
      else errors
  | _ => push errors (mkError (js "description") (js "Must be a string"))
  end.

Definition arrayBlock (fld : jsstring) (v : jsval) (errors : list ValidationError) :=
  match v with
  | VUndefined => errors
  | VArr items => forEach_string_check fld items 0 errors
  | _ => push errors (mkError fld (js "Must be an array"))
  end.

Definition modelBlock (model : jsval) (errors : list ValidationError) :=
  if negb (isUndefined model) && negb (isString model)
  then push errors (mkError (js "model") (js "Must be a string"))
  else errors.

(** The optional list fields that pass: absent, or a list of strings. *)
Definition stringList (v : jsval) : Prop :=
  v = VUndefined \/ exists items, v = VArr items /\ forallb isString items = true.

End Rules.
Export Rules.

(** ** Vocabulary of the further statements *)

Module Terms.
Import ConverterRules Listing Importer Main.

(** A line that opens a rule, and a line with nothing but white
    space. *)
Definition isHeading (line : jsstring) : bool := startsWith line (js "## ").
Definition isBlank (line : jsstring) : bool := bool_decide (trim line = []).

(** The lines up to the next heading. *)
Fixpoint takeUntilHeading (lines : list jsstring) : list jsstring :=
  match lines with
  | [] => []
  | line :: rest => if isHeading line then [] else line :: takeUntilHeading rest
  end.

(** The rules of a text, told from its lines: every heading line
    opens one, titled by what follows the marker, and holds the lines
    up to the next heading that are not blank, all trimmed. *)
Fixpoint sections (lines : list jsstring) : list Rule :=
  match lines with
  | [] => []
  | line :: rest =>
      if isHeading line
      then {| title := trim (drop 3 line);
              items := map trim (List.filter (fun l => negb (isBlank l))
                                             (takeUntilHeading rest)) |}
           :: sections rest
      else sections rest
  end.

(** The items a rule gets from the lines after its heading. *)
Definition itemsOf (lines : list jsstring) : list jsstring :=
  map trim (List.filter (fun l => negb (isBlank l)) (takeUntilHeading lines)).

(** The rules the loop of [extractRules] has when it stops in a
    state. *)
Definition closed (state : list Rule * option Rule) : list Rule :=
  match state.2 with
  | Some rule => state.1 ++ [rule]
  | None => state.1
  end.

Definition noLF (line : jsstring) : Prop := LF ∉ line.

(** No white space at the end. *)
Definition rightTrimmed (line : jsstring) : Prop := trimEnd line = line.

Definition notWhiteSpace (c : N) : bool := negb (isWhiteSpace c).

(** The line [formatErrors] prints for an error. *)
Definition errorLine (e : ValidationError) : jsstring :=
  js "  - " ++ field e ++ js ": " ++ message e.

Definition httpSource (source : jsstring) : bool :=
  startsWith source (js "http://") || startsWith source (js "https://").

(** The address [importFromGitHub] clones from. *)
Definition fullRepoUrl (owner repo : jsstring) : jsstring :=
  js "https://github.com/" ++ owner ++ js "/" ++ repo ++ js ".git".

(** The arguments of the [git] command of [cloneRepo]. *)
Definition cloneRepoArguments (repoUrl branch tempDir : jsstring) : list jsstring :=
  [js "clone"; js "--depth"; js "1"; js "--branch"; branch;
   js "--single-branch"; repoUrl; tempDir].

(** A name between two slashes: not empty, no slash in it. *)
Definition segment (s : jsstring) : Prop := s <> [] /\ SLASH ∉ s.

(** A result that says the skill was there already. *)
Definition isSkipped (r : ImportResult) : bool :=
  match ir_alreadyExists r with
  | Some true => true
  | _ => false
  end.

(** The counters agree with the results. *)
Definition Counted (t : Tally) : Prop :=
  imported t = length (List.filter ir_success (results t)) /\
  skipped t = length (List.filter isSkipped (results t)) /\
  (imported t + failed t + skipped t)%nat = length (results t).

(** Effects on the temporary directory of an import: making it and
    cloning into it. *)
Definition cloning (repoUrl branch tempDir : jsstring) (e : Effect) : Prop :=
  e = EMkdir tempDir \/
  e = ECommand (js "git") (cloneRepoArguments repoUrl branch tempDir).

Definition isDigit (c : N) : Prop := 48 <= c <= 57.

(** The prefix of the temporary directory of an import. *)
Definition tempPrefix : jsstring := js "skill-import-".

(** Effects that create, and runs of git. *)
Definition creatingOrGit (e : Effect) : Prop :=
  match e with
  | EMkdir _ | ECopyFile _ _ | EWriteTextFile _ _ => True
  | ECommand cmd _ => cmd = js "git"
  | _ => False
  end.

Definition disabledMessage (name : jsstring) : jsstring :=
  js "Link " ++ [QUOTE] ++ name ++ [QUOTE] ++ js " is disabled".

(** A deployment outcome that says what it should: its target; with
    success the path and no error, with failure an error message and
    no path. *)
Definition deployResultOk (t : DeployTarget) (r : DeployResult) : Prop :=
  target r = t /\
  if success r then is_Some (path r) /\ error r = None
  else path r = None /\ is_Some (error r).

Definition linkResultOk (r : LinkResult) : Prop :=
  if lr_success r then is_Some (lr_link r) /\ lr_error r = None
  else lr_link r = None /\ is_Some (lr_error r).

Definition removeResultOk (r : RemoveResult) : Prop :=
  if removed r then remove_error r = None else is_Some (remove_error r).

(** The result of a sync either carries the outcomes of the
    deployment, and then succeeds exactly when all of them do, or is a
    failure with a message. *)
Definition syncResultOk (r : SyncResult) : Prop :=
  match sr_deployResults r with
  | Some results =>
      sr_success r = forallb success results /\ sr_error r = None /\
      is_Some (sr_link r)
  | None => sr_success r = false /\ is_Some (sr_error r)
  end.

Section Terms.
Context {W : Type} `{Deno W} `{Shell W}.

(** Whatever a computation returns satisfies [Q]. *)
Definition Post {A} (Q : A -> Prop) (m : M W A) : Prop :=
  forall s r s', m s = (Returned r, s') -> Q r.


(** The manifest [findSkillFile] looks for in the directory of an
    entry. *)
Definition manifestOf (base : jsstring) (entry : DirEntry) : jsstring :=
  path_join (path_join base (entryName entry)) (js "SKILL.md").

(** The entry is a directory in which the manifest is found. *)
Definition holdsSkill (base : jsstring) (s : State W) (entry : DirEntry) : bool :=
  entryIsDirectory entry &&
  match (exists_ (manifestOf base entry) s).1, manifestOf base entry with
  | Returned true, _ :: _ => true
  | _, _ => false
  end.

(** Every effect a computation adds to the record satisfies [P]. *)
Definition Adds (P : Effect -> Prop) {A} (m : M W A) : Prop :=
  forall s, exists new, effects (m s).2 = effects s ++ new /\ Forall P new.

(** Creating a directory, copying a file, writing a file. *)
Definition creating (e : Effect) : Prop :=
  match e with
  | EMkdir _ | ECopyFile _ _ | EWriteTextFile _ _ => True
  | _ => False
  end.

(** The state once the lines are printed, one after the other. *)
Definition logged (lines : list jsstring) (s : State W) : State W :=
  fold_left (fun s text => (console_log text s).2) lines s.

(** The targets the arguments of a command select, if they do. *)
Definition selected (args : Args) : option (list DeployTarget) :=
  if args_all args then Some [claude; codex; cursor]
  else
    match truthy_string (args_target args) with
    | Some target =>
        match asDeployTarget target with
        | Some target => Some [target]
        | None => None
        end
    | None => None
    end.

(** The options [commandDeploy] deploys with. *)
Definition deployOptions (args : Args) (targets : list DeployTarget) : DeployOptions :=
  {| targets := targets;
     force := args_force args;
     dryRun := args_dry_run args;
     projectPath := args_project_path args |}.

(** What [commandDeploy] prints before it deploys. *)
Definition deployNotice (dir : jsstring) (args : Args) (targets : list DeployTarget)
    : list jsstring :=
  [js "Validating skill: " ++ dir;
   [CHECK] ++ js " Validation passed" ++ [LF]] ++
  (if args_dry_run args
   then [js "(Dry run mode - no files will be written)" ++ [LF]]
   else []) ++
  [js "Deploying to: " ++ joinTargets targets ++ [LF]].

(** The status a command exits with for a list of outcomes. *)
Definition statusOf (results : list DeployResult) : nat :=
  if forallb success results then 0%nat else 1%nat.

(** Looking for the manifest of each directory entry does not fail. *)
Definition Probed (base : jsstring) (s : State W) (entries : list DirEntry) : Prop :=
  Forall (fun entry =>
            entryIsDirectory entry = true ->
            exists found, (exists_ (manifestOf base entry) s).1 = Returned found)
         entries.

End Terms.
End Terms.


(** ** Concrete inputs *)

Module Scenarios.
Import Sim.

(** A manifest named test-skill. *)
Definition skill_md : jsstring :=
  joinLines [js "---"; js "name: test-skill"; js "description: A test skill";
             js "---"; js ""; js "# Test Skill"; js ""].

(** A repository whose skill lives in the subdirectory skills/foo. *)
Definition repository : list (jsstring * Node) :=
  [(js "README.md", File (js "read me"));
   (js "skills", Folder);
   (js "skills/foo", Folder);
   (js "skills/foo/SKILL.md", File skill_md)].

Definition repository_url : jsstring := js "https://github.com/owner/repo.git".

(** A machine with the skill in /work/test-skill and nothing deployed. *)
Definition clean : World :=
  {| files := list_to_map
       [(js "/work", Folder);
        (js "/work/test-skill", Folder);
        (js "/work/test-skill/SKILL.md", File skill_md);
        (js "/home", Folder);
        (js "/home/u", Folder);
        (js "/tmp", Folder)];
     env := {[ js "HOME" := js "/home/u" ]};
     cwd := js "/work";
     temps := 0;
     remotes := {[ repository_url := repository ]} |}.

Definition options_for (ts : list DeployTarget) (force dryRun : bool)
    : DeployOptions :=
  {| targets := ts; force := force; dryRun := dryRun; projectPath := None |}.

Definition start (w : World) : State World := {| world := w; effects := [] |}.

(** The machine after test-skill was deployed to claude. *)
Definition deployed : World :=
  world (run (deploySkill (js "/work/test-skill")
                          (options_for [claude] false false)) clean).2.

(** The machine with a file .cursorrules in the working directory. *)
Definition with_cursorrules : World :=
  with_files clean (<[js ".cursorrules" := File (js "old rules")]> (files clean)).

Definition user_claude (force : bool) : LinkOptions :=
  {| lo_target := claude; lo_userLevel := None; lo_force := force |}.

Definition no_details : LinkDetails :=
  {| ld_type := None; ld_path := None; ld_branch := None;
     ld_description := None; ld_enabled := None |}.

Definition in_subdirectory : LinkDetails :=
  {| ld_type := None; ld_path := Some (js "skills/foo"); ld_branch := None;
     ld_description := None; ld_enabled := None |}.

(** The machine after the repository was linked under the name x, with
    the skill in its subdirectory. *)
Definition linked : World :=
  world (run (addLink (js "x") repository_url (user_claude false) in_subdirectory)
             clean).2.

(** The temporary directory the next [makeTempDir] hands out. *)
Definition next_temp : jsstring := js "/tmp/skill-link-0".

(** The link that was added, and the registry on disk after it. *)
Definition x_link : SkillLink :=
  {| link_name := js "x"; link_type := git; link_source := repository_url;
     link_path := Some (js "skills/foo"); link_branch := None;
     link_enabled := true; link_description := None |}.

Definition linked_registry : SkillLinkRegistry :=
  {| version := LINK_REGISTRY_VERSION; links := [x_link] |}.

(** The success flags of a list of outcomes. *)
Definition verdicts (r : outcome (list DeployResult)) : option (list bool) :=
  match r with
  | Returned results => Some (map success results)
  | Thrown _ => None
  end.




(** Headers with a good name and: an empty description; a numeric
    model; nothing wrong; no name. *)
Definition empty_description : Record :=
  {[ js "name" := VStr (js "a"); js "description" := VStr [] ]}.

Definition numeric_model : Record :=
  {[ js "name" := VStr (js "a"); js "description" := VStr (js "ok");
     js "model" := VNum 5%float ]}.

Definition good_header : Record :=
  {[ js "name" := VStr (js "test-skill");
     js "description" := VStr (js "A test skill");
     js "allowed-tools" := VArr [VStr (js "Read"); VStr (js "Grep")] ]}.

Definition nameless : Record :=
  {[ js "description" := VStr (js "A test skill") ]}.

(** A repository that is the skill itself, linked under the name y
    without a path. *)
Definition plain_url : jsstring := js "https://github.com/owner/skill.git".

Definition plain_machine : World :=
  {| files := files clean; env := env clean; cwd := cwd clean; temps := temps clean;
     remotes := {[ plain_url := [(js "SKILL.md", File skill_md)] ]} |}.

Definition y_link : SkillLink :=
  {| link_name := js "y"; link_type := git; link_source := plain_url;
     link_path := None; link_branch := None;
     link_enabled := true; link_description := None |}.

Definition linked_plain : World :=
  world (run (addLink (js "y") plain_url (user_claude false) no_details)
             plain_machine).2.

(** The manifest of /work/test-skill, parsed. *)
Definition test_skill : SkillFile :=
  {| metadata := HRecord {[ js "name" := VStr (js "test-skill");
                            js "description" := VStr (js "A test skill") ]};
     content := [LF] ++ js "# Test Skill" ++ [LF];
     raw := skill_md |}.

(** A manifest whose header has nothing in it, and a machine with it
    in /work/hollow. *)
Definition hollow_md : jsstring :=
  joinLines [js "---"; js "---"; js ""; js "# Hollow"; js ""].

Definition hollow : World :=
  with_files clean
    (<[js "/work/hollow" := Folder]>
       (<[js "/work/hollow/SKILL.md" := File hollow_md]> (files clean))).

End Scenarios.

(** ** Further concrete inputs *)

Module Installed.
Import Sim Scenarios Importer.

(** A machine with two skills deployed to claude, next to a directory
    that holds no manifest and a file. *)
Definition installed : World :=
  with_files clean (list_to_map
    [(js "/home", Folder);
     (js "/home/u", Folder);
     (js "/home/u/.claude", Folder);
     (js "/home/u/.claude/skills", Folder);
     (js "/home/u/.claude/skills/skill2", Folder);
     (js "/home/u/.claude/skills/skill2/SKILL.md", File skill_md);
     (js "/home/u/.claude/skills/skill1", Folder);
     (js "/home/u/.claude/skills/skill1/SKILL.md", File skill_md);
     (js "/home/u/.claude/skills/not-a-skill", Folder);
     (js "/home/u/.claude/skills/notes", File (js "notes"));
     (js "/tmp", Folder)]).

Definition skills_directory : jsstring := js "/home/u/.claude/skills".

(** The entries of that directory, as the host lists them. *)
Definition skills_entries : list DirEntry :=
  match readDir skills_directory installed with
  | Returned entries => entries
  | Thrown _ => []
  end.

(** A machine whose registry file for claude is not a registry. *)
Definition damaged : World :=
  with_files clean
    (<[js "/home/u/.claude/skill-links.json" := File (js "not a registry")]>
       (files clean)).

(** The error reading that file ends with. *)
Definition damaged_error : Error := newError (js "Unexpected token in JSON").

(** Importing into /work/skills, with the defaults otherwise. *)
Definition import_options (force dryRun : bool) : ImportOptions :=
  {| io_branch := None; io_skillsPath := None; io_force := force;
     io_dryRun := dryRun; io_targetDir := Some (js "/work/skills") |}.

(** The temporary directory the next import gets, and the world once
    the host has made it. *)
Definition import_temp : jsstring := js "/tmp/skill-import-0".

Definition import_started : World :=
  (makeTempDir (js "skill-import-") clean).2.

(** What the registry holds once x is disabled. *)
Definition x_disabled : SkillLink := setEnabled false x_link.

(** A machine on which the home directory is not known, and one
    where .cursorrules is a directory that is not empty. *)
Definition homeless : World :=
  {| files := files clean; env := ∅; cwd := cwd clean; temps := temps clean;
     remotes := remotes clean |}.

Definition blocked : World :=
  with_files clean
    (<[js ".cursorrules" := Folder]>
       (<[js ".cursorrules/notes" := File (js "notes")]> (files clean))).

(** A repository with three skills, the second with nothing in its
    header, and a machine that can fetch it and has the third
    already. *)
Definition pack : list (jsstring * Node) :=
  [(js "skills", Folder);
   (js "skills/alpha", Folder);
   (js "skills/alpha/SKILL.md", File skill_md);
   (js "skills/beta", Folder);
   (js "skills/beta/SKILL.md", File hollow_md);
   (js "skills/gamma", Folder);
   (js "skills/gamma/SKILL.md", File skill_md)].

Definition pack_machine : World :=
  {| files := <[js "/work/skills" := Folder]>
                (<[js "/work/skills/gamma" := Folder]> (files clean));
     env := env clean; cwd := cwd clean; temps := temps clean;
     remotes := {[ js "https://github.com/owner/pack.git" := pack ]} |}.

(** Command lines: no target, and a dry run for claude. *)
Definition no_target : Main.Args :=
  {| Main.args_all := false; Main.args_target := None; Main.args_force := false;
     Main.args_dry_run := false; Main.args_project_path := None |}.

Definition dry_claude : Main.Args :=
  {| Main.args_all := false; Main.args_target := Some (js "claude");
     Main.args_force := false; Main.args_dry_run := true;
     Main.args_project_path := None |}.

End Installed.

(** * Proofs *)

(** ** Running computations *)

Module MonadFacts.
Section MonadFacts.
Context {W : Type} `{Deno W}.

Lemma ReadOnly_ret {A} (a : A) : ReadOnly (W:=W) (ret a).
Proof. by intros s. Qed.

Lemma ReadOnly_throw {A} e : ReadOnly (W:=W) (A:=A) (throw e).
Proof. by intros s. Qed.

Lemma ReadOnly_reading {A} (f : W -> outcome A) : ReadOnly (reading f).
Proof. by intros s. Qed.

Lemma ReadOnly_lift {A} (r : outcome A) : ReadOnly (W:=W) (lift r).
Proof. by intros s. Qed.

Lemma ReadOnly_bind {A B} (m : M W A) (k : A -> M W B) :
  ReadOnly m -> (forall a, ReadOnly (k a)) -> ReadOnly (bind m k).
Proof.
  intros Hm Hk s. unfold bind. specialize (Hm s).
  destruct (m s) as [[a|e] s1]; simpl in Hm; subst s1; [apply Hk | done].
Qed.

Lemma ReadOnly_try_catch {A} (m : M W A) (h : Error -> M W A) :
  ReadOnly m -> (forall e, ReadOnly (h e)) -> ReadOnly (try_catch m h).
Proof.
  intros Hm Hh s. unfold try_catch. specialize (Hm s).
  destruct (m s) as [[a|e] s1]; simpl in Hm; subst s1; [done | apply Hh].
Qed.

Lemma bind_ReadOnly {A B} (m : M W A) (k : A -> M W B) s :
  ReadOnly m ->
  bind m k s = match (m s).1 with
               | Returned a => k a s
               | Thrown e => (Thrown e, s)
               end.
Proof.
  intros Hm. unfold bind. specialize (Hm s).
  destruct (m s) as [[a|e] s1]; simpl in *; by subst.
Qed.

Lemma or_continue_ReadOnly {A} (m : M W (option A)) (rest : M W A) s :
  ReadOnly m ->
  or_continue m rest s = match (m s).1 with
                         | Returned (Some r) => (Returned r, s)
                         | Returned None => rest s
                         | Thrown e => (Thrown e, s)
                         end.
Proof.
  intros Hm. unfold or_continue. rewrite bind_ReadOnly by done.
  by destruct ((m s).1) as [[r|]|e].
Qed.

Lemma bind_assoc {A B C} (m : M W A) (f : A -> M W B) (g : B -> M W C) s :
  bind (bind m f) g s = bind m (fun a => bind (f a) g) s.
Proof. unfold bind. by destruct (m s) as [[a|e] s1]. Qed.

Lemma or_continue_bind {A B} (m : M W A) (f : A -> M W (option B)) rest s :
  or_continue (bind m f) rest s = bind m (fun a => or_continue (f a) rest) s.
Proof. apply bind_assoc. Qed.

Lemma ReadOnly_or_continue {A} (m : M W (option A)) (rest : M W A) :
  ReadOnly m -> ReadOnly rest -> ReadOnly (or_continue m rest).
Proof.
  intros Hm Hrest. apply ReadOnly_bind; [done|].
  intros [r|]; [apply ReadOnly_ret | done].
Qed.

(** What a read-only computation returns determines its whole run. *)
Lemma ReadOnly_run {A} (m : M W A) s : ReadOnly m -> m s = ((m s).1, s).
Proof. intros Hm. specialize (Hm s). destruct (m s); simpl in *; by subst. Qed.

End MonadFacts.
End MonadFacts.
Export MonadFacts.

Create HintDb readonly.

Ltac read_only :=
  repeat first
    [ progress intros
    | apply ReadOnly_ret | apply ReadOnly_throw | apply ReadOnly_reading
    | apply ReadOnly_lift | apply ReadOnly_bind | apply ReadOnly_try_catch
    | apply ReadOnly_or_continue
    | match goal with
      | |- ReadOnly (if ?b then _ else _) => destruct b
      | |- ReadOnly (match ?x with _ => _ end) => destruct x
      end
    | solve [eauto with readonly] ].



Module ReadFacts.
Section ReadFacts.
Context {W : Type} `{Deno W}.

Lemma expandHome_ReadOnly filepath : ReadOnly (expandHome filepath).
Proof. unfold expandHome. read_only. Qed.

Lemma join_unchecked_ReadOnly base name : ReadOnly (join_unchecked base name).
Proof. unfold join_unchecked. read_only. Qed.

Lemma exists_ReadOnly p : ReadOnly (exists_ p).
Proof. unfold exists_. read_only. Qed.

Lemma readTextFile_ReadOnly p : ReadOnly (readTextFile p).
Proof. unfold readTextFile. read_only. Qed.

#[local] Hint Resolve expandHome_ReadOnly join_unchecked_ReadOnly exists_ReadOnly readTextFile_ReadOnly : readonly.

Lemma parseSkillFile_ReadOnly p : ReadOnly (parseSkillFile p).
Proof. unfold parseSkillFile. read_only. Qed.
#[local] Hint Resolve parseSkillFile_ReadOnly : readonly.

Lemma validateSkillFile_ReadOnly p : ReadOnly (validateSkillFile p).
Proof. unfold validateSkillFile. read_only. Qed.
#[local] Hint Resolve validateSkillFile_ReadOnly : readonly.

Lemma validateSkillDir_ReadOnly p : ReadOnly (validateSkillDir p).
Proof. unfold validateSkillDir. read_only. Qed.
#[local] Hint Resolve validateSkillDir_ReadOnly : readonly.

Lemma getLinkRegistryPath_ReadOnly t u : ReadOnly (getLinkRegistryPath t u).
Proof. unfold getLinkRegistryPath. read_only. Qed.
#[local] Hint Resolve getLinkRegistryPath_ReadOnly : readonly.

Lemma readLinkRegistry_ReadOnly t u : ReadOnly (readLinkRegistry t u).
Proof. unfold readLinkRegistry. read_only. Qed.
#[local] Hint Resolve readLinkRegistry_ReadOnly : readonly.

Lemma validateLink_ReadOnly l : ReadOnly (validateLink l).
Proof. unfold validateLink. read_only. Qed.

Lemma destination_ReadOnly n t : ReadOnly (destination n t).
Proof. unfold destination. read_only. Qed.

End ReadFacts.
End ReadFacts.
Export ReadFacts.

#[global] Hint Resolve expandHome_ReadOnly join_unchecked_ReadOnly exists_ReadOnly
  readTextFile_ReadOnly parseSkillFile_ReadOnly validateSkillFile_ReadOnly
  validateSkillDir_ReadOnly getLinkRegistryPath_ReadOnly readLinkRegistry_ReadOnly
  validateLink_ReadOnly destination_ReadOnly : readonly.

Module DeployFacts.
Section DeployFacts.
Context {W : Type} `{Deno W}.

Lemma try_catch_Total {A} (m : M W A) (h : Error -> M W A) :
  (forall e, Total (h e)) -> Total (try_catch m h).
Proof.
  intros Hh s. unfold try_catch.
  destruct (m s) as [[a|e] s1]; [by exists a | apply Hh].
Qed.

Lemma ret_Total {A} (a : A) : Total (W:=W) (ret a).
Proof. intros s. by exists a. Qed.

Lemma deployTarget_Total skillDir skillName options target :
  Total (deployTarget skillDir skillName options target).
Proof.
  destruct target; apply try_catch_Total; intros; apply ret_Total.
Qed.

Lemma deployTarget_dryRun_ReadOnly skillDir skillName options target :
  ReadOnly (deployTarget skillDir skillName (setDryRun true options) target).
Proof.
  destruct target; simpl;
    unfold deployToClaudeOrCodex, deployToCursor; simpl; read_only.
Qed.

Lemma deploySkill_loop_dryRun skillDir skillName options todo acc s :
  exists results,
    deploySkill_loop skillDir skillName (setDryRun true options) todo acc s
      = (Returned (acc ++ results), s) /\
    Forall2 (fun target result =>
               deployTarget skillDir skillName (setDryRun true options) target s
                 = (Returned result, s)) todo results.
Proof.
  revert acc. induction todo as [|target rest IH]; intros acc; simpl.
  - exists []. by rewrite app_nil_r.
  - rewrite bind_ReadOnly by apply deployTarget_dryRun_ReadOnly.
    destruct (deployTarget_Total skillDir skillName (setDryRun true options) target s)
      as [r Hr].
    rewrite Hr. destruct (IH (push acc r)) as (rs & Hrs & Hall).
    exists (r :: rs). split.
    + rewrite Hrs. unfold push. by rewrite <- app_assoc.
    + constructor; [|done].
      rewrite (ReadOnly_run _ s (deployTarget_dryRun_ReadOnly _ _ _ _)).
      by rewrite Hr.
Qed.

End DeployFacts.
End DeployFacts.
Export DeployFacts.

Ltac break_hyp :=
  match goal with
  | H : context [match ?x with _ => _ end] |- _ => destruct x eqn:?; simpl in H
  end.

Ltac inv_pairs :=
  unfold ret, throw, lift in *;
  repeat match goal with
    | H : (_, _) = (_, _) |- _ => inversion H; subst; clear H
    | H : Returned _ = Returned _ |- _ => inversion H; subst; clear H
    | H : Returned _ = Thrown _ |- _ => discriminate H
    | H : Thrown _ = Returned _ |- _ => discriminate H
    end.

Module StringFacts.

Lemma startsWith_app s t p : startsWith s p = true -> startsWith (s ++ t) p = true.
Proof.
  revert s. induction p as [|c p IH]; intros [|d s]; simpl; try done.
  intros [Hc Hs]%andb_prop. by rewrite Hc, IH.
Qed.


Lemma includes_app_r s t p : includes t p = true -> includes (s ++ t) p = true.
Proof.
  intros Ht. induction s as [|d s IH]; simpl; [done|].
  rewrite IH. apply orb_true_r.
Qed.

End StringFacts.
Export StringFacts.

Module Overwrite.
Section Overwrite.
Context {W : Type} `{Deno W}.


(** A header whose name can be read is a record, and converts. *)
Lemma prop_of_returned metadata key v :
  prop_of metadata key = Returned v ->
  exists fields, metadata = HRecord fields /\ v = prop fields key.
Proof. destruct metadata as [| |fields]; [done..|]. intros [= <-]. by exists fields. Qed.

Lemma convertToCursorRules_returns skill key v :
  prop_of (metadata skill) key = Returned v ->
  exists rules, convertToCursorRules skill = Returned rules.
Proof.
  intros (fields & Hfields & _)%prop_of_returned.
  unfold convertToCursorRules. rewrite Hfields. by eexists.
Qed.

Lemma deployTarget_guard skillDir skillName options target s targetPath :
  force options = false ->
  (destination skillName target s).1 = Returned targetPath ->
  (exists_ targetPath s).1 = Returned true ->
  (target = cursor ->
   exists skill,
     (parseSkillFile (path_join skillDir (js "SKILL.md")) s).1 = Returned skill /\
     prop_of (metadata skill) (js "name") = Returned skillName) ->
  deployTarget skillDir skillName options target s
    = (Returned (deployFailure target (alreadyExistsMessage target targetPath)), s).
Proof.
  intros Hforce Hdest Hex Hparse.
  unfold destination in Hdest.
  destruct target; simpl in *.
  1,2: unfold deployToClaudeOrCodex, try_catch;
       rewrite bind_ReadOnly in Hdest by eauto with readonly;
       rewrite !(bind_ReadOnly (expandHome _)) by eauto with readonly;
       destruct ((expandHome _ s).1) as [expandedBase|e]; [|done];
       rewrite !(bind_ReadOnly (join_unchecked _ _)) by eauto with readonly;
       rewrite Hdest;
       rewrite or_continue_bind, !(bind_ReadOnly (exists_ _)) by eauto with readonly;
       rewrite Hex, Hforce; done.
  destruct Hparse as (skill & Hskill & Hname); [done|].
  destruct (convertToCursorRules_returns _ _ _ Hname) as [rules Hrules].
  inv_pairs. unfold deployToCursor, try_catch.
  rewrite !(bind_ReadOnly (parseSkillFile _)) by eauto with readonly.
  rewrite Hskill, Hrules. unfold bind at 1, lift at 1.
  rewrite or_continue_bind, !(bind_ReadOnly (exists_ _)) by eauto with readonly.
  by rewrite Hex, Hforce.
Qed.


(** When every destination is there and [force] is not set, a whole
    call of [deploySkill] changes nothing and returns one such failure
    per target. *)
Lemma deploySkill_refuses_overwrite skillDir options s skill name :
  force options = false ->
  (parseSkillFile (path_join skillDir (js "SKILL.md")) s).1 = Returned skill ->
  prop_of (metadata skill) (js "name") = Returned name ->
  Forall (fun target => exists targetPath,
            (destination name target s).1 = Returned targetPath /\
            (exists_ targetPath s).1 = Returned true) (targets options) ->
  exists results,
    deploySkill skillDir options s = (Returned results, s) /\
    Forall2 (fun target result =>
               success result = false /\ path result = None /\
               exists targetPath,
                 error result = Some (alreadyExistsMessage target targetPath))
            (targets options) results.
Proof.
  intros Hforce Hskill Hname Hall. unfold deploySkill.
  rewrite bind_ReadOnly by eauto with readonly. rewrite Hskill.
  unfold bind at 1, lift at 1. rewrite Hname.
  cut (forall acc, exists results,
         deploySkill_loop skillDir name options (targets options) acc s
           = (Returned (acc ++ results), s) /\
         Forall2 (fun target result =>
                    success result = false /\ path result = None /\
                    exists targetPath,
                      error result = Some (alreadyExistsMessage target targetPath))
                 (targets options) results).
  { intros Hcut. destruct (Hcut []) as (rs & Hrs & HF). by exists rs. }
  induction Hall as [|target rest (targetPath & Hdest & Hex) _ IH]; intros acc; simpl.
  - exists []. by rewrite app_nil_r.
  - pose proof (deployTarget_guard skillDir name options target s targetPath
                  Hforce Hdest Hex) as Hrun.
    unfold bind. rewrite Hrun by (intros ->; by exists skill).
    destruct (IH (push acc (deployFailure target (alreadyExistsMessage target targetPath))))
      as (rs & Hrs & HF).
    eexists (_ :: rs). split.
    + rewrite Hrs. unfold push. by rewrite <- app_assoc.
    + constructor; [|done]. simpl. eauto.
Qed.

End Overwrite.
End Overwrite.
Export Overwrite.

Module ProjectPath.
Section ProjectPath.
Context {W : Type} `{Deno W}.

Lemma deployTarget_ignores_projectPath skillDir skillName options projectPath target :
  deployTarget skillDir skillName (setProjectPath projectPath options) target
    = deployTarget skillDir skillName options target.
Proof. by destruct target. Qed.

Lemma deploySkill_loop_ignores_projectPath skillDir skillName options projectPath
    todo acc s :
  deploySkill_loop skillDir skillName (setProjectPath projectPath options) todo acc s
    = deploySkill_loop skillDir skillName options todo acc s.
Proof.
  revert acc s. induction todo as [|target rest IH]; intros acc s; simpl; [done|].
  unfold bind. rewrite deployTarget_ignores_projectPath.
  destruct (deployTarget skillDir skillName options target s) as [[r|e] s1]; [|done].
  apply IH.
Qed.

(** The deployment does not read [projectPath]: with or without it
    the targets claude and codex resolve to the user-level directory,
    and cursor to its single project-level file. *)
Lemma deploySkill_ignores_projectPath skillDir options projectPath s :
  deploySkill skillDir (setProjectPath projectPath options) s
    = deploySkill skillDir options s /\
  forall skillName target,
    destination skillName target s
      = match target with
        | claude => base <- expandHome TARGET_PATHS.claude.user ;;
                    join_unchecked base skillName
        | codex => base <- expandHome TARGET_PATHS.codex.user ;;
                   join_unchecked base skillName
        | cursor => ret TARGET_PATHS.cursor.project
        end s.
Proof.
  split; [|by intros skillName []].
  unfold deploySkill, bind.
  destruct (parseSkillFile _ s) as [[skill|e] s1]; [|done].
  destruct (lift _ s1) as [[skillName|e] s2]; [|done].
  apply deploySkill_loop_ignores_projectPath.
Qed.

End ProjectPath.
End ProjectPath.
Export ProjectPath.

Module Removal.
Section Removal.
Context {W : Type} `{Deno W}.

(** C6 (amended).  On claude and codex [removeSkill] deletes the
    per-skill directory when it is there and reports success, and
    reports "Skill not found" when it is not.  On cursor the name is
    ignored; the single file is deleted when it is there, and when it
    is not there the call still reports success and touches
    nothing. *)
Theorem removeSkill_outcomes skillName s :
  (forall otherName,
     removeSkill skillName cursor s = removeSkill otherName cursor s) /\
  ((exists_ TARGET_PATHS.cursor.project s).1 = Returned false ->
   removeSkill skillName cursor s
     = (Returned {| removed := true; remove_error := None |}, s)) /\
  (forall w',
     (exists_ TARGET_PATHS.cursor.project s).1 = Returned true ->
     Deno_remove TARGET_PATHS.cursor.project false (world s) = (Returned tt, w') ->
     removeSkill skillName cursor s
       = (Returned {| removed := true; remove_error := None |},
          {| world := w';
             effects := effects s ++ [ERemove TARGET_PATHS.cursor.project false] |})) /\
  (forall target base,
     target <> cursor ->
     (expandHome (getTargetPath target true) s).1 = Returned base ->
     let targetPath := path_join base skillName in
     ((exists_ targetPath s).1 = Returned false ->
      removeSkill skillName target s
        = (Returned {| removed := false;
                       remove_error := Some (js "Skill not found: " ++ targetPath) |},
           s)) /\
     (forall w',
        (exists_ targetPath s).1 = Returned true ->
        Deno_remove targetPath true (world s) = (Returned tt, w') ->
        removeSkill skillName target s
          = (Returned {| removed := true; remove_error := None |},
             {| world := w'; effects := effects s ++ [ERemove targetPath true] |}))).
Proof.
  split; [done|]. split; [|split].
  - intros Hex. unfold removeSkill, try_catch.
    rewrite or_continue_bind, bind_ReadOnly by eauto with readonly.
    by rewrite Hex.
  - intros w' Hex Hrm. unfold removeSkill, try_catch.
    rewrite or_continue_bind, bind_ReadOnly by eauto with readonly. rewrite Hex.
    unfold or_continue, bind, acting. by rewrite Hrm.
  - intros target base Hne Hbase targetPath.
    assert (removeSkill skillName target s
            = try_catch
                (or_continue
                   (present <- exists_ targetPath ;;
                    if present then
                      do acting (ERemove targetPath true)
                                (Deno_remove targetPath true) ;;
                      ret None
                    else ret (Some {| removed := false;
                                      remove_error :=
                                        Some (js "Skill not found: " ++ targetPath) |}))
                   (ret {| removed := true; remove_error := None |}))
                (fun error => ret {| removed := false;
                                     remove_error := Some (errorMessage error) |}) s)
      as ->.
    { destruct target; [| |done]; unfold removeSkill, try_catch;
        rewrite or_continue_bind, (bind_ReadOnly (expandHome _))
          by eauto with readonly;
        by rewrite Hbase. }
    unfold try_catch.
    rewrite or_continue_bind, bind_ReadOnly by eauto with readonly.
    split.
    + intros Hex. by rewrite Hex.
    + intros w' Hex Hrm. rewrite Hex. unfold or_continue, bind, acting.
      by rewrite Hrm.
Qed.

End Removal.
End Removal.
Export Removal.

Module Conversion.
Section Conversion.
Context {W : Type} `{Deno W}.

Lemma trimStart_split s :
  exists before, s = before ++ trimStart s /\ forallb isWhiteSpace before = true.
Proof.
  induction s as [|c s (before & Hs & Hws)]; simpl.
  - by exists [].
  - destruct (isWhiteSpace c) eqn:Hc.
    + exists (c :: before). simpl. rewrite Hc, Hws. by rewrite <- Hs.
    + by exists [].
Qed.

Lemma trimEnd_split s :
  exists after, s = trimEnd s ++ after /\ forallb isWhiteSpace after = true.
Proof.
  unfold trimEnd. destruct (trimStart_split (rev s)) as (before & Hs & Hws).
  exists (rev before). split.
  - rewrite <- rev_app_distr, <- Hs. by rewrite rev_involutive.
  - rewrite forallb_forall in *. intros x Hx. apply Hws. by apply in_rev.
Qed.





End Conversion.
End Conversion.
Export Conversion.

(** ** The validator *)

Module ValidatorFacts.

Lemma validateMetadata_blocks m :
  validateMetadata m
    = arrayBlock (js "skills") (prop m (js "skills"))
        (modelBlock (prop m (js "model"))
           (arrayBlock (js "allowed-tools") (prop m (js "allowed-tools"))
              (descriptionBlock (prop m (js "description"))
                 (nameBlock (prop m (js "name")) [])))).
Proof. reflexivity. Qed.

Lemma forEach_string_check_app fld items index acc :
  forEach_string_check fld items index acc
    = acc ++ forEach_string_check fld items index [].
Proof.
  revert index acc. induction items as [|item rest IH]; intros index acc; simpl.
  - by rewrite app_nil_r.
  - rewrite IH. rewrite (IH _ (if negb (isString item) then _ else _)).
    destruct (isString item); simpl; unfold push; by rewrite <- ?app_assoc.
Qed.

Lemma elem_of_forEach_string_check fld items index e :
  e ∈ forEach_string_check fld items index [] <->
  exists i item, items !! i = Some item /\ isString item = false /\
                 e = mkError fld (itemMessage (index + i)).
Proof.
  revert index. induction items as [|item rest IH]; intros index; simpl.
  - split; [by intros ?%elem_of_nil | by intros (i & x & ? & _)].
  - rewrite forEach_string_check_app, elem_of_app, IH. split.
    + intros [He|(i & x & Hi & Hx & ->)].
      * destruct (isString item) eqn:Hs; simpl in He.
        { by apply elem_of_nil in He. }
        apply list_elem_of_singleton in He as ->.
        exists O, item. by rewrite Nat.add_0_r.
      * exists (S i), x. split; [done|]. split; [done|].
        by rewrite Nat.add_succ_r.
    + intros ([|i] & x & Hi & Hx & ->); simpl in Hi.
      * injection Hi as ->. left. rewrite Hx. simpl.
        rewrite Nat.add_0_r. apply list_elem_of_singleton. reflexivity.
      * right. exists i, x. split; [done|]. split; [done|].
        by rewrite Nat.add_succ_r.
Qed.

Lemma nameBlock_app v acc : nameBlock v acc = acc ++ nameBlock v [].
Proof.
  unfold nameBlock, push.
  destruct (negb (truthy v)); [done|].
  destruct v; try done.
  destruct (_ <? _)%nat, (hasNewline s), (negb (nameRegex_test s)); simpl;
    by rewrite <- ?app_assoc, ?app_nil_r.
Qed.

Lemma descriptionBlock_app v acc :
  descriptionBlock v acc = acc ++ descriptionBlock v [].
Proof.
  unfold descriptionBlock, push.
  destruct (negb (truthy v)); [done|].
  destruct v; try done.
  destruct (_ <? _)%nat, (hasNewline s); simpl;
    by rewrite <- ?app_assoc, ?app_nil_r.
Qed.

Lemma arrayBlock_app fld v acc : arrayBlock fld v acc = acc ++ arrayBlock fld v [].
Proof.
  unfold arrayBlock, push. destruct v; try done.
  - by rewrite app_nil_r.
  - apply forEach_string_check_app.
Qed.

Lemma modelBlock_app v acc : modelBlock v acc = acc ++ modelBlock v [].
Proof.
  unfold modelBlock, push. destruct (_ && _); [done|by rewrite app_nil_r].
Qed.

(** The result is the concatenation of what each field contributes. *)
Lemma validateMetadata_app m :
  validateMetadata m
    = nameBlock (prop m (js "name")) [] ++
      descriptionBlock (prop m (js "description")) [] ++
      arrayBlock (js "allowed-tools") (prop m (js "allowed-tools")) [] ++
      modelBlock (prop m (js "model")) [] ++
      arrayBlock (js "skills") (prop m (js "skills")) [].
Proof.
  rewrite validateMetadata_blocks.
  rewrite arrayBlock_app, modelBlock_app, (arrayBlock_app (js "allowed-tools")),
    descriptionBlock_app.
  by rewrite <- !app_assoc.
Qed.


Ltac elem_cases H :=
  unfold push in H; simpl in H;
  repeat (apply elem_of_cons in H as [->|H]);
  try (by apply elem_of_nil in H).

Lemma truthy_VStr s : truthy (VStr s) = true -> s <> [].
Proof. by destruct s. Qed.

Lemma nameBlock_sound m e :
  e ∈ nameBlock (prop m (js "name")) [] -> Violation m e.
Proof.
  unfold nameBlock. destruct (truthy (prop m (js "name"))) eqn:Ht; simpl.
  - destruct (prop m (js "name")) eqn:Hv;
      try (intros He; elem_cases He; by apply name_not_string; rewrite ?Hv).
    apply truthy_VStr in Ht.
    destruct (_ <? _)%nat eqn:Hlen, (hasNewline s) eqn:Hnl,
      (nameRegex_test s) eqn:Hre; simpl; intros He; elem_cases He;
      first [ by eapply name_too_long; [done..|apply Nat.ltb_lt]
            | by eapply name_multiline
            | by eapply name_format ].
  - intros He; elem_cases He. by apply name_missing.
Qed.

Lemma descriptionBlock_sound m e :
  e ∈ descriptionBlock (prop m (js "description")) [] -> Violation m e.
Proof.
  unfold descriptionBlock.
  destruct (truthy (prop m (js "description"))) eqn:Ht; simpl.
  - destruct (prop m (js "description")) eqn:Hv;
      try (intros He; elem_cases He; by apply description_not_string; rewrite ?Hv).
    apply truthy_VStr in Ht.
    destruct (_ <? _)%nat eqn:Hlen, (hasNewline s) eqn:Hnl; simpl;
      intros He; elem_cases He;
      first [ by eapply description_too_long; [done..|apply Nat.ltb_lt]
            | by eapply description_multiline ].
  - intros He; elem_cases He. by apply description_missing.
Qed.

Lemma modelBlock_sound m e :
  e ∈ modelBlock (prop m (js "model")) [] -> Violation m e.
Proof.
  unfold modelBlock.
  destruct (isUndefined (prop m (js "model"))) eqn:Hu,
    (isString (prop m (js "model"))) eqn:Hs; simpl;
    intros He; elem_cases He.
  apply model_not_string; [|done]. intros Hv. by rewrite Hv in Hu.
Qed.

Lemma toolsBlock_sound m e :
  e ∈ arrayBlock (js "allowed-tools") (prop m (js "allowed-tools")) [] ->
  Violation m e.
Proof.
  unfold arrayBlock. destruct (prop m (js "allowed-tools")) eqn:Hv;
    try (intros He; elem_cases He; apply tools_not_array; by rewrite Hv).
  intros (i & item & Hi & Hs & ->)%elem_of_forEach_string_check.
  by eapply tools_item.
Qed.

Lemma skillsBlock_sound m e :
  e ∈ arrayBlock (js "skills") (prop m (js "skills")) [] -> Violation m e.
Proof.
  unfold arrayBlock. destruct (prop m (js "skills")) eqn:Hv;
    try (intros He; elem_cases He; apply skills_not_array; by rewrite Hv).
  intros (i & item & Hi & Hs & ->)%elem_of_forEach_string_check.
  by eapply skills_item.
Qed.

Lemma arrayBlock_not_array fld v :
  v <> VUndefined -> (forall items, v <> VArr items) ->
  mkError fld (js "Must be an array") ∈ arrayBlock fld v [].
Proof.
  intros Hu Ha. destruct v; simpl; try (apply list_elem_of_singleton; reflexivity).
  - done.
  - by destruct (Ha items).
Qed.

Lemma arrayBlock_item fld items index item :
  items !! index = Some item -> isString item = false ->
  mkError fld (itemMessage index) ∈ arrayBlock fld (VArr items) [].
Proof.
  intros Hi Hs. simpl. apply elem_of_forEach_string_check. by exists index, item.
Qed.

Lemma truthy_VStr_true s : s <> [] -> truthy (VStr s) = true.
Proof. by destruct s. Qed.

Lemma hasNewline_nonempty s : hasNewline s = true -> s <> [].
Proof. by destruct s. Qed.

Ltac enter_string_branch Hv Hne :=
  rewrite Hv, (truthy_VStr_true _ Hne); cbn [negb]; cbv iota; unfold push.

Lemma Violation_complete m e : Violation m e -> e ∈ validateMetadata m.
Proof.
  rewrite validateMetadata_app, !elem_of_app.
  destruct 1 as [Ht|Ht Hs|s Hv Hne Hlen|s Hv Hnl|s Hv Hne Hre
                |Ht|Ht Hs|s Hv Hne Hlen|s Hv Hnl
                |Hu Ha|items i item Hv Hi Hs|Hu Hs|Hu Ha|items i item Hv Hi Hs].
  - left. unfold nameBlock. rewrite Ht. apply list_elem_of_singleton. reflexivity.
  - left. unfold nameBlock. rewrite Ht. simpl.
    destruct (prop m (js "name")); try done; apply list_elem_of_singleton; reflexivity.
  - left. unfold nameBlock. enter_string_branch Hv Hne.
    apply Nat.ltb_lt in Hlen. rewrite Hlen.
    destruct (hasNewline s), (negb (nameRegex_test s)); set_solver.
  - left. unfold nameBlock. pose proof (hasNewline_nonempty s Hnl) as Hne.
    enter_string_branch Hv Hne. rewrite Hnl.
    destruct (_ <? _)%nat, (negb (nameRegex_test s)); set_solver.
  - left. unfold nameBlock. enter_string_branch Hv Hne. rewrite Hre.
    destruct (_ <? _)%nat, (hasNewline s); set_solver.
  - right; left. unfold descriptionBlock. rewrite Ht.
    apply list_elem_of_singleton. reflexivity.
  - right; left. unfold descriptionBlock. rewrite Ht. simpl.
    destruct (prop m (js "description")); try done;
      apply list_elem_of_singleton; reflexivity.
  - right; left. unfold descriptionBlock. enter_string_branch Hv Hne.
    apply Nat.ltb_lt in Hlen. rewrite Hlen.
    destruct (hasNewline s); set_solver.
  - right; left. unfold descriptionBlock.
    pose proof (hasNewline_nonempty s Hnl) as Hne.
    enter_string_branch Hv Hne. rewrite Hnl.
    destruct (_ <? _)%nat; set_solver.
  - right; right; left. by apply arrayBlock_not_array.
  - right; right; left. rewrite Hv. by eapply arrayBlock_item.
  - right; right; right; left. unfold modelBlock. rewrite Hs.
    destruct (prop m (js "model")); try done; apply list_elem_of_singleton; reflexivity.
  - right; right; right; right. by apply arrayBlock_not_array.
  - right; right; right; right. rewrite Hv. by eapply arrayBlock_item.
Qed.

Lemma Violation_sound m e : e ∈ validateMetadata m -> Violation m e.
Proof.
  rewrite validateMetadata_app, !elem_of_app.
  intros [?|[?|[?|[?|?]]]];
    eauto using nameBlock_sound, descriptionBlock_sound, toolsBlock_sound,
      modelBlock_sound, skillsBlock_sound.
Qed.


Lemma filter_all {A} (P : A -> Prop) `{forall x, Decision (P x)} (l : list A) :
  Forall P l -> filter P l = l.
Proof.
  induction 1 as [|x l Hx _ IH]; [done|].
  rewrite filter_cons. destruct (decide (P x)); [by rewrite IH|done].
Qed.

Lemma filter_none {A} (P : A -> Prop) `{forall x, Decision (P x)} (l : list A) :
  Forall (fun x => ~ P x) l -> filter P l = [].
Proof.
  induction 1 as [|x l Hx _ IH]; [done|].
  rewrite filter_cons. by destruct (decide (P x)).
Qed.

Lemma nameBlock_field v :
  Forall (fun e => field e = js "name") (nameBlock v []).
Proof.
  unfold nameBlock, push. destruct (negb (truthy v)); [by repeat constructor|].
  destruct v; try by repeat constructor.
  destruct (_ <? _)%nat, (hasNewline s), (negb (nameRegex_test s));
    by repeat constructor.
Qed.

Lemma descriptionBlock_field v :
  Forall (fun e => field e = js "description") (descriptionBlock v []).
Proof.
  unfold descriptionBlock, push.
  destruct (negb (truthy v)); [by repeat constructor|].
  destruct v; try by repeat constructor.
  destruct (_ <? _)%nat, (hasNewline s); by repeat constructor.
Qed.

Lemma arrayBlock_field fld v :
  Forall (fun e => field e = fld) (arrayBlock fld v []).
Proof.
  apply Forall_forall. intros e He.
  destruct v; simpl in He; try (elem_cases He; done).
  by apply elem_of_forEach_string_check in He as (i & item & _ & _ & ->).
Qed.

Lemma modelBlock_field v :
  Forall (fun e => field e = js "model") (modelBlock v []).
Proof.
  unfold modelBlock, push. destruct (_ && _); by repeat constructor.
Qed.

Ltac other_field :=
  eapply Forall_impl;
  [ first [ apply nameBlock_field | apply descriptionBlock_field
          | apply arrayBlock_field | apply modelBlock_field ]
  | let e := fresh in let H1 := fresh in let H2 := fresh in
    intros e H1 H2; rewrite H1 in H2; vm_compute in H2; discriminate H2 ].

Ltac this_field :=
  first [ apply nameBlock_field | apply descriptionBlock_field
        | apply arrayBlock_field | apply modelBlock_field ].

Ltac split_fields :=
  unfold errorsFor; rewrite validateMetadata_app, !filter_app;
  repeat match goal with
    | |- context [filter ?P ?l] =>
        first [ rewrite (filter_all P l) by this_field
              | rewrite (filter_none P l) by other_field ]
    end;
  rewrite ?app_nil_r; reflexivity.

(** The errors of a field are those of its own block. *)
Lemma errorsFor_name m :
  errorsFor (js "name") m = nameBlock (prop m (js "name")) [].
Proof. split_fields. Qed.

Lemma errorsFor_description m :
  errorsFor (js "description") m = descriptionBlock (prop m (js "description")) [].
Proof. split_fields. Qed.

Lemma errorsFor_tools m :
  errorsFor (js "allowed-tools") m
    = arrayBlock (js "allowed-tools") (prop m (js "allowed-tools")) [].
Proof. split_fields. Qed.

Lemma errorsFor_model m :
  errorsFor (js "model") m = modelBlock (prop m (js "model")) [].
Proof. split_fields. Qed.

Lemma errorsFor_skills m :
  errorsFor (js "skills") m = arrayBlock (js "skills") (prop m (js "skills")) [].
Proof. split_fields. Qed.

Lemma nameRegex_no_newline s : nameRegex_test s = true -> hasNewline s = false.
Proof.
  intros Hs. assert (forallb nameChar s = true) as Hall by by destruct s.
  clear Hs. unfold hasNewline. induction s as [|c s IH]; [done|].
  simpl in Hall. apply andb_prop in Hall as [Hc Hall].
  cbn [includes startsWith]. rewrite (IH Hall), orb_false_r, andb_true_r.
  destruct (N.eqb_spec LF c) as [<-|]; [|done]. by vm_compute in Hc.
Qed.

(** C7 (amended).  [validateMetadata] reports exactly the violated
    rules, whatever else is violated: an error is in the list if and
    only if it is the error of a rule the header breaks, and the errors
    of a field depend on that field alone.  So a header whose name
    matches the pattern within 64 characters, whose description is a
    non-empty single line within 500 characters, and whose optional
    fields are absent or well typed has no error; and a header without
    a name (or without a description) has exactly one error for that
    field, the missing-field one. *)
Theorem validateMetadata_rules (m : Record) :
  (forall e, e ∈ validateMetadata m <-> Violation m e) /\
  (forall m' fld,
     fld ∈ [js "name"; js "description"; js "allowed-tools"; js "model"; js "skills"] ->
     prop m fld = prop m' fld -> errorsFor fld m = errorsFor fld m') /\
  (forall name description,
     prop m (js "name") = VStr name -> nameRegex_test name = true ->
     (length name <= LIMITS.name)%nat ->
     prop m (js "description") = VStr description -> description <> [] ->
     hasNewline description = false ->
     (length description <= LIMITS.description)%nat ->
     stringList (prop m (js "allowed-tools")) ->
     (prop m (js "model") = VUndefined \/ isString (prop m (js "model")) = true) ->
     stringList (prop m (js "skills")) ->
     validateMetadata m = []) /\
  (m !! js "name" = None ->
   errorsFor (js "name") m
     = [mkError (js "name") (js "Required field is missing")]) /\
  (m !! js "description" = None ->
   errorsFor (js "description") m
     = [mkError (js "description") (js "Required field is missing")]).
Proof.
  split; [|split; [|split; [|split]]].
  - intros e. split; [apply Violation_sound | apply Violation_complete].
  - intros m' fld Hfld Heq.
    repeat (apply elem_of_cons in Hfld as [->|Hfld]);
      [..|by apply elem_of_nil in Hfld].
    + by rewrite !errorsFor_name, Heq.
    + by rewrite !errorsFor_description, Heq.
    + by rewrite !errorsFor_tools, Heq.
    + by rewrite !errorsFor_model, Heq.
    + by rewrite !errorsFor_skills, Heq.
  - intros name description Hn Hre Hlen Hd Hne Hnl Hdlen Htools Hmodel Hskills.
    destruct (validateMetadata m) as [|e rest] eqn:Herrs; [done|exfalso].
    assert (Violation m e) as Hv.
    { apply Violation_sound. rewrite Herrs. by left. }
    pose proof (nameRegex_no_newline name Hre) as Hnnl.
    assert (name <> []) as Hnne by (by destruct name).
    destruct Hv as [Ht|Ht Hs|s Hv Hsne Hslen|s Hv Hsnl|s Hv Hsne Hsre
                   |Ht|Ht Hs|s Hv Hsne Hslen|s Hv Hsnl
                   |Hu Ha|items i item Hv Hi Hs|Hu Hs|Hu Ha|items i item Hv Hi Hs].
    + rewrite Hn in Ht. by rewrite truthy_VStr_true in Ht.
    + by rewrite Hn in Hs.
    + rewrite Hn in Hv. injection Hv as <-. lia.
    + rewrite Hn in Hv. injection Hv as <-. congruence.
    + rewrite Hn in Hv. injection Hv as <-. congruence.
    + rewrite Hd in Ht. by rewrite truthy_VStr_true in Ht.
    + by rewrite Hd in Hs.
    + rewrite Hd in Hv. injection Hv as <-. lia.
    + rewrite Hd in Hv. injection Hv as <-. congruence.
    + destruct Htools as [?|(items & ? & _)]; [done|by eapply Ha].
    + destruct Htools as [Hu|(items' & Heq & Hall)]; [congruence|].
      rewrite Hv in Heq. injection Heq as <-.
      rewrite forallb_forall in Hall.
      apply list_elem_of_lookup_2, list_elem_of_In, Hall in Hi. congruence.
    + destruct Hmodel; congruence.
    + destruct Hskills as [?|(items & ? & _)]; [done|by eapply Ha].
    + destruct Hskills as [Hu|(items' & Heq & Hall)]; [congruence|].
      rewrite Hv in Heq. injection Heq as <-.
      rewrite forallb_forall in Hall.
      apply list_elem_of_lookup_2, list_elem_of_In, Hall in Hi. congruence.
  - intros Hnone. rewrite errorsFor_name. unfold prop. by rewrite Hnone.
  - intros Hnone. rewrite errorsFor_description. unfold prop. by rewrite Hnone.
Qed.

End ValidatorFacts.
Export ValidatorFacts.

(** ** The link registry *)

Module ListFacts.

Lemma findIndex_Some {A} (p : A -> bool) l i :
  findIndex p l = Some i ->
  exists x, l !! i = Some x /\ p x = true /\
            forall j y, (j < i)%nat -> l !! j = Some y -> p y = false.
Proof.
  revert i. induction l as [|a l IH]; intros i; simpl; [done|].
  destruct (p a) eqn:Hp.
  - intros [= <-]. exists a. repeat split; [done|]. intros j y Hj. lia.
  - destruct (findIndex p l) as [k|] eqn:Hk; simpl; [|done].
    intros [= <-]. destruct (IH k eq_refl) as (x & Hx & Hpx & Hbefore).
    exists x. repeat split; [done..|].
    intros [|j] y Hj; simpl.
    + by intros [= <-].
    + apply Hbefore. lia.
Qed.

Lemma findIndex_None {A} (p : A -> bool) l :
  findIndex p l = None <-> Forall (fun x => p x = false) l.
Proof.
  induction l as [|a l IH]; simpl; [done|].
  destruct (p a) eqn:Hp.
  - split; [done|]. intros HF. apply Forall_cons in HF as [? _]. congruence.
  - destruct (findIndex p l); simpl.
    + split; [done|]. intros HF. apply Forall_cons in HF as [_ HF].
      by apply IH in HF.
    + split; [|done]. intros _. constructor; [done|]. by apply IH.
Qed.

Lemma find_findIndex {A} `{Inhabited A} (p : A -> bool) l :
  find p l = (fun i => l !!! i) <$> findIndex p l.
Proof.
  induction l as [|a l IH]; simpl; [done|].
  destruct (p a); [done|]. rewrite IH. by destruct (findIndex p l).
Qed.

Lemma list_delete_ge {A} (l : list A) i : (length l <= i)%nat -> delete i l = l.
Proof.
  intros Hi. rewrite delete_take_drop, take_ge, drop_ge by lia.
  apply app_nil_r.
Qed.

End ListFacts.
Export ListFacts.

Module RegistryFacts.

Lemma hasName_true name l : hasName name l = true <-> link_name l = name.
Proof. unfold hasName, str_eqb. by rewrite bool_decide_eq_true. Qed.

Lemma hasName_false name l : hasName name l = false <-> link_name l <> name.
Proof. unfold hasName, str_eqb. by rewrite bool_decide_eq_false. Qed.

Lemma occurrences_cons name l ls :
  occurrences name (l :: ls)
    = ((if hasName name l then 1 else 0) + occurrences name ls)%nat.
Proof.
  unfold occurrences. rewrite filter_cons.
  destruct (decide (link_name l = name)) as [Hl|Hl].
  - apply hasName_true in Hl. by rewrite Hl.
  - apply hasName_false in Hl. by rewrite Hl.
Qed.

Lemma occurrences_nil name : occurrences name [] = O.
Proof. done. Qed.

Lemma occurrences_one name link :
  occurrences name [link] = if hasName name link then 1%nat else O.
Proof. rewrite occurrences_cons, occurrences_nil. destruct (hasName name link); lia. Qed.

Lemma occurrences_app name ls1 ls2 :
  occurrences name (ls1 ++ ls2)
    = (occurrences name ls1 + occurrences name ls2)%nat.
Proof. unfold occurrences. by rewrite filter_app, length_app. Qed.

Lemma occurrences_absent name ls :
  findIndex (hasName name) ls = None -> occurrences name ls = O.
Proof.
  intros HF%findIndex_None. induction HF as [|l ls Hl _ IH]; [done|].
  by rewrite occurrences_cons, Hl, IH.
Qed.

Lemma occurrences_present name ls i :
  findIndex (hasName name) ls = Some i -> (1 <= occurrences name ls)%nat.
Proof.
  revert i. induction ls as [|l ls IH]; intros i; simpl; [done|].
  rewrite occurrences_cons. destruct (hasName name l); [lia|].
  destruct (findIndex _ ls) eqn:Hf; [|done]. intros _. specialize (IH _ eq_refl). lia.
Qed.

(** Overwriting the found entry by a link of the same name. *)
Lemma occurrences_insert name ls i link other :
  ls !! i = Some other ->
  occurrences name (<[i := link]> ls)
    = (occurrences name ls + (if hasName name link then 1 else 0)
       - (if hasName name other then 1 else 0))%nat.
Proof.
  revert i. induction ls as [|l ls IH]; intros [|i]; simpl; try done.
  - intros [= ->]. rewrite !occurrences_cons.
    destruct (hasName name link), (hasName name other); lia.
  - intros Hi. rewrite !occurrences_cons, (IH _ Hi).
    assert (hasName name other = true -> 1 <= occurrences name ls)%nat.
    { intros Ho. clear IH. revert i Hi. induction ls as [|x ls IH]; intros [|i]; simpl;
        try done; rewrite occurrences_cons.
      - intros [= ->]. rewrite Ho. lia.
      - intros Hi%IH. lia. }
    destruct (hasName name l), (hasName name link), (hasName name other); lia.
Qed.

Lemma occurrences_delete name ls i other :
  ls !! i = Some other ->
  occurrences name (delete i ls)
    = (occurrences name ls - (if hasName name other then 1 else 0))%nat.
Proof.
  revert i. induction ls as [|l ls IH]; intros [|i]; simpl; try done.
  - intros [= ->]. rewrite occurrences_cons. destruct (hasName name other); lia.
  - intros Hi. rewrite !occurrences_cons, (IH _ Hi).
    assert (hasName name other = true -> 1 <= occurrences name ls)%nat.
    { intros Ho. clear IH. revert i Hi. induction ls as [|x ls IH]; intros [|i]; simpl;
        try done; rewrite occurrences_cons.
      - intros [= ->]. rewrite Ho. lia.
      - intros Hi%IH. lia. }
    destruct (hasName name l), (hasName name other); lia.
Qed.

End RegistryFacts.
Export RegistryFacts.

Module LinkFacts.
Section LinkFacts.
Context {W : Type} `{Deno W}.

Lemma try_catch_ReadOnly_body {A} (m : M W A) h s :
  ReadOnly m ->
  try_catch m h s = match (m s).1 with
                    | Returned a => (Returned a, s)
                    | Thrown e => h e s
                    end.
Proof.
  intros Hm. unfold try_catch. specialize (Hm s).
  destruct (m s) as [[a|e] s1]; simpl in *; by subst.
Qed.

Lemma removeLink_run name options s registry :
  (readLinkRegistry (lo_target options) (userLevel_or_true options) s).1
    = Returned registry ->
  removeLink name options s
    = match findIndex (hasName name) (links registry) with
      | None => (Returned (linkFailure (notFoundMessage name)), s)
      | Some index =>
          afterWrite (lo_target options) (userLevel_or_true options)
            (without index registry) (links registry !!! index) s
      end.
Proof.
  intros Hread. unfold removeLink, try_catch, afterWrite.
  rewrite bind_ReadOnly by eauto with readonly. rewrite Hread.
  destruct (findIndex _ _) as [index|]; [|done].
  unfold bind, without.
  by destruct (writeLinkRegistry _ _ _ s) as [[[]|e] s1].
Qed.

Lemma toggleLink_run name enabled options s registry :
  (readLinkRegistry (lo_target options) (userLevel_or_true options) s).1
    = Returned registry ->
  toggleLink name enabled options s
    = match findIndex (hasName name) (links registry) with
      | None => (Returned (linkFailure (notFoundMessage name)), s)
      | Some index =>
          afterWrite (lo_target options) (userLevel_or_true options)
            (toggled index enabled registry)
            (setEnabled enabled (links registry !!! index)) s
      end.
Proof.
  intros Hread. unfold toggleLink, try_catch, afterWrite.
  rewrite bind_ReadOnly by eauto with readonly. rewrite Hread.
  destruct (findIndex _ _) as [index|]; [|done].
  unfold bind, toggled.
  by destruct (writeLinkRegistry _ _ _ s) as [[[]|e] s1].
Qed.

Lemma addLink_run name source options details s registry :
  (readLinkRegistry (lo_target options) (userLevel_or_true options) s).1
    = Returned registry ->
  addLink name source options details s
    = if bool_decide (is_Some (findIndex (hasName name) (links registry)))
         && negb (lo_force options)
      then (Returned (linkFailure (existsMessage name)), s)
      else
        let link := newLink name source details in
        match (validateLink link s).1 with
        | Thrown e => (Returned (linkFailure (errorMessage e)), s)
        | Returned validation =>
            if negb (lv_valid validation)
            then (Returned {| lr_success := false; lr_link := None;
                              lr_error := lv_error validation |}, s)
            else afterWrite (lo_target options) (userLevel_or_true options)
                   (upsert link registry) link s
        end.
Proof.
  intros Hread. unfold addLink, try_catch, afterWrite.
  rewrite bind_ReadOnly by eauto with readonly. rewrite Hread.
  destruct (_ && _); [done|]. cbv zeta. fold (newLink name source details).
  rewrite bind_ReadOnly by apply validateLink_ReadOnly.
  destruct ((validateLink _ s).1) as [validation|e]; [|done].
  destruct (negb (lv_valid validation)); [done|].
  unfold bind, upsert, push. simpl link_name.
  destruct (findIndex _ _);
    by destruct (writeLinkRegistry _ _ _ s) as [[[]|e] s1].
Qed.


(** A registry that was read has a version. *)
Lemma readLinkRegistry_version target userLevel s registry :
  (readLinkRegistry target userLevel s).1 = Returned registry ->
  version registry <> [].
Proof.
  unfold readLinkRegistry.
  rewrite bind_ReadOnly by eauto with readonly.
  destruct ((getLinkRegistryPath _ _ s).1) as [registryPath|e]; [|done].
  unfold try_catch, bind, reading, lift, throw, ret. simpl.
  repeat (match goal with
          | |- context [match ?x with _ => _ end] => destruct x eqn:?
          end; simpl);
    intros [= <-]; simpl in *; try done;
    repeat break_hyp; inv_pairs; simpl in *; congruence.
Qed.

(** The registry path depends on the environment only. *)
Lemma getLinkRegistryPath_env target userLevel s s' :
  (forall key, Deno_env_get key (world s') = Deno_env_get key (world s)) ->
  (getLinkRegistryPath target userLevel s').1
    = (getLinkRegistryPath target userLevel s).1.
Proof.
  intros Henv. unfold getLinkRegistryPath, expandHome.
  destruct (startsWith _ _); [|done].
  unfold bind, reading. simpl. rewrite !Henv.
  by destruct (or_string _ _) as [[|]|].
Qed.

(** A registry that was written reads back. *)
Lemma read_after_writeLinkRegistry target userLevel registry s s' :
  HostLaws W ->
  version registry <> [] ->
  writeLinkRegistry target userLevel registry s = (Returned tt, s') ->
  (readLinkRegistry target userLevel s').1 = Returned registry.
Proof.
  intros laws Hv. unfold writeLinkRegistry.
  rewrite bind_ReadOnly by eauto with readonly.
  destruct ((getLinkRegistryPath _ _ s).1) as [registryPath|e] eqn:Hpath; [|done].
  unfold bind, acting.
  destruct (Deno_mkdir _ (world s)) as [[[]|e] w1] eqn:Hmk; [|done].
  simpl. destruct (Deno_writeTextFile _ _ w1) as [[[]|e] w2] eqn:Hwr; [|done].
  intros [= <-]. unfold readLinkRegistry.
  rewrite bind_ReadOnly by eauto with readonly.
  rewrite (getLinkRegistryPath_env _ _ s), Hpath.
  2: { intros key. simpl.
       rewrite (write_env laws key _ _ _ _ _ Hwr).
       apply (mkdir_env laws key _ _ _ _ Hmk). }
  unfold try_catch, bind, reading, lift. simpl.
  rewrite (read_after_write laws _ _ _ _ Hwr), (JSON_roundtrip laws).
  by destruct (version registry).
Qed.

Lemma afterWrite_success target userLevel registry link s r s' :
  afterWrite target userLevel registry link s = (Returned r, s') ->
  lr_success r = true ->
  r = linkSuccess link /\
  writeLinkRegistry target userLevel registry s = (Returned tt, s').
Proof.
  unfold afterWrite.
  destruct (writeLinkRegistry _ _ _ s) as [[[]|e] s1]; intros [= <- <-]; [done|].
  by intros [=].
Qed.

Lemma listLinks_run options s registry :
  (readLinkRegistry (lo_target options) (userLevel_or_true options) s).1
    = Returned registry ->
  listLinks options s = (Returned (links registry), s).
Proof.
  intros Hread. unfold listLinks.
  rewrite bind_ReadOnly by eauto with readonly. by rewrite Hread.
Qed.

Lemma OnePerName_upsert link registry :
  OnePerName (links registry) -> OnePerName (links (upsert link registry)).
Proof.
  intros Hone name. unfold upsert.
  destruct (findIndex _ _) as [i|] eqn:Hfind; simpl.
  - destruct (findIndex_Some _ _ _ Hfind) as (other & Hi & Hother & _).
    rewrite (occurrences_insert _ _ _ _ _ Hi).
    apply hasName_true in Hother. specialize (Hone name).
    destruct (hasName name link) eqn:Hl, (hasName name other) eqn:Ho; try lia.
    apply hasName_true in Hl. apply hasName_false in Ho. congruence.
  - rewrite occurrences_app, occurrences_one. specialize (Hone name).
    destruct (hasName name link) eqn:Hl; [|lia].
    apply hasName_true in Hl. subst name.
    rewrite (occurrences_absent _ _ Hfind). lia.
Qed.

Lemma occurrences_upsert link registry :
  occurrences (link_name link) (links (upsert link registry))
    = Nat.max 1 (occurrences (link_name link) (links registry)).
Proof.
  unfold upsert. destruct (findIndex _ _) as [i|] eqn:Hfind; simpl.
  - destruct (findIndex_Some _ _ _ Hfind) as (other & Hi & Hother & _).
    rewrite (occurrences_insert _ _ _ _ _ Hi), Hother.
    pose proof (occurrences_present _ _ _ Hfind).
    assert (hasName (link_name link) link = true) as -> by by apply hasName_true.
    lia.
  - rewrite occurrences_app, (occurrences_absent _ _ Hfind), occurrences_one.
    assert (hasName (link_name link) link = true) as -> by by apply hasName_true.
    lia.
Qed.

Lemma OnePerName_delete index ls : OnePerName ls -> OnePerName (delete index ls).
Proof.
  intros Hone name. specialize (Hone name).
  destruct (ls !! index) as [other|] eqn:Hi.
  - rewrite (occurrences_delete _ _ _ _ Hi). lia.
  - rewrite list_delete_ge; [done|]. by apply lookup_ge_None.
Qed.

Lemma OnePerName_toggle index enabled ls :
  OnePerName ls ->
  OnePerName (<[index := setEnabled enabled (ls !!! index)]> ls).
Proof.
  intros Hone name. specialize (Hone name).
  destruct (ls !! index) as [other|] eqn:Hi.
  - rewrite (occurrences_insert _ _ _ _ _ Hi).
    rewrite (list_lookup_total_correct _ _ _ Hi).
    assert (hasName name (setEnabled enabled other) = hasName name other) as -> by done.
    destruct (hasName name other); lia.
  - rewrite list_insert_ge; [done|]. by apply lookup_ge_None.
Qed.


(** C8.  Adding a link whose name is taken, without force, fails and
    writes nothing.  Otherwise a link that passes validation is added:
    the call is the write of the registry with the new link put in
    place of the first link of that name (or at the end when there was
    none), it succeeds when that write does, and the registry then
    reads back so.  Removing a name that is there is the write of the
    registry without the first link of that name, succeeds when the
    write does, and [listLinks] then returns the other links; removing
    a name that is not there fails and writes nothing.  Nothing else
    makes an add or a remove succeed.  In a registry with at most one
    link per name the name then occurs exactly once after an add and
    not at all after a remove, and both keep at most one link per
    name. *)
Theorem registry_add_remove name source options details s registry :
  HostLaws W ->
  (readLinkRegistry (lo_target options) (userLevel_or_true options) s).1
    = Returned registry ->
  let target := lo_target options in
  let userLevel := userLevel_or_true options in
  let found := findIndex (hasName name) (links registry) in
  let link := newLink name source details in
  (is_Some found ->
   lo_force options = false ->
   addLink name source options details s
     = (Returned (linkFailure (existsMessage name)), s)) /\
  (found = None \/ lo_force options = true ->
   forall validation,
     (validateLink link s).1 = Returned validation ->
     (lv_valid validation = false ->
      addLink name source options details s
        = (Returned {| lr_success := false; lr_link := None;
                       lr_error := lv_error validation |}, s)) /\
     (lv_valid validation = true ->
      addLink name source options details s
        = afterWrite target userLevel (upsert link registry) link s /\
      forall s',
        writeLinkRegistry target userLevel (upsert link registry) s
          = (Returned tt, s') ->
        addLink name source options details s = (Returned (linkSuccess link), s') /\
        listLinks options s' = (Returned (links (upsert link registry)), s'))) /\
  (found = None ->
   removeLink name options s = (Returned (linkFailure (notFoundMessage name)), s)) /\
  (forall i,
     found = Some i ->
     removeLink name options s
       = afterWrite target userLevel (without i registry) (links registry !!! i) s /\
     forall s',
       writeLinkRegistry target userLevel (without i registry) s = (Returned tt, s') ->
       removeLink name options s
         = (Returned (linkSuccess (links registry !!! i)), s') /\
       listLinks options s' = (Returned (delete i (links registry)), s')) /\
  (forall result s',
     addLink name source options details s = (Returned result, s') ->
     lr_success result = true ->
     let registry' := upsert link registry in
     lr_link result = Some link /\
     (readLinkRegistry (lo_target options) (userLevel_or_true options) s').1
       = Returned registry' /\
     (forall i, findIndex (hasName name) (links registry) = Some i ->
                lo_force options = true /\
                links registry' = <[i := link]> (links registry)) /\
     (findIndex (hasName name) (links registry) = None ->
      links registry' = links registry ++ [link]) /\
     occurrences name (links registry')
       = Nat.max 1 (occurrences name (links registry)) /\
     (OnePerName (links registry) ->
      occurrences name (links registry') = 1%nat /\
      OnePerName (links registry'))) /\
  (forall result s',
     removeLink name options s = (Returned result, s') ->
     lr_success result = true ->
     exists i,
       findIndex (hasName name) (links registry) = Some i /\
       (readLinkRegistry (lo_target options) (userLevel_or_true options) s').1
         = Returned (without i registry) /\
       listLinks options s' = (Returned (delete i (links registry)), s') /\
       occurrences name (delete i (links registry))
         = (occurrences name (links registry) - 1)%nat /\
       (OnePerName (links registry) ->
        occurrences name (delete i (links registry)) = O /\
        OnePerName (delete i (links registry)))).
Proof.
  intros laws Hread. cbv zeta.
  pose proof (readLinkRegistry_version _ _ _ _ Hread) as Hversion.
  split; [|split; [|split; [|split; [|split]]]].
  - intros Hsome Hforce. rewrite (addLink_run _ _ _ _ _ _ Hread).
    by rewrite bool_decide_true, Hforce.
  - intros Hfree validation Hvalidation.
    rewrite (addLink_run _ _ _ _ _ _ Hread).
    assert (bool_decide (is_Some (findIndex (hasName name) (links registry)))
            && negb (lo_force options) = false) as ->.
    { destruct Hfree as [-> | ->]; [|apply andb_false_r].
      rewrite bool_decide_false; [done|]. by intros [? ?]. }
    cbv zeta. rewrite Hvalidation. split.
    + by intros ->.
    + intros ->. cbn [negb]. split; [done|].
      intros s' Hwrite. unfold afterWrite. rewrite Hwrite. split; [done|].
      apply listLinks_run.
      eapply read_after_writeLinkRegistry; [done| |done].
      unfold upsert. by destruct (findIndex _ _).
  - intros Hnone. rewrite (removeLink_run _ _ _ _ Hread). by rewrite Hnone.
  - intros i Hi. rewrite (removeLink_run _ _ _ _ Hread), Hi. split; [done|].
    intros s' Hwrite. unfold afterWrite. rewrite Hwrite. split; [done|].
    apply (listLinks_run options s' (without i registry)).
    eapply read_after_writeLinkRegistry; done.
  - intros result s'. rewrite (addLink_run _ _ _ _ _ _ Hread).
    destruct (bool_decide _ && _) eqn:Hguard.
    { by intros [= <- <-] [=]. }
    cbv zeta. destruct ((validateLink _ s).1) as [validation|e].
    2: { by intros [= <- <-] [=]. }
    destruct (negb (lv_valid validation)).
    { by intros [= <- <-] [=]. }
    intros Hrun Hok.
    destruct (afterWrite_success _ _ _ _ _ _ _ Hrun Hok) as [-> Hwrite].
    split; [done|]. split.
    { eapply read_after_writeLinkRegistry; [done| |done].
      unfold upsert. by destruct (findIndex _ _). }
    split; [|split; [|split]].
    + intros i Hi. unfold upsert. simpl link_name. rewrite Hi. split; [|done].
      rewrite Hi in Hguard. rewrite bool_decide_true in Hguard by eauto.
      by destruct (lo_force options).
    + intros Hnone. unfold upsert. simpl link_name. by rewrite Hnone.
    + apply (occurrences_upsert (newLink name source details)).
    + intros Hone. split; [|by apply OnePerName_upsert].
      pose proof (occurrences_upsert (newLink name source details) registry) as Hocc.
      simpl link_name in Hocc. rewrite Hocc. specialize (Hone name). lia.
  - intros result s'. rewrite (removeLink_run _ _ _ _ Hread).
    destruct (findIndex _ _) as [i|] eqn:Hfind.
    2: { by intros [= <- <-] [=]. }
    intros Hrun Hok.
    destruct (afterWrite_success _ _ _ _ _ _ _ Hrun Hok) as [-> Hwrite].
    exists i. split; [done|].
    assert ((readLinkRegistry (lo_target options) (userLevel_or_true options) s').1
            = Returned (without i registry)) as Hread'.
    { eapply read_after_writeLinkRegistry; done. }
    split; [done|]. split; [by rewrite (listLinks_run _ _ _ Hread')|].
    destruct (findIndex_Some _ _ _ Hfind) as (other & Hi & Hother & _).
    rewrite (occurrences_delete _ _ _ _ Hi), Hother. split; [done|].
    intros Hone. split; [specialize (Hone name); lia|by apply OnePerName_delete].
Qed.

Lemma syncLink_Total name options : Total (syncLink name options).
Proof. apply try_catch_Total. intros e. apply ret_Total. Qed.

Lemma syncAllLinks_loop_run options todo acc s :
  exists results s',
    syncAllLinks_loop options todo acc s = (Returned (acc ++ results), s') /\
    SyncRun options (List.filter link_enabled todo) s results s'.
Proof.
  revert acc s. induction todo as [|link rest IH]; intros acc s; simpl.
  - exists [], s. rewrite app_nil_r. split; [done|constructor].
  - destruct (link_enabled link) eqn:Hen; simpl.
    + destruct (syncLink_Total (link_name link) options s) as [r Hr].
      unfold bind. destruct (syncLink (link_name link) options s) as [o s1] eqn:Hrun.
      simpl in Hr. subst o.
      destruct (IH (push acc r) s1) as (rs & s2 & Hloop & Hsync).
      exists (r :: rs), s2. split.
      * rewrite Hloop. unfold push. by rewrite <- app_assoc.
      * by econstructor.
    + apply IH.
Qed.

Lemma SyncRun_length options todo s results s' :
  SyncRun options todo s results s' -> length results = length todo.
Proof. induction 1; simpl; congruence. Qed.

(** C9.  [syncAllLinks] runs [syncLink] once for each enabled link of
    the registry, in the order of the file, each on the state the
    previous one left, and returns their results in that order: one
    per enabled link, none for a disabled one, whatever the individual
    results are. *)
Theorem syncAllLinks_visits options s registry :
  (readLinkRegistry (lo_target options) (userLevel_or_true options) s).1
    = Returned registry ->
  exists results s',
    syncAllLinks options s = (Returned results, s') /\
    SyncRun options (List.filter link_enabled (links registry)) s results s' /\
    length results = length (List.filter link_enabled (links registry)).
Proof.
  intros Hread. unfold syncAllLinks.
  rewrite bind_ReadOnly by eauto with readonly. rewrite Hread.
  destruct (syncAllLinks_loop_run options (links registry) [] s)
    as (rs & s' & Hloop & Hsync).
  exists rs, s'. split; [done|]. split; [done|].
  by eapply SyncRun_length.
Qed.

(** C10.  When the registry has a link of that name, [toggleLink]
    writes the registry that differs from the one read only in the
    [enabled] field of the first such link: same version, same number
    and order of links, every other link and every other field of that
    link as they were.  When it has none, the call fails with
    "not found" and writes nothing. *)
Theorem toggleLink_frame name enabled options s registry :
  HostLaws W ->
  (readLinkRegistry (lo_target options) (userLevel_or_true options) s).1
    = Returned registry ->
  (findIndex (hasName name) (links registry) = None ->
   toggleLink name enabled options s
     = (Returned (linkFailure (notFoundMessage name)), s)) /\
  (forall index,
     findIndex (hasName name) (links registry) = Some index ->
     let registry' := toggled index enabled registry in
     toggleLink name enabled options s
       = afterWrite (lo_target options) (userLevel_or_true options) registry'
           (setEnabled enabled (links registry !!! index)) s /\
     (forall result s',
        toggleLink name enabled options s = (Returned result, s') ->
        lr_success result = true ->
        (readLinkRegistry (lo_target options) (userLevel_or_true options) s').1
          = Returned registry') /\
     version registry' = version registry /\
     length (links registry') = length (links registry) /\
     (forall j, j <> index -> links registry' !! j = links registry !! j) /\
     exists link,
       links registry !! index = Some link /\ link_name link = name /\
       links registry' !! index
         = Some {| link_name := link_name link;
                   link_type := link_type link;
                   link_source := link_source link;
                   link_path := link_path link;
                   link_branch := link_branch link;
                   link_enabled := enabled;
                   link_description := link_description link |}).
Proof.
  intros laws Hread.
  pose proof (readLinkRegistry_version _ _ _ _ Hread) as Hversion.
  rewrite (toggleLink_run _ _ _ _ _ Hread).
  split.
  - by intros ->.
  - intros index Hfind. rewrite Hfind. cbv zeta.
    split; [done|]. split; [|split; [done|split; [|split]]].
    + intros result s' Hrun Hok.
      destruct (afterWrite_success _ _ _ _ _ _ _ Hrun Hok) as [_ Hwrite].
      eapply read_after_writeLinkRegistry; done.
    + apply length_insert.
    + intros j Hj. by apply list_lookup_insert_ne.
    + destruct (findIndex_Some _ _ _ Hfind) as (link & Hi & Hname & _).
      exists link. split; [done|]. split; [by apply hasName_true|].
      simpl. rewrite (list_lookup_total_correct _ _ _ Hi).
      apply list_lookup_insert_eq. by eapply lookup_lt_Some.
Qed.

End LinkFacts.
End LinkFacts.
Export LinkFacts.

(** ** Synchronisation and outcomes *)

Module SyncFacts.
Section SyncFacts.
Context {W : Type} `{Deno W}.

Lemma last_snoc {A} (l : list A) x : last (l ++ [x]) = Some x.
Proof. induction l as [|y [|z l] IH]; done. Qed.

Lemma syncLink_deploy_cleanup link options skillDir s :
  last (effects (syncLink_deploy link options skillDir true s).2)
    = Some (ERemove skillDir true).
Proof.
  unfold syncLink_deploy, try_finally, catch_ignore, try_catch, acting.
  destruct (bind _ _ s) as [r s1].
  destruct (Deno_remove skillDir true (world s1)) as [[[]|e] w2]; simpl;
    apply last_snoc.
Qed.

Lemma cloneArguments_args link tempDir :
  let cloneArgs := [js "git"; js "clone"; js "--depth"; js "1"] in
  let cloneArgs :=
    match truthy_string (link_branch link) with
    | Some branch => cloneArgs ++ [js "--branch"; branch]
    | None => cloneArgs
    end in
  let cloneArgs := cloneArgs ++ [link_source link; tempDir] in
  hd [] cloneArgs = js "git" /\
  slice_from 1 cloneArgs = cloneArguments link tempDir.
Proof.
  unfold cloneArguments. by destruct (truthy_string (link_branch link)).
Qed.

(** A git sync that got its temporary directory ends, whichever way
    it goes, by asking for the removal of one directory: the temporary
    directory itself when the clone failed or the link declares no
    path, and the path inside it otherwise. *)
Theorem syncLink_git_cleanup name options s registry link tempDir w1 clone w2 :
  (readLinkRegistry (lo_target options) (userLevel_or_true options) s).1
    = Returned registry ->
  find (hasName name) (links registry) = Some link ->
  link_enabled link = true ->
  link_type link = git ->
  Deno_makeTempDir (js "skill-link-") (world s) = (Returned tempDir, w1) ->
  Deno_Command_output (js "git") (cloneArguments link tempDir) w1 = (clone, w2) ->
  last (effects (syncLink name options s).2)
    = Some (ERemove (cleanupTarget link tempDir clone) true).
Proof.
  intros Hread Hfind Hen Htype Htemp Hclone.
  unfold syncLink, try_catch at 1.
  rewrite bind_ReadOnly by eauto with readonly.
  rewrite Hread, Hfind, Hen, Htype. cbn [negb].
  change (str_eqb git local) with false. change (str_eqb git git) with true.
  cbv iota. unfold bind at 1, acting at 1. rewrite Htemp.
  destruct (cloneArguments_args link tempDir) as [Hcmd Hargs].
  cbv zeta in Hcmd, Hargs. cbv zeta.
  unfold bind at 1, try_catch at 1, bind at 1, acting at 1.
  rewrite Hcmd, Hargs. cbn [world effects]. rewrite Hclone.
  unfold cleanupTarget.
  destruct clone as [output|e].
  - destruct (cmdSuccess output); cbn [negb].
    + unfold ret at 1.
      pose proof (syncLink_deploy_cleanup link options
                    (match truthy_string (link_path link) with
                     | Some path => tempDir ++ js "/" ++ path
                     | None => tempDir
                     end)
                    {| world := w2;
                       effects := (effects s ++ [EMakeTempDir (js "skill-link-")]) ++
                                  [ECommand (js "git") (cloneArguments link tempDir)] |})
        as Hlast.
      destruct (syncLink_deploy _ _ _ _ _) as [[r|e] s3]; exact Hlast.
    + unfold throw at 1, bind, catch_ignore, try_catch, acting. cbn [world effects].
      destruct (Deno_remove tempDir true w2) as [[[]|e] w3]; apply last_snoc.
  - unfold bind, catch_ignore, try_catch, acting. cbn [world effects].
    destruct (Deno_remove tempDir true w2) as [[[]|e'] w3]; apply last_snoc.
Qed.

(** When the link declares no path, or the clone fails, the directory
    whose removal ends a git sync is the temporary directory. *)
Theorem syncLink_git_removes_temporary name options s registry link tempDir w1
    clone w2 :
  (readLinkRegistry (lo_target options) (userLevel_or_true options) s).1
    = Returned registry ->
  find (hasName name) (links registry) = Some link ->
  link_enabled link = true ->
  link_type link = git ->
  Deno_makeTempDir (js "skill-link-") (world s) = (Returned tempDir, w1) ->
  Deno_Command_output (js "git") (cloneArguments link tempDir) w1 = (clone, w2) ->
  truthy_string (link_path link) = None \/
    (forall output, clone = Returned output -> cmdSuccess output = false) ->
  last (effects (syncLink name options s).2) = Some (ERemove tempDir true).
Proof.
  intros Hread Hfind Hen Htype Htemp Hclone Hcase.
  rewrite (syncLink_git_cleanup _ _ _ _ _ _ _ _ _ Hread Hfind Hen Htype Htemp Hclone).
  unfold cleanupTarget. destruct clone as [output|e]; [|done].
  destruct Hcase as [->|Hfail].
  - by destruct (cmdSuccess output).
  - by rewrite (Hfail output eq_refl).
Qed.

(** Validation reads only, and reports every failure as a result. *)
Theorem validateSkillDir_safe dirPath :
  ReadOnly (validateSkillDir dirPath) /\ Total (validateSkillDir dirPath).
Proof.
  split; [apply validateSkillDir_ReadOnly|].
  apply try_catch_Total. intros e. apply ret_Total.
Qed.

(** A registry file that is not there reads as the empty registry. *)
Theorem readLinkRegistry_missing target userLevel s registryPath e :
  (getLinkRegistryPath target userLevel s).1 = Returned registryPath ->
  Deno_readTextFile registryPath (world s) = Thrown e ->
  isNotFound e = true ->
  readLinkRegistry target userLevel s
    = (Returned {| version := LINK_REGISTRY_VERSION; links := [] |}, s).
Proof.
  intros Hpath Hread Hnf. unfold readLinkRegistry.
  rewrite bind_ReadOnly by eauto with readonly. rewrite Hpath.
  unfold try_catch, bind, reading. rewrite Hread. by rewrite Hnf.
Qed.

Lemma deployTarget_target skillDir skillName options t s r s1 :
  deployTarget skillDir skillName options t s = (Returned r, s1) -> target r = t.
Proof.
  destruct t; simpl;
    unfold deployToClaudeOrCodex, deployToCursor, try_catch, or_continue, bind;
    intros Hrun; repeat break_hyp; inv_pairs; done.
Qed.

Lemma deploySkill_loop_outcomes skillDir skillName options todo acc s :
  exists results s',
    deploySkill_loop skillDir skillName options todo acc s
      = (Returned (acc ++ results), s') /\
    Forall2 (fun t r => target r = t) todo results.
Proof.
  revert acc s. induction todo as [|t rest IH]; intros acc s; simpl.
  - exists [], s. by rewrite app_nil_r.
  - unfold bind.
    destruct (deployTarget_Total skillDir skillName options t s) as [r Hr].
    destruct (deployTarget skillDir skillName options t s) as [o s1] eqn:Hrun.
    simpl in Hr. subst o.
    destruct (IH (push acc r) s1) as (rs & s2 & Hrs & HF).
    exists (r :: rs), s2. split.
    + rewrite Hrs. unfold push. by rewrite <- app_assoc.
    + constructor; [|done]. by eapply deployTarget_target.
Qed.

(** [deploySkill] throws only before it tries any target, and has
    done nothing then: when the manifest cannot be read or parsed, and
    when its header is [null] or [undefined], on which reading the name
    is a TypeError.  Once the name is read it returns one outcome per
    requested target, in order, whatever happens on each of them. *)
Theorem deploySkill_one_outcome_per_target skillDir options s :
  let manifest := parseSkillFile (path_join skillDir (js "SKILL.md")) in
  (forall e,
     (manifest s).1 = Thrown e ->
     deploySkill skillDir options s = (Thrown e, s)) /\
  (forall skill,
     (manifest s).1 = Returned skill ->
     metadata skill = HNull \/ metadata skill = HUndefined ->
     exists e,
       deploySkill skillDir options s = (Thrown e, s) /\
       errorClass e = TypeError) /\
  (forall skill fields,
     (manifest s).1 = Returned skill ->
     metadata skill = HRecord fields ->
     exists results s',
       deploySkill skillDir options s = (Returned results, s') /\
       Forall2 (fun t r => target r = t) (targets options) results).
Proof.
  cbv zeta. unfold deploySkill.
  rewrite bind_ReadOnly by eauto with readonly.
  split; [|split].
  - by intros e ->.
  - intros skill -> [Hnull|Hnull]; rewrite Hnull; by eexists.
  - intros skill fields -> ->. unfold bind, lift. cbn [prop_of].
    apply (deploySkill_loop_outcomes _ _ _ _ []).
Qed.

End SyncFacts.
End SyncFacts.
Export SyncFacts.

(** ** What the operations return *)

Module ResultFacts.
Import Terms.
Section ResultFacts.
Context {W : Type} `{Deno W}.

Lemma Post_ret {A} (Q : A -> Prop) a : Q a -> Post (W:=W) Q (ret a).
Proof. by intros HQ s r s' [= <- <-]. Qed.

Lemma Post_throw {A} (Q : A -> Prop) e : Post (W:=W) Q (throw e).
Proof. by intros s r s'. Qed.

Lemma Post_bind_from {A B} (P : A -> Prop) (Q : B -> Prop) (m : M W A) k :
  Post P m -> (forall a, P a -> Post Q (k a)) -> Post Q (bind m k).
Proof.
  intros Hm Hk s r s'. unfold bind.
  destruct (m s) as [[a|e] s1] eqn:Hrun; [|done].
  apply Hk. by eapply Hm.
Qed.

Lemma Post_bind {A B} (Q : B -> Prop) (m : M W A) k :
  (forall a, Post Q (k a)) -> Post Q (bind m k).
Proof.
  intros Hk. apply (Post_bind_from (fun _ => True)); [done|]. by intros a _.
Qed.

Lemma Post_try_catch {A} (Q : A -> Prop) (m : M W A) h :
  Post Q m -> (forall e, Post Q (h e)) -> Post Q (try_catch m h).
Proof.
  intros Hm Hh s r s'. unfold try_catch.
  destruct (m s) as [[a|e] s1] eqn:Hrun.
  - intros [= <- <-]. by eapply Hm.
  - apply Hh.
Qed.

Lemma Post_try_finally {A} (Q : A -> Prop) (m : M W A) final :
  Post Q m -> Post Q (try_finally m final).
Proof.
  intros Hm s r s'. unfold try_finally.
  destruct (m s) as [o s1] eqn:Hrun.
  destruct (final s1) as [[[]|e] s2]; [|done].
  intros [= -> <-]. by eapply Hm.
Qed.

Lemma Post_or_continue {A} (Q : A -> Prop) (m : M W (option A)) rest :
  Post (fun o => forall r, o = Some r -> Q r) m -> Post Q rest ->
  Post Q (or_continue m rest).
Proof.
  intros Hm Hrest. apply (Post_bind_from _ _ _ _ Hm).
  intros [r|] Hr; [apply Post_ret; eauto | done].
Qed.

Lemma Post_returns {A} (Q : A -> Prop) (m : M W A) s :
  Total m -> Post Q m -> exists r s', m s = (Returned r, s') /\ Q r.
Proof.
  intros Htotal Hpost. destruct (Htotal s) as [r Hr].
  destruct (m s) as [o s'] eqn:Hrun. cbn [fst] in Hr. subst o.
  exists r, s'. split; [done|]. by eapply Hpost.
Qed.

Ltac post :=
  repeat first
    [ progress intros
    | apply Post_throw
    | apply Post_ret
    | apply Post_try_catch | apply Post_try_finally | apply Post_or_continue
    | apply Post_bind
    | match goal with
      | |- Post _ (if ?b then _ else _) => destruct b eqn:?
      | |- Post _ (match ?x with _ => _ end) => destruct x eqn:?
      end ].

Ltac post_done :=
  repeat match goal with
    | H : Some _ = Some _ |- _ => injection H as <-
    | H : None = Some _ |- _ => discriminate H
    end;
  cbn; try done; eauto.

Lemma validateLink_says link :
  Post (fun v => lv_valid v = false -> is_Some (lv_error v)) (validateLink link).
Proof.
  unfold validateLink, invalidLink. post; post_done.
Qed.

Lemma deployTarget_ok skillDir skillName options t :
  Post (deployResultOk t) (deployTarget skillDir skillName options t).
Proof.
  unfold deployResultOk.
  destruct t; cbn [deployTarget]; unfold deployToClaudeOrCodex, deployToCursor;
    post; post_done.
Qed.

Lemma removeSkill_ok skillName t : Post removeResultOk (removeSkill skillName t).
Proof.
  unfold removeSkill, removeResultOk.
  post; post_done.
Qed.

Lemma addLink_ok name source options details :
  Post linkResultOk (addLink name source options details).
Proof.
  unfold addLink, linkResultOk, linkFailure, linkSuccess.
  apply Post_try_catch; [|post; post_done].
  apply Post_bind. intros registry.
  destruct (_ && _); [post; post_done|].
  eapply Post_bind_from; [apply validateLink_says|].
  intros validation Hsays. cbv beta in Hsays.
  destruct (lv_valid validation); cbn [negb]; post; post_done.
Qed.

Lemma removeLink_ok name options : Post linkResultOk (removeLink name options).
Proof.
  unfold removeLink, linkResultOk, linkFailure, linkSuccess.
  post; post_done.
Qed.

Lemma toggleLink_ok name enabled options :
  Post linkResultOk (toggleLink name enabled options).
Proof.
  unfold toggleLink, linkResultOk, linkFailure, linkSuccess.
  post; post_done.
Qed.

Lemma syncLink_ok name options : Post syncResultOk (syncLink name options).
Proof.
  unfold syncLink, syncLink_deploy, syncResultOk, syncFailure.
  post; post_done.
Qed.

Lemma deployTarget_no_destination skillDir skillName options target s e :
  target <> cursor ->
  (destination skillName target s).1 = Thrown e ->
  deployTarget skillDir skillName options target s
    = (Returned (deployFailure target (errorMessage e)), s).
Proof.
  intros Hne Hdest. unfold destination in Hdest.
  destruct target; [| |done]; cbn [deployTarget] in *;
    unfold deployToClaudeOrCodex, try_catch;
    rewrite bind_ReadOnly in Hdest by eauto with readonly;
    rewrite !(bind_ReadOnly (expandHome _)) by eauto with readonly;
    (destruct ((expandHome _ s).1) as [expandedBase|e0];
     [|by injection Hdest as ->]);
    rewrite !(bind_ReadOnly (join_unchecked _ _)) by eauto with readonly;
    by rewrite Hdest.
Qed.

Lemma deployToCursor_no_manifest skillDir options s e :
  (parseSkillFile (path_join skillDir (js "SKILL.md")) s).1 = Thrown e ->
  deployToCursor skillDir options s
    = (Returned (deployFailure cursor (errorMessage e)), s).
Proof.
  intros Hparse. unfold deployToCursor, try_catch.
  rewrite !(bind_ReadOnly (parseSkillFile _)) by eauto with readonly.
  by rewrite Hparse.
Qed.

(** The operations on links and the steps of a deployment never
    throw, and what they return is well formed: a result that reports
    success carries its payload and no error, one that reports failure
    carries a message; the result of a sync either carries the outcomes
    of the deployment and succeeds exactly when all of them do, or is a
    failure with a message.  An error of the host is reported with its
    message: by the operations on links when the place of the registry
    cannot be worked out, by the deployment of a target when the
    destination cannot be worked out or the manifest cannot be read, by
    [removeSkill] when the home directory is not known or the deletion
    fails. *)
Theorem operations_never_throw :
  (forall name source options details s,
     exists r s',
       addLink name source options details s = (Returned r, s') /\
       linkResultOk r) /\
  (forall name options s,
     exists r s', removeLink name options s = (Returned r, s') /\ linkResultOk r) /\
  (forall name enabled options s,
     exists r s',
       toggleLink name enabled options s = (Returned r, s') /\ linkResultOk r) /\
  (forall name options s,
     exists r s', syncLink name options s = (Returned r, s') /\ syncResultOk r) /\
  (forall skillName target s,
     exists r s',
       removeSkill skillName target s = (Returned r, s') /\ removeResultOk r) /\
  (forall skillDir skillName options target s,
     exists r s',
       deployTarget skillDir skillName options target s = (Returned r, s') /\
       deployResultOk target r) /\
  (forall options s e,
     (getLinkRegistryPath (lo_target options) (userLevel_or_true options) s).1
       = Thrown e ->
     (forall name source details,
        addLink name source options details s
          = (Returned (linkFailure (errorMessage e)), s)) /\
     (forall name,
        removeLink name options s = (Returned (linkFailure (errorMessage e)), s)) /\
     (forall name enabled,
        toggleLink name enabled options s
          = (Returned (linkFailure (errorMessage e)), s)) /\
     (forall name,
        syncLink name options s
          = (Returned (syncFailure None (errorMessage e)), s))) /\
  (forall skillDir skillName options target s e,
     target <> cursor ->
     (destination skillName target s).1 = Thrown e ->
     deployTarget skillDir skillName options target s
       = (Returned (deployFailure target (errorMessage e)), s)) /\
  (forall skillDir skillName options s e,
     (parseSkillFile (path_join skillDir (js "SKILL.md")) s).1 = Thrown e ->
     deployTarget skillDir skillName options cursor s
       = (Returned (deployFailure cursor (errorMessage e)), s)) /\
  (forall skillName target s e,
     target <> cursor ->
     (expandHome (getTargetPath target true) s).1 = Thrown e ->
     removeSkill skillName target s
       = (Returned {| removed := false; remove_error := Some (errorMessage e) |}, s)) /\
  (forall skillName target s targetPath recursive e w',
     (destination (VStr skillName) target s).1 = Returned targetPath ->
     recursive = match target with cursor => false | _ => true end ->
     (exists_ targetPath s).1 = Returned true ->
     Deno_remove targetPath recursive (world s) = (Thrown e, w') ->
     removeSkill skillName target s
       = (Returned {| removed := false; remove_error := Some (errorMessage e) |},
          {| world := w'; effects := effects s ++ [ERemove targetPath recursive] |})).
Proof.
  split; [|split; [|split; [|split; [|split; [|split]]]]];
    try (intros; apply Post_returns;
         first [ apply deployTarget_Total
               | apply try_catch_Total; intros e; apply ret_Total
               | apply addLink_ok | apply removeLink_ok | apply toggleLink_ok
               | apply syncLink_ok | apply removeSkill_ok | apply deployTarget_ok ]).
  split; [|split; [|split; [|split]]].
  - intros options s e Hpath.
    assert ((readLinkRegistry (lo_target options) (userLevel_or_true options) s).1
            = Thrown e) as Hread.
    { unfold readLinkRegistry. rewrite bind_ReadOnly by eauto with readonly.
      by rewrite Hpath. }
    repeat split; intros;
      unfold addLink, removeLink, toggleLink, syncLink, try_catch;
      rewrite !bind_ReadOnly, !Hread by eauto with readonly; done.
  - intros. by apply deployTarget_no_destination.
  - intros. by apply deployToCursor_no_manifest.
  - intros skillName target s e Hne Hhome.
    destruct target; [| |done]; unfold removeSkill, try_catch;
      rewrite or_continue_bind, (bind_ReadOnly (expandHome _)) by eauto with readonly;
      by rewrite Hhome.
  - intros skillName target s targetPath recursive e w' Hdest -> Hex Hrm.
    unfold destination in Hdest.
    destruct target; cbn [join_unchecked] in Hdest.
    1,2: rewrite bind_ReadOnly in Hdest by eauto with readonly;
         unfold removeSkill, try_catch;
         rewrite or_continue_bind, (bind_ReadOnly (expandHome _))
           by eauto with readonly;
         (destruct ((expandHome _ s).1) as [base|e0]; [|done]);
         injection Hdest as <-;
         rewrite or_continue_bind, (bind_ReadOnly (exists_ _)) by eauto with readonly;
         rewrite Hex; unfold or_continue, bind, acting; by rewrite Hrm.
    injection Hdest as <-. unfold removeSkill, try_catch.
    rewrite or_continue_bind, (bind_ReadOnly (exists_ _)) by eauto with readonly.
    rewrite Hex. unfold or_continue, bind, acting. by rewrite Hrm.
Qed.

End ResultFacts.
End ResultFacts.

(** ** The simulated host *)

Module SimFacts.
Import Sim Sim.Codec.

Lemma get_string_length s rest :
  get_string (N.of_nat (length s) :: s ++ rest) = Some (s, rest).
Proof.
  unfold get_string. rewrite Nat2N.id.
  rewrite length_app. destruct (Nat.leb_spec (length s) (length s + length rest)); [|lia].
  by rewrite take_app_length, drop_app_length.
Qed.

Lemma get_put_string s rest : get_string (put_string s ++ rest) = Some (s, rest).
Proof. apply get_string_length. Qed.

#[local] Arguments put_string : simpl never.
#[local] Arguments get_string : simpl never.
#[local] Arguments put_link : simpl never.
#[local] Arguments get_link : simpl never.

Lemma get_put_option o rest : get_option (put_option o ++ rest) = Some (o, rest).
Proof.
  destruct o as [s|]; simpl; [|done].
  by rewrite get_string_length.
Qed.

Lemma get_put_bool b rest : get_bool (put_bool b ++ rest) = Some (b, rest).
Proof. by destruct b. Qed.

Lemma get_put_link l rest : get_link (put_link l ++ rest) = Some (l, rest).
Proof.
  unfold get_link, put_link. rewrite <- !app_assoc.
  repeat (rewrite ?get_put_string, ?get_put_option, ?get_put_bool;
          cbn -[put_string put_option put_bool app get_string get_option get_bool]).
  by destruct l.
Qed.

Lemma get_put_links ls rest :
  get_links (length ls) (concat (map put_link ls) ++ rest) = Some (ls, rest).
Proof.
  induction ls as [|l ls IH]; [done|].
  cbn [length map concat get_links]. rewrite <- app_assoc, get_put_link.
  cbn [mbind option_bind]. rewrite IH. done.
Qed.

Lemma get_put_registry r : get_registry (put_registry r ++ [LF]) = Some r.
Proof.
  unfold get_registry, put_registry. rewrite <- app_assoc, get_put_string.
  cbn [mbind option_bind app]. rewrite Nat2N.id, get_put_links.
  cbn [mbind option_bind].
  rewrite bool_decide_true by by left. by destruct r.
Qed.

(** The simulated host keeps the laws of a host. *)
Lemma host_laws : HostLaws World.
Proof.
  split.
  - intros key p w r w'. simpl. unfold mkdir.
    repeat case_match; by intros [= <- <-].
  - intros key p data w r w'. simpl. unfold writeTextFile.
    repeat case_match; by intros [= <- <-].
  - intros p data w w'. cbn [Deno_writeTextFile Deno_readTextFile host].
    unfold writeTextFile, readTextFile.
    destruct (files w !! p) as [[|]|], (parent_is_folder w p); intros [= <-];
      cbn [files with_files]; by rewrite lookup_insert_eq.
  - intros r. cbn [Runtime.JSON_parse Runtime.JSON_stringify host].
    unfold Codec.JSON_parse. by rewrite get_put_registry.
Qed.

End SimFacts.
Export SimFacts.

(** ** Lines *)

Module LineFacts.
Import Terms.

Lemma splitLines_nonempty s : splitLines s <> [].
Proof.
  destruct s as [|c rest]; [done|]. simpl.
  destruct (c =? LF); [done|]. by destruct (splitLines rest).
Qed.

Lemma joinLines_cons l ls :
  ls <> [] -> joinLines (l :: ls) = l ++ LF :: joinLines ls.
Proof. by destruct ls. Qed.

Lemma joinLines_splitLines s : joinLines (splitLines s) = s.
Proof.
  induction s as [|c rest IH]; [done|]. cbn [splitLines].
  destruct (N.eqb_spec c LF) as [->|Hc].
  - rewrite joinLines_cons by apply splitLines_nonempty. by rewrite IH.
  - pose proof (splitLines_nonempty rest).
    destruct (splitLines rest) as [|l ls]; [done|].
    destruct ls as [|l' ls].
    + simpl in *. by rewrite IH.
    + rewrite joinLines_cons in IH by done. rewrite joinLines_cons by done.
      rewrite <- app_comm_cons. by rewrite IH.
Qed.

Lemma splitLines_cons_ne c rest :
  c <> LF ->
  splitLines (c :: rest) = (c :: hd [] (splitLines rest)) :: tl (splitLines rest).
Proof.
  intros Hc. cbn [splitLines]. destruct (N.eqb_spec c LF); [done|].
  pose proof (splitLines_nonempty rest). by destruct (splitLines rest).
Qed.

Lemma splitLines_LF rest : splitLines (LF :: rest) = [] :: splitLines rest.
Proof. done. Qed.

Lemma splitLines_app_line l rest :
  noLF l -> splitLines (l ++ LF :: rest) = l :: splitLines rest.
Proof.
  unfold noLF. induction l as [|c l IH]; intros Hl; [done|].
  apply not_elem_of_cons in Hl as [Hc Hl].
  rewrite <- app_comm_cons, splitLines_cons_ne by done.
  by rewrite IH.
Qed.

Lemma splitLines_line l : noLF l -> splitLines l = [l].
Proof.
  unfold noLF. induction l as [|c l IH]; intros Hl; [done|].
  apply not_elem_of_cons in Hl as [Hc Hl].
  rewrite splitLines_cons_ne by done. by rewrite IH.
Qed.

Lemma splitLines_joinLines ls :
  ls <> [] -> Forall noLF ls -> splitLines (joinLines ls) = ls.
Proof.
  induction ls as [|l ls IH]; [done|]. intros _ Hall.
  apply Forall_cons in Hall as [Hl Hall].
  destruct ls as [|l' ls].
  - by apply splitLines_line.
  - rewrite joinLines_cons by done. rewrite splitLines_app_line by done.
    by rewrite IH.
Qed.

Lemma splitLines_noLF s : Forall noLF (splitLines s).
Proof.
  induction s as [|c rest IH].
  - constructor; [|done]. apply not_elem_of_nil.
  - destruct (N.eqb_spec c LF) as [->|Hc].
    + rewrite splitLines_LF. constructor; [|done]. apply not_elem_of_nil.
    + rewrite splitLines_cons_ne by done.
      pose proof (splitLines_nonempty rest).
      destruct (splitLines rest) as [|l ls]; [done|].
      apply Forall_cons in IH as [Hl Hls]. simpl. constructor; [|done].
      unfold noLF in *. by apply not_elem_of_cons.
Qed.

Lemma trimStart_noWS s :
  match s with [] => True | c :: _ => isWhiteSpace c = false end -> trimStart s = s.
Proof. destruct s as [|c s]; [done|]. simpl. by intros ->. Qed.

Lemma trimStart_head s :
  match trimStart s with [] => True | c :: _ => isWhiteSpace c = false end.
Proof.
  induction s as [|c s IH]; [done|]. simpl.
  destruct (isWhiteSpace c) eqn:Hc; [done|]. by simpl.
Qed.

Lemma trimStart_idem s : trimStart (trimStart s) = trimStart s.
Proof. apply trimStart_noWS, trimStart_head. Qed.

Lemma trimEnd_idem s : trimEnd (trimEnd s) = trimEnd s.
Proof. unfold trimEnd. by rewrite rev_involutive, trimStart_idem. Qed.

Lemma trimEnd_noLF l : noLF l -> noLF (trimEnd l).
Proof.
  unfold noLF. intros Hl Hin. apply Hl.
  destruct (trimEnd_split l) as (after & Heq & _). rewrite Heq.
  apply elem_of_app. by left.
Qed.

End LineFacts.
Export LineFacts.

(** ** Rules and white space *)

Module RuleFacts.
Import ConverterRules Terms.

#[local] Arguments trim s : simpl never.

Lemma line_heading rules currentRule l :
  isHeading l = true ->
  extractRules_line (rules, currentRule) l
  = (match currentRule with Some r => rules ++ [r] | None => rules end,
     Some {| title := trim (drop 3 l); items := [] |}).
Proof. unfold isHeading, extractRules_line. by intros ->. Qed.

Lemma line_blank rules currentRule l :
  isHeading l = false -> isBlank l = true ->
  extractRules_line (rules, currentRule) l = (rules, currentRule).
Proof.
  unfold isHeading, isBlank, extractRules_line. intros -> Hb.
  apply bool_decide_eq_true in Hb. rewrite Hb. by destruct currentRule.
Qed.

Lemma line_item rules r l :
  isHeading l = false -> isBlank l = false ->
  extractRules_line (rules, Some r) l
  = (rules, Some {| title := title r; items := items r ++ [trim l] |}).
Proof.
  unfold isHeading, isBlank, extractRules_line. intros -> Hb.
  apply bool_decide_eq_false in Hb.
  destruct (startsWith (trim l) (js "- ")); [done|].
  by destruct (trim l).
Qed.

Lemma line_before rules l :
  isHeading l = false -> extractRules_line (rules, None) l = (rules, None).
Proof. unfold isHeading, extractRules_line. by intros ->. Qed.

Lemma fold_open rules r lines :
  closed (fold_left extractRules_line lines (rules, Some r))
  = rules ++ {| title := title r; items := items r ++ itemsOf lines |} :: sections lines.
Proof.
  revert rules r. induction lines as [|l rest IH]; intros rules r.
  - unfold closed, itemsOf. simpl. rewrite app_nil_r. by destruct r.
  - cbn [fold_left sections]. unfold itemsOf. cbn [takeUntilHeading].
    destruct (isHeading l) eqn:Hh.
    + rewrite line_heading, IH by done. simpl.
      rewrite app_nil_r, <- app_assoc. by destruct r.
    + destruct (isBlank l) eqn:Hb.
      * rewrite line_blank, IH by done. unfold itemsOf. simpl. by rewrite Hb.
      * rewrite line_item, IH by done. unfold itemsOf. simpl. rewrite Hb. simpl.
        by rewrite <- app_assoc.
Qed.

Lemma fold_closed lines :
  closed (fold_left extractRules_line lines ([], None)) = sections lines.
Proof.
  induction lines as [|l rest IH]; [done|].
  cbn [fold_left sections]. destruct (isHeading l) eqn:Hh.
  - rewrite line_heading, fold_open by done. done.
  - by rewrite line_before.
Qed.

Lemma sections_titles lines :
  map title (sections lines)
    = map (fun line => trim (drop 3 line)) (List.filter isHeading lines).
Proof.
  induction lines as [|l rest IH]; [done|]. cbn [sections List.filter].
  destruct (isHeading l); [|done]. cbn [map title]. by rewrite IH.
Qed.

(** [extractRules] returns the rules of the text as its lines tell
    them: one rule for every line that starts with "## ", in order,
    titled by the rest of that line, trimmed, and holding the lines
    that follow it up to the next such line, trimmed, the blank ones
    left out.  What comes before the first such line is dropped. *)
Theorem extractRules_sections content :
  extractRules content = sections (splitLines content) /\
  map title (extractRules content)
    = map (fun line => trim (drop 3 line))
          (List.filter isHeading (splitLines content)).
Proof.
  assert (extractRules content = sections (splitLines content)) as Heq.
  { unfold extractRules. rewrite <- fold_closed. unfold closed, push.
    by destruct (fold_left _ _ _) as [rules [r|]]. }
  split; [done|]. rewrite Heq. apply sections_titles.
Qed.

Lemma replaced_run_short run : (run < 3)%nat -> replaced_run run = repeat LF run.
Proof.
  intros Hr. unfold replaced_run. destruct (Nat.leb_spec 3 run); [lia|done].
Qed.

Lemma includes_repeat_three run s :
  includes (repeat LF run ++ s) [LF; LF; LF] = false -> (run < 3)%nat.
Proof.
  intros Hi. destruct (Nat.lt_ge_cases run 3) as [|Hge]; [done|].
  replace run with (3 + (run - 3))%nat in Hi by lia.
  rewrite repeat_app in Hi. simpl in Hi. done.
Qed.

Lemma includes_app_r_false s t p : includes (s ++ t) p = false -> includes t p = false.
Proof.
  intros Hs. destruct (includes t p) eqn:Ht; [|done].
  by rewrite includes_app_r in Hs.
Qed.

Lemma repeat_shift {A} (x : A) n l : repeat x n ++ x :: l = repeat x (S n) ++ l.
Proof. induction n as [|n IH]; [done|]. simpl in *. by rewrite IH. Qed.

Lemma replace_newlines_clean run text :
  includes (repeat LF run ++ text) [LF; LF; LF] = false ->
  replace_newlines run text = repeat LF run ++ text.
Proof.
  revert run. induction text as [|c rest IH]; intros run Hi.
  - simpl. rewrite app_nil_r. apply replaced_run_short.
    by apply (includes_repeat_three run []).
  - cbn [replace_newlines]. destruct (N.eqb_spec c LF) as [->|Hc].
    + rewrite repeat_shift in *. by apply IH.
    + rewrite replaced_run_short by by apply (includes_repeat_three run (c :: rest)).
      rewrite (IH 0%nat); [done|].
      apply (includes_app_r_false (repeat LF run ++ [c])).
      by rewrite <- app_assoc.
Qed.

Lemma includes_run_then c rest k :
  (k <= 2)%nat -> c <> LF ->
  includes (repeat LF k ++ c :: rest) [LF; LF; LF] = includes rest [LF; LF; LF].
Proof.
  intros Hk Hc. apply N.eqb_neq in Hc.
  assert ((LF =? c) = false) as Hc' by (by rewrite N.eqb_sym).
  destruct k as [|[|[|k]]]; [| | |lia];
    cbn [includes startsWith repeat app]; rewrite ?Hc', ?N.eqb_refl;
    cbn [andb orb]; by rewrite ?andb_false_r.
Qed.

Lemma replaced_run_repeat run :
  exists k, (k <= 2)%nat /\ (k <= run)%nat /\ replaced_run run = repeat LF k.
Proof.
  unfold replaced_run. destruct (Nat.leb_spec 3 run).
  - exists 2%nat. split; [lia|]. split; [lia|done].
  - exists run. split; [lia|]. split; [lia|done].
Qed.

Lemma replace_newlines_no_three run text :
  includes (replace_newlines run text) [LF; LF; LF] = false.
Proof.
  revert run. induction text as [|c rest IH]; intros run.
  - cbn [replace_newlines].
    destruct (replaced_run_repeat run) as (k & Hk & _ & ->).
    destruct k as [|[|[|k]]]; [done|done|done|lia].
  - cbn [replace_newlines]. destruct (N.eqb_spec c LF) as [->|Hc]; [apply IH|].
    destruct (replaced_run_repeat run) as (k & Hk & _ & ->).
    rewrite includes_run_then by done. apply IH.
Qed.

Lemma splitLines_repeat_LF k s :
  splitLines (repeat LF k ++ s) = repeat [] k ++ splitLines s.
Proof. induction k as [|k IH]; [done|]. simpl. by rewrite IH. Qed.

Lemma replaced_run_min run : replaced_run run = repeat LF (Nat.min run 2).
Proof.
  unfold replaced_run. destruct (Nat.leb_spec 3 run).
  - by replace (Nat.min run 2) with 2%nat by lia.
  - by replace (Nat.min run 2) with run by lia.
Qed.

Lemma sublist_repeat {A} (x : A) k n : (k <= n)%nat -> sublist (repeat x k) (repeat x n).
Proof.
  intros Hk. replace n with ((n - k) + k)%nat by lia.
  rewrite repeat_app. by apply sublist_inserts_l.
Qed.

(** The lines after the replacement: the same first line, and of the
    others a sublist. *)
Lemma replace_newlines_lines run text :
  hd [] (splitLines (replace_newlines run text))
    = hd [] (splitLines (repeat LF run ++ text)) /\
  sublist (tl (splitLines (replace_newlines run text)))
          (tl (splitLines (repeat LF run ++ text))).
Proof.
  revert run. induction text as [|c rest IH]; intros run.
  - cbn [replace_newlines]. rewrite app_nil_r, replaced_run_min.
    rewrite <- (app_nil_r (repeat LF (Nat.min run 2))), <- (app_nil_r (repeat LF run)).
    rewrite !splitLines_repeat_LF. simpl.
    destruct run as [|run]; [done|].
    replace (Nat.min (S run) 2) with (S (Nat.min run 1)) by lia. simpl.
    split; [done|]. apply sublist_app; [|done]. apply sublist_repeat. lia.
  - cbn [replace_newlines]. destruct (N.eqb_spec c LF) as [->|Hc].
    + destruct (IH (S run)) as [Hhd Htl].
      by rewrite repeat_shift.
    + destruct (IH 0%nat) as [Hhd Htl]. simpl in Hhd, Htl.
      rewrite replaced_run_min.
      rewrite !splitLines_repeat_LF, !splitLines_cons_ne by done.
      rewrite Hhd.
      destruct run as [|run]; [done|].
      replace (Nat.min (S run) 2) with (S (Nat.min run 1)) by lia. simpl.
      split; [done|]. apply sublist_app; [apply sublist_repeat; lia|].
      by apply sublist_skip.
Qed.

Lemma Forall_of_sublist {A} (P : A -> Prop) (k l : list A) :
  sublist k l -> Forall P l -> Forall P k.
Proof.
  intros Hsub Hl. apply Forall_forall. intros x Hx.
  rewrite Forall_forall in Hl. apply Hl. by eapply elem_of_sublist.
Qed.



Lemma filter_replace_newlines run text :
  List.filter notWhiteSpace (replace_newlines run text) = List.filter notWhiteSpace text.
Proof.
  revert run. induction text as [|c rest IH]; intros run.
  - cbn [replace_newlines]. rewrite replaced_run_min.
    induction (Nat.min run 2); [done|]. simpl. done.
  - cbn [replace_newlines]. destruct (N.eqb_spec c LF) as [->|Hc].
    + rewrite IH. done.
    + rewrite List.filter_app, replaced_run_min.
      assert (List.filter notWhiteSpace (repeat LF (Nat.min run 2)) = []) as ->.
      { induction (Nat.min run 2); [done|]. simpl. done. }
      simpl. by rewrite IH.
Qed.

Lemma filter_whitespace ws :
  forallb isWhiteSpace ws = true -> List.filter notWhiteSpace ws = [].
Proof.
  induction ws as [|c ws IH]; [done|]. simpl.
  intros [Hc Hws]%andb_prop. unfold notWhiteSpace at 1. rewrite Hc. simpl. auto.
Qed.

Lemma filter_trimEnd l :
  List.filter notWhiteSpace (trimEnd l) = List.filter notWhiteSpace l.
Proof.
  destruct (trimEnd_split l) as (after & Heq & Hws).
  rewrite Heq at 2. rewrite List.filter_app, (filter_whitespace after Hws).
  by rewrite app_nil_r.
Qed.

Lemma filter_joinLines ls :
  List.filter notWhiteSpace (joinLines ls)
    = concat (map (List.filter notWhiteSpace) ls).
Proof.
  induction ls as [|l ls IH]; [done|].
  destruct ls as [|l' ls].
  - simpl. by rewrite app_nil_r.
  - rewrite joinLines_cons by done. rewrite List.filter_app. simpl List.filter at 2.
    cbn [map concat]. f_equal. exact IH.
Qed.


Lemma optimize_lines content :
  splitLines (joinLines (map trimEnd (splitLines content)))
    = map trimEnd (splitLines content).
Proof.
  apply splitLines_joinLines.
  - pose proof (splitLines_nonempty content). by destruct (splitLines content).
  - apply Forall_map. eapply Forall_impl; [apply splitLines_noLF|].
    intros l Hl. by apply trimEnd_noLF.
Qed.

Lemma optimize_rightTrimmed content :
  Forall rightTrimmed (splitLines (optimizeSkillContent content)).
Proof.
  unfold optimizeSkillContent.
  destruct (replace_newlines_lines 0
              (joinLines (map trimEnd (splitLines content)))) as [Hhd Htl].
  simpl in Hhd, Htl. rewrite optimize_lines in Hhd, Htl.
  assert (Forall rightTrimmed (map trimEnd (splitLines content))) as Hall.
  { apply Forall_map, Forall_true. intros l. apply trimEnd_idem. }
  pose proof (splitLines_nonempty
                (replace_newlines 0 (joinLines (map trimEnd (splitLines content))))).
  destruct (splitLines (replace_newlines 0 _)) as [|l ls]; [done|].
  simpl in Hhd, Htl. constructor.
  - rewrite Hhd. pose proof (splitLines_nonempty content).
    destruct (splitLines content); [done|]. simpl. apply trimEnd_idem.
  - eapply Forall_of_sublist; [exact Htl|].
    destruct (map trimEnd (splitLines content)); [constructor|].
    by apply Forall_cons in Hall as [_ ?].
Qed.

Lemma optimize_no_three content :
  includes (optimizeSkillContent content) [LF; LF; LF] = false.
Proof. apply replace_newlines_no_three. Qed.

(** What [optimizeSkillContent] returns has no three line breaks in a
    row and no white space at the end of a line, and it has the
    characters of the text that are not white space, all of them and
    in their order: only white space is ever removed. *)
Theorem optimizeSkillContent_shape content :
  includes (optimizeSkillContent content) [LF; LF; LF] = false /\
  Forall rightTrimmed (splitLines (optimizeSkillContent content)) /\
  List.filter notWhiteSpace (optimizeSkillContent content)
    = List.filter notWhiteSpace content.
Proof.
  split; [apply optimize_no_three|]. split; [apply optimize_rightTrimmed|].
  unfold optimizeSkillContent.
  rewrite filter_replace_newlines, filter_joinLines, map_map.
  rewrite <- (joinLines_splitLines content) at 2. rewrite filter_joinLines.
  f_equal. apply map_ext. intros l. apply filter_trimEnd.
Qed.

(** [optimizeSkillContent] returns a text as it is exactly when the
    text has no three line breaks in a row and no white space at the
    end of a line; so applying it twice is applying it once. *)
Theorem optimizeSkillContent_idempotent content :
  (optimizeSkillContent content = content <->
   includes content [LF; LF; LF] = false /\
   Forall rightTrimmed (splitLines content)) /\
  optimizeSkillContent (optimizeSkillContent content)
    = optimizeSkillContent content.
Proof.
  assert (forall text,
            includes text [LF; LF; LF] = false ->
            Forall rightTrimmed (splitLines text) ->
            optimizeSkillContent text = text) as Hclean.
  { intros text H3 Hl. unfold optimizeSkillContent.
    assert (map trimEnd (splitLines text) = splitLines text) as ->.
    { rewrite <- (map_id (splitLines text)) at 2.
      apply map_ext_Forall. exact Hl. }
    rewrite joinLines_splitLines. by rewrite (replace_newlines_clean 0). }
  split; [split|].
  - intros Heq. rewrite <- Heq.
    split; [apply optimize_no_three | apply optimize_rightTrimmed].
  - intros [H3 Hl]. by apply Hclean.
  - apply Hclean; [apply optimize_no_three | apply optimize_rightTrimmed].
Qed.

End RuleFacts.

(** ** Listing and discovering skills *)

Module OrderFacts.
Import Listing.

Lemma str_ltb_irrefl a : str_ltb a a = false.
Proof.
  induction a as [|c a IH]; [done|]. simpl.
  by rewrite N.ltb_irrefl, N.eqb_refl, IH.
Qed.

Lemma str_ltb_asym a b : str_ltb a b = true -> str_ltb b a = false.
Proof.
  revert b. induction a as [|c a IH]; intros [|d b]; simpl; try done.
  intros [Hlt|[Heq Hab]%andb_prop]%orb_prop.
  - apply N.ltb_lt in Hlt.
    assert ((d <? c) = false) as -> by (apply N.ltb_ge; lia).
    assert ((d =? c) = false) as -> by (apply N.eqb_neq; lia). done.
  - apply N.eqb_eq in Heq as ->. rewrite N.ltb_irrefl, N.eqb_refl. simpl. by apply IH.
Qed.

Lemma str_ltb_trichotomy a b : str_ltb a b = true \/ a = b \/ str_ltb b a = true.
Proof.
  revert b. induction a as [|c a IH]; intros [|d b]; simpl; auto.
  destruct (N.lt_trichotomy c d) as [Hlt|[->|Hgt]].
  - left. apply N.ltb_lt in Hlt. by rewrite Hlt.
  - rewrite N.ltb_irrefl, N.eqb_refl. simpl.
    destruct (IH b) as [?|[->|?]]; auto.
  - right. right. apply N.ltb_lt in Hgt. by rewrite Hgt.
Qed.

Lemma str_ltb_trans a b c :
  str_ltb a b = true -> str_ltb b c = true -> str_ltb a c = true.
Proof.
  revert b c. induction a as [|x a IH]; intros [|y b] [|z c]; simpl; try done.
  intros [Hxy|[Hxy Hab]%andb_prop]%orb_prop [Hyz|[Hyz Hbc]%andb_prop]%orb_prop.
  - apply N.ltb_lt in Hxy, Hyz.
    assert ((x <? z) = true) as -> by (apply N.ltb_lt; lia). done.
  - apply N.ltb_lt in Hxy. apply N.eqb_eq in Hyz as <-.
    apply N.ltb_lt in Hxy. by rewrite Hxy.
  - apply N.eqb_eq in Hxy as ->. by rewrite Hyz.
  - apply N.eqb_eq in Hxy as ->. apply N.eqb_eq in Hyz as ->.
    rewrite N.eqb_refl, (IH b c) by done. simpl. apply orb_true_r.
Qed.

Lemma str_le_alt a b : str_le a b <-> str_ltb a b = true \/ a = b.
Proof.
  unfold str_le. split.
  - intros Hba. destruct (str_ltb_trichotomy a b) as [?|[?|Hgt]]; auto. congruence.
  - intros [Hab| ->]; [by apply str_ltb_asym | apply str_ltb_irrefl].
Qed.

#[global] Instance str_le_total : base.Total str_le.
Proof.
  intros a b. unfold str_le.
  destruct (str_ltb b a) eqn:Hba; [|by left]. right. by apply str_ltb_asym.
Qed.

#[global] Instance str_le_trans : Transitive str_le.
Proof.
  intros a b c. rewrite !str_le_alt.
  intros [Hab| ->] [Hbc| ->]; eauto using str_ltb_trans.
Qed.

#[global] Instance str_le_antisym : AntiSymm eq str_le.
Proof.
  intros a b [Hab| ->]%str_le_alt Hba; [|done].
  unfold str_le in Hba. congruence.
Qed.

Lemma sort_sorted l : StronglySorted str_le (sort l).
Proof. apply StronglySorted_merge_sort; apply _. Qed.

Lemma sort_permutation l : sort l ≡ₚ l.
Proof. apply merge_sort_Permutation. Qed.

End OrderFacts.
Export OrderFacts.

Module ListingFacts.
Import Listing Terms OrderFacts.
Section ListingFacts.
Context {W : Type} `{Deno W} `{Shell W}.

Lemma findSkillFile_ReadOnly dir : ReadOnly (findSkillFile dir).
Proof. unfold findSkillFile. read_only. Qed.
#[local] Hint Resolve findSkillFile_ReadOnly : readonly.

Lemma listSkills_loop_ReadOnly base entries skills :
  ReadOnly (listSkills_loop base entries skills).
Proof.
  revert skills. induction entries as [|entry rest IH]; intros skills; simpl.
  - read_only.
  - destruct (entryIsDirectory entry); [|apply IH].
    apply ReadOnly_bind; [eauto with readonly|]. intros. apply IH.
Qed.

Lemma discoverSkills_loop_ReadOnly base entries skills :
  ReadOnly (discoverSkills_loop base entries skills).
Proof.
  revert skills. induction entries as [|entry rest IH]; intros skills; simpl.
  - read_only.
  - destruct (entryIsDirectory entry); [|apply IH].
    apply ReadOnly_bind; [eauto with readonly|]. intros. apply IH.
Qed.
#[local] Hint Resolve listSkills_loop_ReadOnly discoverSkills_loop_ReadOnly : readonly.

Lemma listSkills_ReadOnly targetDir : ReadOnly (listSkills targetDir).
Proof. unfold listSkills. read_only. Qed.

Lemma discoverSkills_ReadOnly parentDir : ReadOnly (discoverSkills parentDir).
Proof. unfold discoverSkills. read_only. Qed.

Lemma bind_reading {A B} (f : W -> outcome A) (k : A -> M W B) s :
  bind (reading f) k s
    = match f (world s) with
      | Returned a => k a s
      | Thrown e => (Thrown e, s)
      end.
Proof. unfold bind, reading. by destruct (f (world s)). Qed.

Lemma findSkillFile_run base entry s found :
  (exists_ (manifestOf base entry) s).1 = Returned found ->
  findSkillFile (path_join base (entryName entry)) s
    = (Returned (if found then Some (manifestOf base entry) else None), s).
Proof.
  intros Hfound. unfold findSkillFile.
  rewrite bind_ReadOnly by eauto with readonly.
  fold (manifestOf base entry). rewrite Hfound. by destruct found.
Qed.

Lemma holdsSkill_found base s entry found :
  entryIsDirectory entry = true ->
  (exists_ (manifestOf base entry) s).1 = Returned found ->
  holdsSkill base s entry
    = match truthy_string (if found then Some (manifestOf base entry) else None) with
      | Some _ => true
      | None => false
      end.
Proof.
  intros Hdir Hfound. unfold holdsSkill. rewrite Hdir, Hfound. simpl.
  destruct found; [|done]. by destruct (manifestOf base entry).
Qed.

Lemma listSkills_loop_run base entries skills s :
  Probed base s entries ->
  listSkills_loop base entries skills s
    = (Returned (skills ++ map entryName (List.filter (holdsSkill base s) entries)), s).
Proof.
  intros Hall. revert skills.
  induction Hall as [|entry rest Hentry _ IH]; intros skills; simpl.
  - by rewrite app_nil_r.
  - destruct (entryIsDirectory entry) eqn:Hdir.
    + destruct (Hentry eq_refl) as [found Hfound].
      unfold bind. rewrite (findSkillFile_run _ _ _ _ Hfound).
      rewrite IH, (holdsSkill_found _ _ _ _ Hdir Hfound).
      destruct (truthy_string _); [|done].
      unfold push. simpl. by rewrite <- app_assoc.
    + rewrite IH. unfold holdsSkill at 2. by rewrite Hdir.
Qed.

Lemma discoverSkills_loop_run base entries skills s :
  Probed base s entries ->
  discoverSkills_loop base entries skills s
    = (Returned (skills ++ map (fun entry => path_join base (entryName entry))
                               (List.filter (holdsSkill base s) entries)), s).
Proof.
  intros Hall. revert skills.
  induction Hall as [|entry rest Hentry _ IH]; intros skills; simpl.
  - by rewrite app_nil_r.
  - destruct (entryIsDirectory entry) eqn:Hdir.
    + destruct (Hentry eq_refl) as [found Hfound].
      unfold bind. rewrite (findSkillFile_run _ _ _ _ Hfound).
      rewrite IH, (holdsSkill_found _ _ _ _ Hdir Hfound).
      destruct (truthy_string _); [|done].
      unfold push. simpl. by rewrite <- app_assoc.
    + rewrite IH. unfold holdsSkill at 2. by rewrite Hdir.
Qed.

(** [listSkills] returns nothing when the directory is not there.
    When it is, and looking for the manifests does not fail, it
    returns the names of the entries that are directories with a
    SKILL.md in them, and no others, each as often as it is listed,
    sorted by code units; and it changes nothing. *)
Theorem listSkills_lists targetDir s expanded :
  (expandHome targetDir s).1 = Returned expanded ->
  ((exists_ expanded s).1 = Returned false ->
   listSkills targetDir s = (Returned [], s)) /\
  (forall entries,
     (exists_ expanded s).1 = Returned true ->
     Deno_readDir expanded (world s) = Returned entries ->
     Probed expanded s entries ->
     let skills := map entryName (List.filter (holdsSkill expanded s) entries) in
     listSkills targetDir s = (Returned (sort skills), s) /\
     StronglySorted str_le (sort skills) /\
     sort skills ≡ₚ skills).
Proof.
  intros Hexp. unfold listSkills.
  rewrite bind_ReadOnly, Hexp by eauto with readonly.
  rewrite bind_ReadOnly by eauto with readonly. split.
  - by intros ->.
  - intros entries -> Hdir Hprobed. cbn [negb].
    split; [|split; [apply sort_sorted | apply sort_permutation]].
    rewrite bind_reading, Hdir.
    unfold bind. rewrite listSkills_loop_run by done. done.
Qed.

(** [discoverSkills] throws "Directory not found" when the resolved
    directory is not there.  When it is, and looking for the manifests
    does not fail, it returns the paths of the entries that are
    directories with a SKILL.md in them, and no others, sorted by code
    units; and it changes nothing. *)
Theorem discoverSkills_finds parentDir s :
  let resolved := path_resolve parentDir (world s) in
  ((exists_ resolved s).1 = Returned false ->
   discoverSkills parentDir s
     = (Thrown (newError (js "Directory not found: " ++ parentDir)), s)) /\
  (forall entries,
     (exists_ resolved s).1 = Returned true ->
     Deno_readDir resolved (world s) = Returned entries ->
     Probed resolved s entries ->
     let skills := map (fun entry => path_join resolved (entryName entry))
                       (List.filter (holdsSkill resolved s) entries) in
     discoverSkills parentDir s = (Returned (sort skills), s) /\
     StronglySorted str_le (sort skills) /\
     sort skills ≡ₚ skills).
Proof.
  cbv zeta. unfold discoverSkills.
  rewrite bind_reading.
  rewrite bind_ReadOnly by eauto with readonly. split.
  - by intros ->.
  - intros entries -> Hdir Hprobed. cbn [negb].
    split; [|split; [apply sort_sorted | apply sort_permutation]].
    rewrite bind_reading, Hdir.
    unfold bind. rewrite discoverSkills_loop_run by done. done.
Qed.

End ListingFacts.
End ListingFacts.
Export ListingFacts.

(** ** Printing errors, cutting a manifest *)

Module FormatFacts.
Import Listing Terms.


Lemma digits_of_uint d : Forall isDigit (js (NilEmpty.string_of_uint d)).
Proof.
  induction d; simpl; [constructor|..];
    (constructor; [unfold isDigit; simpl; lia | exact IHd]).
Qed.

Lemma decimal_digits n : Forall isDigit (decimal n).
Proof.
  unfold decimal, NilZero.string_of_uint.
  pose proof (digits_of_uint (Nat.to_uint n)) as Hd.
  destruct (Nat.to_uint n); try exact Hd.
  constructor; [unfold isDigit; simpl; lia | constructor].
Qed.

Lemma decimal_noLF n : noLF (decimal n).
Proof.
  unfold noLF. intros Hin.
  pose proof (decimal_digits n) as Hd. rewrite Forall_forall in Hd.
  specialize (Hd _ Hin). unfold isDigit, LF in Hd. lia.
Qed.

Lemma noLF_app a b : noLF a -> noLF b -> noLF (a ++ b).
Proof. unfold noLF. intros Ha Hb [?|?]%elem_of_app; auto. Qed.

Lemma noLF_js_check s : forallb (fun c => negb (c =? LF)) s = true -> noLF s.
Proof.
  unfold noLF. intros Hall Hin. rewrite forallb_forall in Hall.
  apply list_elem_of_In in Hin. specialize (Hall _ Hin).
  by rewrite N.eqb_refl in Hall.
Qed.

Ltac noLF_literal := apply noLF_js_check; vm_compute; reflexivity.

Lemma tooLong_noLF limit len : noLF (tooLong limit len).
Proof.
  unfold tooLong. repeat apply noLF_app; try apply decimal_noLF; noLF_literal.
Qed.

Lemma itemMessage_noLF index : noLF (itemMessage index).
Proof.
  unfold itemMessage. repeat apply noLF_app; try apply decimal_noLF; noLF_literal.
Qed.

Lemma Violation_noLF m e : Violation m e -> noLF (errorLine e).
Proof.
  destruct 1; unfold errorLine, mkError; cbn [field message];
    repeat apply noLF_app; first [apply decimal_noLF | noLF_literal].
Qed.

(** The errors of a manifest header, printed by [formatErrors], are
    one line each: cutting the text at its line breaks gives back the
    line of every error, in the order of the errors. *)
Theorem formatErrors_lines m :
  validateMetadata m <> [] ->
  splitLines (formatErrors (validateMetadata m)) = map errorLine (validateMetadata m).
Proof.
  intros Hne. unfold formatErrors. fold errorLine.
  apply splitLines_joinLines.
  - by destruct (validateMetadata m).
  - apply Forall_map, Forall_forall. intros e He.
    by apply (Violation_noLF m), Violation_sound.
Qed.

End FormatFacts.

Module FrontmatterFacts.
Import Terms.
Section FrontmatterFacts.
Context {W : Type} `{Deno W}.


Lemma findIndex_app_first {A} (p : A -> bool) before x after :
  Forall (fun y => p y = false) before -> p x = true ->
  findIndex p (before ++ x :: after) = Some (length before).
Proof.
  intros Hbefore Hx. induction Hbefore as [|y before Hy _ IH]; simpl.
  - by rewrite Hx.
  - by rewrite Hy, IH.
Qed.

Lemma findIndex_split {A} (p : A -> bool) l i :
  findIndex p l = Some i ->
  exists x, l = take i l ++ x :: drop (S i) l /\ p x = true /\
            Forall (fun y => p y = false) (take i l).
Proof.
  intros Hfind. destruct (findIndex_Some _ _ _ Hfind) as (x & Hx & Hpx & Hbefore).
  exists x. split; [|split; [done|]].
  - by rewrite take_drop_middle.
  - apply Forall_forall. intros y Hy.
    apply list_elem_of_lookup in Hy as [j Hj].
    apply lookup_take_Some in Hj as [Hj Hlt]. eauto.
Qed.

(** [parseFrontmatter] returns a skill exactly when the lines of the
    text are a first line that is "---" once trimmed, then the lines
    of the header, none of them such a line, then a closing line that
    is, then the lines of the body, and the header parses as YAML; the
    skill has the parsed header, the body lines joined again, and the
    text itself as [raw]. *)
Theorem parseFrontmatter_parts text skill :
  parseFrontmatter text = Returned skill <->
  exists first yamlLines closing contentLines,
    splitLines text = first :: yamlLines ++ closing :: contentLines /\
    trim first = js "---" /\
    Forall (fun line => trim line <> js "---") yamlLines /\
    trim closing = js "---" /\
    parseYaml (joinLines yamlLines) = Returned (metadata skill) /\
    content skill = joinLines contentLines /\
    raw skill = text.
Proof.
  unfold parseFrontmatter, slice, slice_from. split.
  - destruct (str_eqb (trim (hd [] (splitLines text))) (js "---")) eqn:Hfirst;
      [|done]. cbn [negb].
    apply bool_decide_eq_true in Hfirst.
    pose proof (splitLines_nonempty text) as Hne.
    destruct (splitLines text) as [|first rest]; [done|]. cbn [hd skipn] in *. rewrite !drop_0.
    destruct (findIndex (fun line => str_eqb (trim line) (js "---")) rest)
      as [endIndex|] eqn:Hfind; [|done].
    destruct (findIndex_split _ _ _ Hfind) as (closing & Hrest & Hclosing & Hbefore).
    replace (endIndex + 1 - 1)%nat with endIndex by lia.
    replace (endIndex + 2)%nat with (S (S endIndex)) by lia. cbn [skipn].
    destruct (parseYaml _) as [m|e] eqn:Hyaml; [|done].
    intros [= <-]. simpl.
    exists first, (take endIndex rest), closing, (drop (S endIndex) rest).
    split; [by rewrite <- Hrest|]. split; [done|]. split.
    { eapply Forall_impl; [exact Hbefore|]. intros line Hline.
      by apply bool_decide_eq_false in Hline. }
    split; [by apply bool_decide_eq_true in Hclosing|]. done.
  - intros (first & yamlLines & closing & contentLines
            & -> & Hfirst & Hyaml & Hclosing & Hparse & Hcontent & Hraw).
    cbn [hd skipn]. rewrite !drop_0. unfold str_eqb at 1. rewrite bool_decide_true by done. cbn [negb].
    rewrite (findIndex_app_first _ yamlLines closing contentLines).
    + replace (length yamlLines + 1 - 1)%nat with (length yamlLines) by lia.
      replace (length yamlLines + 2)%nat with (S (S (length yamlLines))) by lia.
      rewrite skipn_cons, take_app_length.
      replace (S (length yamlLines)) with (length (yamlLines ++ [closing])).
      2: { rewrite length_app. simpl. lia. }
      replace (yamlLines ++ closing :: contentLines)
        with ((yamlLines ++ [closing]) ++ contentLines) by (by rewrite <- app_assoc).
      rewrite drop_app_length.
      rewrite Hparse. destruct skill as [m c r]. simpl in *. by subst.
    + eapply Forall_impl; [exact Hyaml|]. intros line Hline.
      by apply bool_decide_eq_false.
    + by apply bool_decide_eq_true.
Qed.

End FrontmatterFacts.
End FrontmatterFacts.

(** ** What is added to the record of effects *)

Module EffectFacts.
Import Terms.
Section EffectFacts.
Context {W : Type} `{Deno W}.

Lemma Adds_ReadOnly P {A} (m : M W A) : ReadOnly m -> Adds P m.
Proof. intros Hm s. exists []. rewrite Hm, app_nil_r. by split. Qed.

Lemma Adds_ret P {A} (a : A) : Adds (W:=W) P (ret a).
Proof. apply Adds_ReadOnly, ReadOnly_ret. Qed.

Lemma Adds_throw P {A} e : Adds (W:=W) (A:=A) P (throw e).
Proof. apply Adds_ReadOnly, ReadOnly_throw. Qed.

Lemma Adds_acting (P : Effect -> Prop) {A} ev (f : W -> outcome A * W) :
  P ev -> Adds P (acting ev f).
Proof.
  intros Hev s. exists [ev]. unfold acting.
  destruct (f (world s)) as [r w']. split; [done|]. by constructor.
Qed.

Lemma Adds_bind P {A B} (m : M W A) (k : A -> M W B) :
  Adds P m -> (forall a, Adds P (k a)) -> Adds P (bind m k).
Proof.
  intros Hm Hk s. unfold bind. destruct (Hm s) as (new & Heq & Hnew).
  destruct (m s) as [[a|e] s1]; simpl in *; [|by exists new].
  destruct (Hk a s1) as (new' & Heq' & Hnew').
  exists (new ++ new'). rewrite Heq', Heq, app_assoc. split; [done|].
  by apply Forall_app.
Qed.

Lemma Adds_try_catch P {A} (m : M W A) (h : Error -> M W A) :
  Adds P m -> (forall e, Adds P (h e)) -> Adds P (try_catch m h).
Proof.
  intros Hm Hh s. unfold try_catch. destruct (Hm s) as (new & Heq & Hnew).
  destruct (m s) as [[a|e] s1]; simpl in *; [by exists new|].
  destruct (Hh e s1) as (new' & Heq' & Hnew').
  exists (new ++ new'). rewrite Heq', Heq, app_assoc. split; [done|].
  by apply Forall_app.
Qed.

Lemma Adds_try_finally P {A} (m : M W A) (final : M W unit) :
  Adds P m -> Adds P final -> Adds P (try_finally m final).
Proof.
  intros Hm Hf s. unfold try_finally. destruct (Hm s) as (new & Heq & Hnew).
  destruct (m s) as [r s1]; simpl in *.
  destruct (Hf s1) as (new' & Heq' & Hnew').
  exists (new ++ new'). rewrite app_assoc, <- Heq.
  destruct (final s1) as [[[]|e] s2]; simpl in *; split; try done;
    by apply Forall_app.
Qed.

Lemma Adds_or_continue P {A} (m : M W (option A)) (rest : M W A) :
  Adds P m -> Adds P rest -> Adds P (or_continue m rest).
Proof.
  intros Hm Hrest. apply Adds_bind; [done|].
  intros [r|]; [apply Adds_ret | done].
Qed.

Lemma Adds_for_of P {A} (xs : list A) (body : A -> M W unit) :
  (forall x, Adds P (body x)) -> Adds P (for_of xs body).
Proof.
  intros Hbody. induction xs as [|x xs IH]; simpl.
  - apply Adds_ret.
  - apply Adds_bind; [apply Hbody | by intros].
Qed.

Lemma Adds_weaken (P Q : Effect -> Prop) {A} (m : M W A) :
  (forall e, P e -> Q e) -> Adds P m -> Adds Q m.
Proof.
  intros HPQ Hm s. destruct (Hm s) as (new & Heq & Hnew).
  exists new. split; [done|]. eapply Forall_impl; eauto.
Qed.

End EffectFacts.
End EffectFacts.
Export EffectFacts.

Create HintDb adds.

Ltac adds :=
  repeat first
    [ progress intros
    | solve [eauto with adds]
    | apply Adds_ret | apply Adds_throw
    | apply Adds_bind | apply Adds_try_catch | apply Adds_try_finally
    | apply Adds_or_continue | apply Adds_for_of
    | apply Adds_acting; solve [simpl; auto]
    | match goal with
      | |- Terms.Adds _ (if ?b then _ else _) => destruct b
      | |- Terms.Adds _ (match ?x with _ => _ end) => destruct x
      end
    | solve [apply Adds_ReadOnly; read_only] ].

Module CreateFacts.
Import Terms.
Section CreateFacts.
Context {W : Type} `{Deno W}.

Lemma ensureDir_creates path : Adds creating (ensureDir path).
Proof. unfold ensureDir. adds. Qed.
#[local] Hint Resolve ensureDir_creates : adds.

Lemma copyDir_at_creates depth src dest : Adds creating (copyDir_at depth src dest).
Proof.
  revert src dest. induction depth as [|depth IH]; intros src dest; simpl.
  - adds.
  - apply Adds_bind; [apply ensureDir_creates|]. intros _.
    apply Adds_bind; [apply Adds_ReadOnly, ReadOnly_reading|]. intros entries.
    apply Adds_for_of. intros entry.
    destruct (entryIsDirectory entry); [apply IH|].
    by apply Adds_acting.
Qed.

Lemma copyDir_creates src dest : Adds creating (copyDir src dest).
Proof. apply copyDir_at_creates. Qed.
#[local] Hint Resolve copyDir_creates : adds.

Lemma deployTarget_creates skillDir skillName options target :
  force options = false ->
  Adds creating (deployTarget skillDir skillName options target).
Proof.
  intros Hforce. destruct target; simpl;
    unfold deployToClaudeOrCodex, deployToCursor; rewrite Hforce; simpl; adds.
Qed.

Lemma deploySkill_loop_creates skillDir skillName options todo results :
  force options = false ->
  Adds creating (deploySkill_loop skillDir skillName options todo results).
Proof.
  intros Hforce. revert results.
  induction todo as [|target rest IH]; intros results; simpl.
  - adds.
  - apply Adds_bind; [by apply deployTarget_creates|]. intros. apply IH.
Qed.

(** Without force, [deploySkill] removes nothing and runs nothing:
    whatever the targets and the state, all it does is create
    directories, copy files and write the rules file. *)
Theorem deploySkill_without_force skillDir options s :
  force options = false ->
  exists new,
    effects (deploySkill skillDir options s).2 = effects s ++ new /\
    Forall creating new.
Proof.
  intros Hforce. revert s. change (Adds creating (deploySkill skillDir options)).
  unfold deploySkill.
  apply Adds_bind; [apply Adds_ReadOnly; eauto with readonly|].
  intros skill. apply Adds_bind; [apply Adds_ReadOnly, ReadOnly_lift|].
  intros skillName. by apply deploySkill_loop_creates.
Qed.

End CreateFacts.
End CreateFacts.
Export CreateFacts.

(** ** Dry runs *)

Module DryRun.
Import Terms.
Section DryRun.
Context {W : Type} `{Deno W}.

Lemma try_catch_read {A B} (m : M W A) (k : A -> M W B) h s :
  ReadOnly m ->
  try_catch (bind m k) h s
    = match (m s).1 with
      | Returned a => try_catch (k a) h s
      | Thrown e => h e s
      end.
Proof.
  intros Hm. unfold try_catch. rewrite bind_ReadOnly by done.
  by destruct ((m s).1).
Qed.

Lemma try_catch_or_read {A B} (m : M W A) (f : A -> M W (option B)) rest h s :
  ReadOnly m ->
  try_catch (or_continue (bind m f) rest) h s
    = match (m s).1 with
      | Returned a => try_catch (or_continue (f a) rest) h s
      | Thrown e => h e s
      end.
Proof.
  intros Hm. unfold try_catch. rewrite or_continue_bind, bind_ReadOnly by done.
  by destruct ((m s).1).
Qed.

Lemma try_catch_or_none {A} (a : M W unit) (rest : M W A) h s :
  try_catch (or_continue (bind a (fun _ => ret None)) rest) h s
    = try_catch (bind a (fun _ => rest)) h s.
Proof. unfold try_catch, or_continue, bind. by destruct (a s) as [[[]|e] s1]. Qed.

Lemma try_catch_assoc {A B C} (m : M W A) (f : A -> M W B) (g : B -> M W C) h s :
  try_catch (bind m (fun a => bind (f a) g)) h s
    = try_catch (bind (bind m f) g) h s.
Proof. unfold try_catch. by rewrite bind_assoc. Qed.

(** The end of a deployment that has passed its checks: what is left
    changes the machine, and it either goes through or fails having
    started. *)
Lemma mutation_outcome (mut : M W unit) (succ : DeployResult)
    (fail : Error -> DeployResult) ev s :
  (exists rest, effects (mut s).2 = effects s ++ ev :: rest) ->
  success succ = true ->
  (forall e, success (fail e) = false) ->
  exists rn sn,
    try_catch (bind mut (fun _ => ret succ)) (fun e => ret (fail e)) s
      = (Returned rn, sn) /\
    ((succ = rn /\ (success rn = false -> sn = s)) \/
     (success succ = true /\ success rn = false /\
      exists ev rest, effects sn = effects s ++ ev :: rest)).
Proof.
  intros [rest Hrest] Hsucc Hfail. unfold try_catch, bind.
  destruct (mut s) as [[[]|e] s1]; cbn [snd] in Hrest.
  - exists succ, s1. split; [done|]. left. split; [done|]. congruence.
  - exists (fail e), s1. split; [done|]. right. eauto.
Qed.

Lemma begins_acting {A B} ev (f : W -> outcome A * W) (k : A -> M W B) s :
  (forall a, Adds (fun _ => True) (k a)) ->
  exists rest, effects (bind (acting ev f) k s).2 = effects s ++ ev :: rest.
Proof.
  intros Hk. unfold bind, acting.
  destruct (f (world s)) as [[a|e] w1]; [|by exists []].
  destruct (Hk a {| world := w1; effects := effects s ++ [ev] |}) as (new & Heq & _).
  exists new. rewrite Heq. cbn [effects]. by rewrite <- app_assoc.
Qed.

Lemma begins_ensureDir {B} path (k : unit -> M W B) s :
  (forall a, Adds (fun _ => True) (k a)) ->
  exists rest, effects (bind (ensureDir path) k s).2 = effects s ++ EMkdir path :: rest.
Proof.
  intros Hk. unfold bind, ensureDir, try_catch, acting.
  destruct (Deno_mkdir path (world s)) as [[[]|e] w1].
  - destruct (Hk tt {| world := w1; effects := effects s ++ [EMkdir path] |})
      as (new & Heq & _).
    exists new. rewrite Heq. cbn [effects]. by rewrite <- app_assoc.
  - destruct (negb (isAlreadyExists e)); [by exists []|].
    unfold ret.
    destruct (Hk tt {| world := w1; effects := effects s ++ [EMkdir path] |})
      as (new & Heq & _).
    exists new. rewrite Heq. cbn [effects]. by rewrite <- app_assoc.
Qed.

Lemma copyDir_adds src dest : Adds (fun _ => True) (copyDir src dest).
Proof. eapply Adds_weaken; [|apply copyDir_creates]. done. Qed.

Lemma ensureDir_adds path : Adds (fun _ => True) (ensureDir path).
Proof. eapply Adds_weaken; [|apply ensureDir_creates]. done. Qed.

Ltac same_outcome :=
  eexists _, _, _; split; [reflexivity|]; split; [reflexivity|]; by left.

Lemma deployToClaudeOrCodex_dry_real skillDir target skillName options s :
  exists rd rn sn,
    deployToClaudeOrCodex skillDir target skillName (setDryRun true options) s
      = (Returned rd, s) /\
    deployToClaudeOrCodex skillDir target skillName (setDryRun false options) s
      = (Returned rn, sn) /\
    ((rd = rn /\ (success rn = false -> sn = s)) \/
     (success rd = true /\ success rn = false /\
      exists ev rest, effects sn = effects s ++ ev :: rest)).
Proof.
  unfold deployToClaudeOrCodex.
  cbn [dryRun force setDryRun negb].
  rewrite !(try_catch_read (expandHome _)) by eauto with readonly.
  destruct ((expandHome _ s).1) as [expandedBase|e]; [|same_outcome].
  rewrite !(try_catch_read (join_unchecked _ _)) by eauto with readonly.
  destruct ((join_unchecked _ _ s).1) as [targetPath|e]; [|same_outcome].
  rewrite !(try_catch_or_read (exists_ _)) by eauto with readonly.
  destruct ((exists_ _ s).1) as [present|e]; [|same_outcome].
  set (succ := deploySuccess target targetPath).
  set (fail := fun e : Error => deployFailure target (errorMessage e)).
  assert (forall body : M W DeployResult,
            (exists rn sn,
               try_catch body (fun e => ret (fail e)) s = (Returned rn, sn) /\
               ((succ = rn /\ (success rn = false -> sn = s)) \/
                (success succ = true /\ success rn = false /\
                 exists ev rest, effects sn = effects s ++ ev :: rest))) ->
            exists rd rn sn,
              (Returned succ, s) = (Returned rd, s) /\
              try_catch body (fun e => ret (fail e)) s = (Returned rn, sn) /\
              ((rd = rn /\ (success rn = false -> sn = s)) \/
               (success rd = true /\ success rn = false /\
                exists ev rest, effects sn = effects s ++ ev :: rest))) as Hfrom.
  { intros body (rn & sn & Hrun & Hagree). by exists succ, rn, sn. }
  destruct present; [destruct (force options); cbn [negb]|].
  - (* the destination is removed first *)
    change (try_catch (or_continue (bind (ret tt) (fun _ => ret None)) _) _ s)
      with (@Returned DeployResult succ, s).
    apply Hfrom. rewrite try_catch_or_none, try_catch_assoc.
    eapply mutation_outcome; [|done..].
    apply begins_acting. intros _.
    apply Adds_bind; [apply ensureDir_adds | intros _; apply copyDir_adds].
  - same_outcome.
  - change (try_catch (or_continue (ret None) (bind (ret tt) _)) _ s)
      with (@Returned DeployResult succ, s).
    apply Hfrom.
    change (try_catch (or_continue (ret None) ?rest) ?h s) with (try_catch rest h s).
    eapply mutation_outcome; [|done..].
    apply begins_ensureDir. intros _. apply copyDir_adds.
Qed.

Lemma deployToCursor_dry_real skillDir options s :
  exists rd rn sn,
    deployToCursor skillDir (setDryRun true options) s = (Returned rd, s) /\
    deployToCursor skillDir (setDryRun false options) s = (Returned rn, sn) /\
    ((rd = rn /\ (success rn = false -> sn = s)) \/
     (success rd = true /\ success rn = false /\
      exists ev rest, effects sn = effects s ++ ev :: rest)).
Proof.
  unfold deployToCursor.
  cbn [dryRun force setDryRun negb].
  rewrite !(try_catch_read (parseSkillFile _)) by eauto with readonly.
  destruct ((parseSkillFile _ s).1) as [skill|e]; [|same_outcome].
  rewrite !(try_catch_read (lift _)) by apply ReadOnly_lift.
  unfold lift. cbn [fst].
  destruct (convertToCursorRules skill) as [cursorRules|e]; [|same_outcome].
  rewrite !(try_catch_or_read (exists_ _)) by eauto with readonly.
  destruct ((exists_ _ s).1) as [present|e]; [|same_outcome].
  set (succ := deploySuccess cursor TARGET_PATHS.cursor.project).
  set (fail := fun e : Error => deployFailure cursor (errorMessage e)).
  assert (exists rn sn,
            try_catch
              (bind (acting (EWriteTextFile TARGET_PATHS.cursor.project cursorRules)
                       (Deno_writeTextFile TARGET_PATHS.cursor.project cursorRules))
                    (fun _ => ret succ))
              (fun e => ret (fail e)) s = (Returned rn, sn) /\
            ((succ = rn /\ (success rn = false -> sn = s)) \/
             (success succ = true /\ success rn = false /\
              exists ev rest, effects sn = effects s ++ ev :: rest)))
    as (rn & sn & Hrun & Hagree).
  { eapply mutation_outcome; [|done..].
    exists []. unfold acting. by destruct (Deno_writeTextFile _ _ _). }
  destruct present; [destruct (force options); cbn [negb]|].
  - exists succ, rn, sn. split; [reflexivity|]. split; [exact Hrun | exact Hagree].
  - same_outcome.
  - exists succ, rn, sn. split; [reflexivity|]. split; [exact Hrun | exact Hagree].
Qed.

Lemma deployTarget_dry_real skillDir skillName options target s :
  exists rd rn sn,
    deployTarget skillDir skillName (setDryRun true options) target s
      = (Returned rd, s) /\
    deployTarget skillDir skillName (setDryRun false options) target s
      = (Returned rn, sn) /\
    ((rd = rn /\ (success rn = false -> sn = s)) \/
     (success rd = true /\ success rn = false /\
      exists ev rest, effects sn = effects s ++ ev :: rest)).
Proof.
  destruct target; cbn [deployTarget];
    first [apply deployToClaudeOrCodex_dry_real | apply deployToCursor_dry_real].
Qed.

Lemma deploySkill_loop_run skillDir skillName options todo acc s :
  exists results s',
    deploySkill_loop skillDir skillName options todo acc s
      = (Returned (acc ++ results), s') /\
    DeployRun skillDir skillName options todo s results s'.
Proof.
  revert acc s. induction todo as [|target rest IH]; intros acc s; simpl.
  - exists [], s. rewrite app_nil_r. split; [done|constructor].
  - unfold bind.
    destruct (deployTarget_Total skillDir skillName options target s) as [r Hr].
    destruct (deployTarget skillDir skillName options target s) as [o s1] eqn:Hrun.
    cbn [fst] in Hr. subst o.
    destruct (IH (push acc r) s1) as (rs & s2 & Hloop & Hchain).
    exists (r :: rs), s2. split.
    + rewrite Hloop. unfold push. by rewrite <- app_assoc.
    + by econstructor.
Qed.

(** C1 (amended).  A dry run creates, changes and deletes nothing: the
    world and the record of effects are as before.  It throws exactly
    when the real run throws, which is before any target is tried.
    Each outcome it returns is the outcome of that target on the
    initial state, and it is the outcome of the real deployment of that
    target on that state, with one exception: when the real deployment
    fails after it has begun to change the machine, the dry run, which
    changes nothing, reports the success the deployment was heading
    for.  In particular a refusal of the real run is a refusal of the
    dry run.  This holds in every state; the real run goes through
    the targets one after the other, each on the state the previous one
    left, so its first outcome is related to the first outcome of the
    dry run, and with a single target the two whole calls are. *)
Theorem deploySkill_dryRun skillDir options s :
  let dry := setDryRun true options in
  let real := setDryRun false options in
  (deploySkill skillDir dry s).2 = s /\
  (forall e,
     (deploySkill skillDir dry s).1 = Thrown e <->
     deploySkill skillDir real s = (Thrown e, s)) /\
  (forall results,
     (deploySkill skillDir dry s).1 = Returned results ->
     exists skill skillName,
       (parseSkillFile (path_join skillDir (js "SKILL.md")) s).1 = Returned skill /\
       prop_of (metadata skill) (js "name") = Returned skillName /\
       Forall2 (fun target result =>
                  deployTarget skillDir skillName dry target s
                    = (Returned result, s))
               (targets options) results) /\
  (forall skillName target s0,
     exists rd rn sn,
       deployTarget skillDir skillName dry target s0 = (Returned rd, s0) /\
       deployTarget skillDir skillName real target s0 = (Returned rn, sn) /\
       ((rd = rn /\ (success rn = false -> sn = s0)) \/
        (success rd = true /\ success rn = false /\
         exists ev rest, effects sn = effects s0 ++ ev :: rest))) /\
  (forall skill skillName,
     (parseSkillFile (path_join skillDir (js "SKILL.md")) s).1 = Returned skill ->
     prop_of (metadata skill) (js "name") = Returned skillName ->
     exists results s',
       deploySkill skillDir real s = (Returned results, s') /\
       DeployRun skillDir skillName real (targets options) s results s') /\
  (forall target results,
     targets options = [target] ->
     (deploySkill skillDir dry s).1 = Returned results ->
     exists rd rn sn,
       results = [rd] /\
       deploySkill skillDir real s = (Returned [rn], sn) /\
       ((rd = rn /\ (success rn = false -> sn = s)) \/
        (success rd = true /\ success rn = false /\
         exists ev rest, effects sn = effects s ++ ev :: rest))).
Proof.
  cbv zeta. unfold deploySkill.
  rewrite !(bind_ReadOnly (parseSkillFile _)) by eauto with readonly.
  cbn [targets setDryRun].
  destruct ((parseSkillFile _ s).1) as [skill|e0].
  2: { split; [done|]. split; [|split; [done|split; [|split; [done|done]]]].
       - intros e. split; [by intros [= ->] | by intros [= ->]].
       - intros skillName target s0. apply deployTarget_dry_real. }
  unfold bind at 1 2 3 4 5 6 7, lift.
  destruct (prop_of (metadata skill) (js "name")) as [skillName|e0] eqn:Hname.
  2: { split; [done|]. split; [|split; [done|split; [|split; [|done]]]].
       - intros e. split; [by intros [= ->] | by intros [= ->]].
       - intros skillName target s0. apply deployTarget_dry_real.
       - intros skill' skillName' [= <-] Hread. rewrite Hname in Hread.
         discriminate Hread. }
  destruct (deploySkill_loop_dryRun skillDir skillName options (targets options) [] s)
    as (rs & Hrs & Hall).
  cbn [app] in Hrs. rewrite Hrs. cbn [fst snd].
  destruct (deploySkill_loop_run skillDir skillName (setDryRun false options)
              (targets options) [] s) as (rr & sr & Hrr & Hchain).
  cbn [app] in Hrr.
  split; [done|]. split; [|split; [|split; [|split]]].
  - intros e. split; [done|]. by rewrite Hrr.
  - intros results [= <-]. by exists skill, skillName.
  - intros name target s0. apply deployTarget_dry_real.
  - intros skill' skillName' [= <-]. rewrite Hname. intros [= <-].
    by exists rr, sr.
  - intros target results Htargets [= <-].
    rewrite Htargets in *. cbn [deploySkill_loop].
    apply Forall2_cons_inv_l in Hall as (rd & rest & Hrd & Hrest & ->).
    apply Forall2_nil_inv_l in Hrest as ->.
    destruct (deployTarget_dry_real skillDir skillName options target s)
      as (rd' & rn & sn & Hdry & Hreal & Hagree).
    rewrite Hrd in Hdry. injection Hdry as <-.
    exists rd, rn, sn. split; [done|]. split; [|done].
    unfold bind. by rewrite Hreal.
Qed.

End DryRun.
End DryRun.
Export DryRun.

(** ** Link types, refusals, disabled links *)

Module LinkTypeFacts.
Import Terms.
Section LinkTypeFacts.
Context {W : Type} `{Deno W}.

Lemma detectLinkType_http source :
  httpSource source = true ->
  detectLinkType source = git \/ detectLinkType source = web.
Proof.
  unfold detectLinkType, httpSource. intros ->.
  destruct (_ || _); auto.
Qed.

Lemma detectLinkType_other source :
  httpSource source = false -> detectLinkType source = local.
Proof. unfold detectLinkType, httpSource. by intros ->. Qed.

Lemma ssh_not_http source :
  startsWith source (js "git@") = true -> httpSource source = false.
Proof.
  unfold httpSource. destruct source as [|c source]; [done|].
  change (js "git@") with (103 :: js "it@").
  change (js "http://") with (104 :: js "ttp://").
  change (js "https://") with (104 :: js "ttps://").
  cbn [startsWith]. destruct (N.eqb_spec 103 c) as [<-|]; [|done]. done.
Qed.

(** A link added without a type gets the type its source is detected
    as.  A source that starts with http:// or https:// is a git or a
    web link and passes validation whatever else it is.  Any other
    source is a local link, an address of the form git@host:path
    included, and is validated as a directory: when it cannot be
    looked up, the link is refused with "Cannot access source". *)
Theorem detected_type_validation name source details s :
  ld_type details = None ->
  nameRegex_test name = true ->
  let link := newLink name source details in
  (httpSource source = true ->
   (link_type link = git \/ link_type link = web) /\
   validateLink link s = (Returned {| lv_valid := true; lv_error := None |}, s)) /\
  (httpSource source = false ->
   link_type link = local /\
   forall sourcePath error,
     (expandHome source s).1 = Returned sourcePath ->
     Deno_stat sourcePath (world s) = Thrown error ->
     validateLink link s
       = (Returned (invalidLink (js "Cannot access source: " ++ errorMessage error)),
          s)) /\
  (startsWith source (js "git@") = true -> link_type link = local).
Proof.
  intros Htype Hname link. subst link. unfold newLink. rewrite Htype. cbn [default].
  split; [|split].
  - intros Hhttp. split; [by apply detectLinkType_http|].
    unfold validateLink. cbn [link_name link_type link_source].
    rewrite Hname. cbn [negb].
    unfold httpSource in Hhttp.
    destruct (detectLinkType_http source Hhttp) as [-> | ->].
    + change (str_eqb git local) with false. change (str_eqb git git) with true.
      cbv iota.
      destruct (startsWith source (js "http://")),
               (startsWith source (js "https://")); try done.
    + change (str_eqb web local) with false. change (str_eqb web git) with false.
      change (str_eqb web web) with true. cbv iota.
      destruct (startsWith source (js "http://")),
               (startsWith source (js "https://")); try done.
  - intros Hhttp. rewrite (detectLinkType_other _ Hhttp). split; [done|].
    intros sourcePath error Hexp Hstat.
    unfold validateLink. cbn [link_name link_type link_source].
    rewrite Hname. cbn [negb]. change (str_eqb local local) with true. cbv iota.
    rewrite bind_ReadOnly, Hexp by eauto with readonly.
    unfold try_catch, bind, reading. by rewrite Hstat.
  - intros Hssh. by apply detectLinkType_other, ssh_not_http.
Qed.

End LinkTypeFacts.
End LinkTypeFacts.

Module RefusalFacts.
Import Terms.
Section RefusalFacts.
Context {W : Type} `{Deno W}.


Lemma syncLink_run name options s registry :
  (readLinkRegistry (lo_target options) (userLevel_or_true options) s).1
    = Returned registry ->
  find (hasName name) (links registry) = None ->
  syncLink name options s = (Returned (syncFailure None (notFoundMessage name)), s).
Proof.
  intros Hread Hfind. unfold syncLink, try_catch.
  rewrite bind_ReadOnly, Hread by eauto with readonly. by rewrite Hfind.
Qed.

(** [syncLink] refuses, without doing anything, a name that is not in
    the registry, a link that is disabled, a web link and a link of a
    type it does not know. *)
Theorem syncLink_refusals name options s registry :
  (readLinkRegistry (lo_target options) (userLevel_or_true options) s).1
    = Returned registry ->
  (find (hasName name) (links registry) = None ->
   syncLink name options s
     = (Returned (syncFailure None (notFoundMessage name)), s)) /\
  (forall link,
     find (hasName name) (links registry) = Some link ->
     (link_enabled link = false ->
      syncLink name options s
        = (Returned (syncFailure (Some link) (disabledMessage name)), s)) /\
     (link_enabled link = true -> link_type link = web ->
      syncLink name options s
        = (Returned (syncFailure (Some link)
                       (js "Web links are not yet supported for syncing")), s)) /\
     (link_enabled link = true ->
      link_type link <> local -> link_type link <> git -> link_type link <> web ->
      syncLink name options s
        = (Returned (syncFailure (Some link)
                       (js "Unknown link type: " ++ link_type link)), s))).
Proof.
  intros Hread. split; [by apply syncLink_run|].
  intros link Hfind.
  unfold syncLink, try_catch.
  rewrite bind_ReadOnly, Hread by eauto with readonly. rewrite Hfind.
  split; [|split].
  - by intros ->.
  - intros -> ->. cbn [negb]. change (str_eqb web local) with false.
    change (str_eqb web git) with false. change (str_eqb web web) with true. done.
  - intros -> Hlocal Hgit Hweb. cbn [negb]. unfold str_eqb.
    by rewrite !bool_decide_false.
Qed.

(** When the registry cannot be read (the file is damaged, or it
    cannot be opened) nothing is written: [addLink], [removeLink],
    [toggleLink] and [syncLink] return a failure that carries the
    message and leave the state as it was, while [listLinks] and
    [syncAllLinks] throw the error. *)
Theorem unreadable_registry_untouched name source enabled options details s error :
  (readLinkRegistry (lo_target options) (userLevel_or_true options) s).1
    = Thrown error ->
  addLink name source options details s
    = (Returned (linkFailure (errorMessage error)), s) /\
  removeLink name options s = (Returned (linkFailure (errorMessage error)), s) /\
  toggleLink name enabled options s
    = (Returned (linkFailure (errorMessage error)), s) /\
  syncLink name options s = (Returned (syncFailure None (errorMessage error)), s) /\
  listLinks options s = (Thrown error, s) /\
  syncAllLinks options s = (Thrown error, s).
Proof.
  intros Hread.
  unfold addLink, removeLink, toggleLink, syncLink, listLinks, syncAllLinks, try_catch.
  rewrite !bind_ReadOnly, !Hread by eauto with readonly. done.
Qed.

(** A registry file that does not parse makes the reading throw. *)
Lemma readLinkRegistry_throws target userLevel s registryPath content error :
  (getLinkRegistryPath target userLevel s).1 = Returned registryPath ->
  Deno_readTextFile registryPath (world s) = Returned content ->
  JSON_parse content = Thrown error ->
  isNotFound error = false ->
  (readLinkRegistry target userLevel s).1 = Thrown error.
Proof.
  intros Hpath Hfile Hparse Hclass. unfold readLinkRegistry.
  rewrite bind_ReadOnly, Hpath by eauto with readonly.
  unfold try_catch, bind, reading, lift. rewrite Hfile, Hparse. simpl.
  by rewrite Hclass.
Qed.

End RefusalFacts.
End RefusalFacts.

Module ToggleFacts.
Import Terms.
Section ToggleFacts.
Context {W : Type} `{Deno W}.

Lemma OnePerName_tail l ls : OnePerName (l :: ls) -> OnePerName ls.
Proof.
  intros Hone name. specialize (Hone name). rewrite occurrences_cons in Hone. lia.
Qed.

Lemma occurrences_none name ls :
  occurrences name ls = O -> Forall (fun l => hasName name l = false) ls.
Proof.
  induction ls as [|l ls IH]; [done|]. rewrite occurrences_cons.
  destruct (hasName name l) eqn:Hl; [lia|]. intros Hls. constructor; auto.
Qed.

Lemma filter_others name ls :
  Forall (fun l => hasName name l = false) ls ->
  List.filter (fun l => link_enabled l && negb (hasName name l)) ls
    = List.filter link_enabled ls.
Proof.
  induction 1 as [|l ls Hl _ IH]; [done|]. simpl.
  by rewrite Hl, andb_true_r, IH.
Qed.

Lemma filter_toggled name ls i :
  OnePerName ls ->
  findIndex (hasName name) ls = Some i ->
  List.filter link_enabled (<[i := setEnabled false (ls !!! i)]> ls)
    = List.filter (fun l => link_enabled l && negb (hasName name l)) ls.
Proof.
  revert i. induction ls as [|l ls IH]; intros i Hone; [done|].
  cbn [findIndex]. destruct (hasName name l) eqn:Hl.
  - intros [= <-]. simpl. rewrite Hl, andb_false_r.
    symmetry. apply filter_others, occurrences_none.
    specialize (Hone name). rewrite occurrences_cons, Hl in Hone. lia.
  - destruct (findIndex (hasName name) ls) as [j|] eqn:Hj; [|done].
    intros [= <-]. simpl. rewrite Hl, andb_true_r.
    rewrite (IH j) by eauto using OnePerName_tail. done.
Qed.

(** After a link was disabled with [toggleLink], [syncAllLinks] runs
    the links that were enabled before, that one left out, in the
    order of the registry. *)
Theorem disabled_link_not_synced name options s registry result s' :
  HostLaws W ->
  (readLinkRegistry (lo_target options) (userLevel_or_true options) s).1
    = Returned registry ->
  OnePerName (links registry) ->
  toggleLink name false options s = (Returned result, s') ->
  lr_success result = true ->
  exists results s'',
    syncAllLinks options s' = (Returned results, s'') /\
    SyncRun options
      (List.filter (fun l => link_enabled l && negb (hasName name l)) (links registry))
      s' results s''.
Proof.
  intros laws Hread Hone Hrun Hok.
  pose proof (readLinkRegistry_version _ _ _ _ Hread) as Hversion.
  rewrite (toggleLink_run _ _ _ _ _ Hread) in Hrun.
  destruct (findIndex (hasName name) (links registry)) as [index|] eqn:Hfind.
  2: { injection Hrun as <- <-. done. }
  destruct (afterWrite_success _ _ _ _ _ _ _ Hrun Hok) as [_ Hwrite].
  assert ((readLinkRegistry (lo_target options) (userLevel_or_true options) s').1
          = Returned (toggled index false registry)) as Hread'.
  { eapply read_after_writeLinkRegistry; done. }
  unfold syncAllLinks. rewrite bind_ReadOnly, Hread' by eauto with readonly.
  destruct (syncAllLinks_loop_run options (links (toggled index false registry)) [] s')
    as (results & s'' & Hloop & Hsync).
  exists results, s''. split; [done|].
  unfold toggled in Hsync. cbn [links] in Hsync.
  by rewrite (filter_toggled name) in Hsync.
Qed.

End ToggleFacts.
End ToggleFacts.

(** ** Importing from GitHub *)

Module UrlFacts.
Import Importer Terms.



Lemma notSlash_true c : notSlash c = true <-> c <> SLASH.
Proof. unfold notSlash. rewrite negb_true_iff. apply N.eqb_neq. Qed.

Lemma notSlashDot_true c : notSlashDot c = true <-> c <> SLASH /\ c <> DOT.
Proof.
  unfold notSlashDot. rewrite andb_true_iff, !negb_true_iff, !N.eqb_neq. done.
Qed.

Lemma span_app p run after :
  Forall (fun c => p c = true) run ->
  match after with [] => True | c :: _ => p c = false end ->
  span p (run ++ after) = (run, after).
Proof.
  intros Hrun Hafter. induction Hrun as [|c run Hc _ IH]; simpl.
  - destruct after as [|c after]; simpl; [done|]. by rewrite Hafter.
  - by rewrite Hc, IH.
Qed.

Lemma span_sound p s run after :
  span p s = (run, after) ->
  s = run ++ after /\ Forall (fun c => p c = true) run /\
  match after with [] => True | c :: _ => p c = false end.
Proof.
  revert run after. induction s as [|c s IH]; intros run after; simpl.
  - by intros [= <- <-].
  - destruct (p c) eqn:Hc.
    + destruct (span p s) as [run' after'] eqn:Hs. intros [= <- <-].
      destruct (IH _ _ eq_refl) as (-> & Hrun & Hafter).
      split; [done|]. split; [by constructor|done].
    + intros [= <- <-]. split; [done|]. split; [constructor|done].
Qed.

Lemma no_slash s : SLASH ∉ s <-> Forall (fun c => notSlash c = true) s.
Proof.
  rewrite Forall_forall. split.
  - intros Hs c Hc. apply notSlash_true. by intros ->.
  - intros Hs Hin. specialize (Hs _ Hin). by apply notSlash_true in Hs.
Qed.

Lemma no_slash_dot s :
((SLASH ∉ s) /\ (DOT ∉ s)) <-> Forall (fun c => notSlashDot c = true) s.
Proof.
  rewrite Forall_forall. split.
  - intros [Hs Hd] c Hc. apply notSlashDot_true. split; by intros ->.
  - intros Hs. split; intros Hin; specialize (Hs _ Hin);
      apply notSlashDot_true in Hs; by destruct Hs.
Qed.

(** The pattern at the start of an address. *)
Lemma match_url_at_address sep owner repo tail :
  sep = SLASH \/ sep = COLON ->
  segment owner -> segment repo -> DOT ∉ repo ->
  tail = [] \/ tail = js ".git" ->
  match_url_at (js "github.com" ++ sep :: owner ++ js "/" ++ repo ++ tail)
    = Some (owner, repo).
Proof.
  intros Hsep [Howner Hos] [Hrepo Hrs] Hrd Htail.
  unfold match_url_at.
  assert (startsWith (js "github.com" ++ sep :: owner ++ js "/" ++ repo ++ tail)
            (js "github.com") = true) as ->.
  { apply (startsWith_app (js "github.com")). done. }
  change (slice_from 10 (js "github.com" ++ ?x)) with x. cbv beta iota.
  assert ((sep =? SLASH) || (sep =? COLON) = true) as ->.
  { destruct Hsep as [-> | ->]; done. }
  change (js "/" ++ repo ++ tail) with (SLASH :: repo ++ tail).
  rewrite (span_app notSlash owner (SLASH :: repo ++ tail)); [|by apply no_slash|done].
  destruct owner as [|o owner]; [done|].
  rewrite (span_app notSlashDot repo tail).
  - destruct repo as [|r repo]; [done|].
    destruct Htail as [-> | ->]; done.
  - by apply no_slash_dot.
  - destruct Htail as [-> | ->]; done.
Qed.

Lemma match_url_found s groups : match_url_at s = Some groups -> match_url s = Some groups.
Proof. intros Hs. destruct s; cbn [match_url]; by rewrite Hs. Qed.

Lemma match_url_skip c s : match_url_at (c :: s) = None -> match_url (c :: s) = match_url s.
Proof. intros Hs. cbn [match_url]. by rewrite Hs. Qed.

Lemma match_url_at_needs s : startsWith s (js "github.com") = false -> match_url_at s = None.
Proof. unfold match_url_at. by intros ->. Qed.

Lemma match_url_absent s : includes s (js "github.com") = false -> match_url s = None.
Proof.
  induction s as [|c s IH]; cbn [match_url includes].
  - intros _. by rewrite match_url_at_needs.
  - intros [Hs Hi]%orb_false_elim. rewrite match_url_at_needs by done. auto.
Qed.

Lemma match_short_segments owner repo :
  segment owner -> segment repo ->
  match_short (owner ++ js "/" ++ repo) = Some (owner, repo).
Proof.
  intros [Howner Hos] [Hrepo Hrs]. unfold match_short.
  change (js "/" ++ repo) with (SLASH :: repo).
  rewrite (span_app notSlash owner (SLASH :: repo)); [|by apply no_slash|done].
  destruct owner as [|o owner]; [done|].
  rewrite <- (app_nil_r repo) at 1.
  rewrite (span_app notSlash repo []); [|by apply no_slash|done].
  by destruct repo.
Qed.

Lemma parse_https owner repo tail :
  segment owner -> segment repo -> DOT ∉ repo ->
  tail = [] \/ tail = js ".git" ->
  match_url (js "https://github.com/" ++ owner ++ js "/" ++ repo ++ tail)
    = Some (owner, repo).
Proof.
  intros Howner Hrepo Hdot Htail.
  change (js "https://github.com/" ++ owner ++ js "/" ++ repo ++ tail)
    with (js "https://" ++ js "github.com" ++ SLASH :: owner ++ js "/" ++ repo ++ tail).
  change (js "https://") with [104; 116; 116; 112; 115; 58; 47; 47].
  cbn [app].
  rewrite !match_url_skip by reflexivity.
  apply match_url_found. by apply match_url_at_address; auto.
Qed.

Lemma parse_ssh owner repo :
  segment owner -> segment repo -> DOT ∉ repo ->
  match_url (js "git@github.com:" ++ owner ++ js "/" ++ repo ++ js ".git")
    = Some (owner, repo).
Proof.
  intros Howner Hrepo Hdot.
  change (js "git@github.com:" ++ owner ++ js "/" ++ repo ++ js ".git")
    with (js "git@" ++ js "github.com" ++ COLON :: owner ++ js "/" ++ repo
          ++ js ".git").
  change (js "git@") with [103; 105; 116; 64].
  cbn [app].
  rewrite !match_url_skip by reflexivity.
  apply match_url_found. by apply match_url_at_address; auto.
Qed.

(** [parseGitHubUrl] accepts the four forms of address the importer
    documents, for every owner and repository that are not empty and
    have no slash, the repository having no dot either, and returns
    that owner and that repository: the https address with and
    without .git, the ssh address, and owner/repo alone when it does
    not contain github.com. *)
Theorem parseGitHubUrl_formats owner repo :
  segment owner -> segment repo -> DOT ∉ repo ->
  parseGitHubUrl (js "https://github.com/" ++ owner ++ js "/" ++ repo)
    = Some (owner, repo) /\
  parseGitHubUrl (js "https://github.com/" ++ owner ++ js "/" ++ repo ++ js ".git")
    = Some (owner, repo) /\
  parseGitHubUrl (js "git@github.com:" ++ owner ++ js "/" ++ repo ++ js ".git")
    = Some (owner, repo) /\
  (includes (owner ++ js "/" ++ repo) (js "github.com") = false ->
   parseGitHubUrl (owner ++ js "/" ++ repo) = Some (owner, repo)).
Proof.
  intros Howner Hrepo Hdot. unfold parseGitHubUrl. repeat split.
  - pose proof (parse_https owner repo [] Howner Hrepo Hdot) as Hurl.
    rewrite app_nil_r in Hurl. by rewrite Hurl; auto.
  - by rewrite (parse_https owner repo (js ".git")); auto.
  - by rewrite parse_ssh.
  - intros Habsent. rewrite match_url_absent by done.
    by rewrite match_short_segments.
Qed.

Lemma match_url_at_sound s owner repo :
  match_url_at s = Some (owner, repo) -> segment owner /\ segment repo /\ DOT ∉ repo.
Proof.
  unfold match_url_at. destruct (startsWith s _); [|done].
  destruct (slice_from 10 s) as [|c rest]; [done|].
  destruct (_ || _); [|done].
  destruct (span notSlash rest) as [o after] eqn:Ho.
  destruct o as [|o1 o]; [done|]. destruct after as [|c1 after]; [done|].
  destruct (span notSlashDot after) as [r after'] eqn:Hr.
  destruct r as [|r1 r]; [done|].
  destruct (_ || _); [|done]. intros [= <- <-].
  apply span_sound in Ho as (_ & Ho & _). apply span_sound in Hr as (_ & Hr & _).
  apply no_slash in Ho. apply no_slash_dot in Hr as [Hrs Hrd].
  repeat split; done.
Qed.

Lemma match_url_sound s owner repo :
  match_url s = Some (owner, repo) -> segment owner /\ segment repo /\ DOT ∉ repo.
Proof.
  induction s as [|c s IH]; cbn [match_url].
  - destruct (match_url_at []) as [[o r]|] eqn:Hat; [|done].
    intros [= <- <-]. by eapply match_url_at_sound.
  - destruct (match_url_at (c :: s)) as [[o r]|] eqn:Hat; [|done].
    intros [= <- <-]. by eapply match_url_at_sound.
Qed.

Lemma match_short_sound s owner repo :
  match_short s = Some (owner, repo) -> segment owner /\ segment repo.
Proof.
  unfold match_short.
  destruct (span notSlash s) as [o after] eqn:Ho.
  destruct o as [|o1 o]; [done|]. destruct after as [|c1 after]; [done|].
  destruct (span notSlash after) as [r after'] eqn:Hr.
  destruct r as [|r1 r]; [done|]. destruct after'; [|done]. intros [= <- <-].
  apply span_sound in Ho as (_ & Ho & _). apply span_sound in Hr as (_ & Hr & _).
  apply no_slash in Ho. apply no_slash in Hr. repeat split; done.
Qed.

(** The owner and the repository [parseGitHubUrl] returns are not
    empty and have no slash; and when the repository has no dot, the
    address [importFromGitHub] builds from them is accepted in turn,
    with the same owner and repository. *)
Theorem parseGitHubUrl_sound url owner repo :
  parseGitHubUrl url = Some (owner, repo) ->
  segment owner /\ segment repo /\
  (DOT ∉ repo -> parseGitHubUrl (fullRepoUrl owner repo) = Some (owner, repo)).
Proof.
  unfold parseGitHubUrl. intros Hparse.
  assert (segment owner /\ segment repo) as [Howner Hrepo].
  { destruct (match_url url) as [[o r]|] eqn:Hurl.
    - injection Hparse as <- <-. apply match_url_sound in Hurl. tauto.
    - destruct (match_short url) as [[o r]|] eqn:Hshort; [|done].
      injection Hparse as <- <-. by apply match_short_sound in Hshort. }
  split; [done|]. split; [done|]. intros Hdot.
  unfold fullRepoUrl. by rewrite (parse_https owner repo (js ".git")); auto.
Qed.

End UrlFacts.

Module ImportFacts.
Import Listing Importer Terms ListingFacts CreateFacts.
Section ImportFacts.
Context {W : Type} `{Deno W} `{Shell W}.

Lemma console_log_adds P text : Adds P (console_log text).
Proof. intros s. exists []. simpl. by rewrite app_nil_r. Qed.
#[local] Hint Resolve console_log_adds : adds.

Lemma discoverSkills_adds P parentDir : Adds P (discoverSkills parentDir).
Proof. apply Adds_ReadOnly, discoverSkills_ReadOnly. Qed.
#[local] Hint Resolve discoverSkills_adds : adds.

Lemma ensureDir_mkdir P path : P (EMkdir path) -> Adds P (ensureDir path).
Proof. intros HP. unfold ensureDir. adds. Qed.

Lemma cloneRepo_adds P repoUrl branch tempDir :
  P (EMkdir tempDir) ->
  P (ECommand (js "git") (cloneRepoArguments repoUrl branch tempDir)) ->
  Adds P (cloneRepo repoUrl branch tempDir).
Proof.
  intros Hmk Hgit. unfold cloneRepo.
  apply Adds_try_catch; [|adds].
  apply Adds_bind; [by apply ensureDir_mkdir|]. intros _.
  apply Adds_bind; [by apply Adds_acting|]. adds.
Qed.

(** One turn of the loop of the import. *)
Lemma importSkill_adds P targetDir force dryRun tally skillDir :
  (dryRun = false -> forall e, creating e -> P e) ->
  (dryRun = false -> force = true ->
   P (ERemove (path_join targetDir (lastSegment skillDir)) true)) ->
  Adds P (importSkill targetDir force dryRun tally skillDir).
Proof.
  intros Hcreate Hremove. unfold importSkill.
  apply Adds_try_catch; [|adds].
  apply Adds_bind; [adds|]. intros validation.
  destruct (negb (valid validation)); [adds|].
  apply Adds_bind; [adds|]. intros skillFile.
  apply Adds_bind; [adds|]. intros skillName.
  apply Adds_bind; [adds|]. intros skillExists.
  destruct (skillExists && negb force) eqn:Hguard; [adds|].
  apply Adds_bind; [|adds].
  destruct dryRun; cbn [negb]; [adds|].
  apply Adds_bind.
  { eapply Adds_weaken; [apply Hcreate; done | apply ensureDir_creates]. }
  intros _. apply Adds_bind.
  - destruct (skillExists && force) eqn:Hforce; [|adds].
    apply Adds_acting. apply Hremove; [done|].
    by apply andb_prop in Hforce as [_ ->].
  - intros _. eapply Adds_weaken; [apply Hcreate; done | apply copyDir_creates].
Qed.

Lemma importSkills_adds P targetDir force dryRun todo tally :
  (forall tally' skillDir,
     Adds P (importSkill targetDir force dryRun tally' skillDir)) ->
  Adds P (importSkills targetDir force dryRun todo tally).
Proof.
  intros Hstep. revert tally.
  induction todo as [|skillDir rest IH]; intros tally; simpl; [adds|].
  apply Adds_bind; [apply Hstep|]. intros. apply IH.
Qed.

(** The effects of an import, around those of its loop. *)
Lemma importFromGitHub_adds (P : Effect -> Prop) url options s owner repo tempDir w1 :
  parseGitHubUrl url = Some (owner, repo) ->
  Deno_makeTempDir tempPrefix (world s) = (Returned tempDir, w1) ->
  P (EMkdir tempDir) ->
  P (ECommand (js "git")
       (cloneRepoArguments (fullRepoUrl owner repo)
          (or_default (io_branch options) (js "main")) tempDir)) ->
  (forall todo tally,
     Adds P (importSkills (or_default (io_targetDir options) (js "./skills"))
               (io_force options) (io_dryRun options) todo tally)) ->
  exists new,
    effects (importFromGitHub url options s).2
      = effects s ++ [EMakeTempDir tempPrefix] ++ new ++ [ERemove tempDir true] /\
    Forall P new.
Proof.
  intros Hparse Htemp Hmk Hgit Hloop. unfold importFromGitHub. rewrite Hparse.
  unfold bind at 1. unfold acting at 1. fold tempPrefix. rewrite Htemp.
  match goal with
  | |- context [try_finally ?b ?final ?s1] => set (body := b); set (start := s1)
  end.
  assert (Adds P body) as Hbody.
  { subst body.
    apply Adds_bind; [adds|]. intros _. apply Adds_bind; [adds|]. intros _.
    apply Adds_bind; [adds|]. intros _.
    apply Adds_bind; [by apply cloneRepo_adds|]. intros cloneResult.
    destruct (negb (clone_success cloneResult)); [adds|].
    apply Adds_bind; [adds|]. intros _. apply Adds_bind; [adds|]. intros present.
    destruct (negb present); [adds|].
    apply Adds_bind; [adds|]. intros _. apply Adds_bind; [adds|]. intros discovered.
    destruct (_ =? _)%nat; [adds|].
    apply Adds_bind; [adds|]. intros _. apply Adds_bind; [apply Hloop|]. adds. }
  destruct (Hbody start) as (new & Heq & Hnew).
  exists new. split; [|done].
  unfold try_finally. destruct (body start) as [r s2].
  cbn [snd] in Heq. subst start. cbn [effects] in Heq.
  unfold catch_ignore, try_catch, acting.
  destruct (Deno_remove tempDir true (world s2)) as [[[]|e] w3]; cbn [snd effects];
    rewrite Heq; by rewrite <- !app_assoc.
Qed.

(** An address [parseGitHubUrl] refuses makes [importFromGitHub]
    throw before it does anything.  Otherwise, once the temporary
    directory is made, the last thing the import does is remove it,
    whether it returns a summary or throws. *)
Theorem importFromGitHub_cleans_up url options s :
  (parseGitHubUrl url = None ->
   importFromGitHub url options s
     = (Thrown (newError (js "Invalid GitHub URL: " ++ url)), s)) /\
  (forall owner repo tempDir w1,
     parseGitHubUrl url = Some (owner, repo) ->
     Deno_makeTempDir tempPrefix (world s) = (Returned tempDir, w1) ->
     last (effects (importFromGitHub url options s).2) = Some (ERemove tempDir true)).
Proof.
  split.
  - intros Hnone. unfold importFromGitHub. by rewrite Hnone.
  - intros owner repo tempDir w1 Hparse Htemp.
    destruct (importFromGitHub_adds (fun _ => True) url options s owner repo tempDir w1)
      as (new & Heq & _); try done.
    { intros todo tally. apply importSkills_adds. intros.
      by apply importSkill_adds. }
    rewrite Heq, !app_assoc. apply last_snoc.
Qed.

(** A dry run of the import makes its temporary directory, clones
    into it and removes it, and does nothing else: nothing is created,
    copied or removed where the skills go. *)
Theorem importFromGitHub_dryRun url options s owner repo tempDir w1 :
  io_dryRun options = true ->
  parseGitHubUrl url = Some (owner, repo) ->
  Deno_makeTempDir tempPrefix (world s) = (Returned tempDir, w1) ->
  exists new,
    effects (importFromGitHub url options s).2
      = effects s ++ [EMakeTempDir tempPrefix] ++ new ++ [ERemove tempDir true] /\
    Forall (cloning (fullRepoUrl owner repo)
              (or_default (io_branch options) (js "main")) tempDir) new.
Proof.
  intros Hdry Hparse Htemp.
  apply (importFromGitHub_adds _ url options s owner repo tempDir w1);
    try done; try (by left); try (by right).
  intros todo tally. apply importSkills_adds. intros.
  rewrite Hdry. by apply importSkill_adds.
Qed.

(** Without force, the temporary directory is all an import removes:
    between making it and removing it, the import only creates
    directories, copies files and runs git. *)
Theorem importFromGitHub_without_force url options s owner repo tempDir w1 :
  io_force options = false ->
  parseGitHubUrl url = Some (owner, repo) ->
  Deno_makeTempDir tempPrefix (world s) = (Returned tempDir, w1) ->
  exists new,
    effects (importFromGitHub url options s).2
      = effects s ++ [EMakeTempDir tempPrefix] ++ new ++ [ERemove tempDir true] /\
    Forall creatingOrGit new.
Proof.
  intros Hforce Hparse Htemp.
  apply (importFromGitHub_adds _ url options s owner repo tempDir w1); try done.
  intros todo tally. apply importSkills_adds. intros.
  rewrite Hforce. apply importSkill_adds; [|done].
  intros _ [] ; done.
Qed.

Lemma bind_returned {A B} (m : M W A) (k : A -> M W B) s b s' :
  bind m k s = (Returned b, s') ->
  exists a s1, m s = (Returned a, s1) /\ k a s1 = (Returned b, s').
Proof.
  unfold bind. destruct (m s) as [[a|e] s1]; [|done]. intros Hk. by exists a, s1.
Qed.

Ltac step_done :=
  eexists _, _, _; split; [done|];
  cbv beta iota delta [isSkipped ir_alreadyExists ir_success ir_skillName ir_error
                       ir_validationErrors results imported failed skipped orb];
  repeat split; try done; try lia;
  try (intros ? [= <-] ?; congruence);
  try (intros _ _; first [left; by eauto | right; by eauto]).

(** One turn of the loop never throws: it adds one result, under the
    name of the directory, and steps the one counter that goes with
    it. *)
Lemma importSkill_step targetDir force dryRun tally skillDir s :
  exists tally' s' r,
    importSkill targetDir force dryRun tally skillDir s = (Returned tally', s') /\
    results tally' = results tally ++ [r] /\
    ir_skillName r = lastSegment skillDir /\
    imported tally' = (imported tally + if ir_success r then 1 else 0)%nat /\
    skipped tally' = (skipped tally + if isSkipped r then 1 else 0)%nat /\
    failed tally' = (failed tally + if ir_success r || isSkipped r then 0 else 1)%nat /\
    (ir_success r = true -> isSkipped r = false) /\
    (ir_success r = false -> isSkipped r = false ->
     is_Some (ir_validationErrors r) \/ is_Some (ir_error r)) /\
    (forall validation,
       (validateSkillDir skillDir s).1 = Returned validation ->
       valid validation = false ->
       r = {| ir_skillName := lastSegment skillDir;
              ir_skillDir := skillDir;
              ir_success := false;
              ir_error := None;
              ir_validationErrors :=
                Some (map (fun e => field e ++ js ": " ++ message e)
                          (errors validation));
              ir_alreadyExists := None |}).
Proof.
  unfold importSkill, try_catch.
  rewrite (bind_ReadOnly (validateSkillDir skillDir)) by eauto with readonly.
  destruct ((validateSkillDir skillDir s).1) as [validation|e0] eqn:Hvalidation.
  - destruct (valid validation) eqn:Hvalid; cbn [negb].
    + match goal with
      | |- context [match ?body s with _ => _ end] =>
          destruct (body s) as [[t|e] s1] eqn:Hbody
      end.
      * apply bind_returned in Hbody as (skillFile & s3 & _ & Hbody).
        apply bind_returned in Hbody as (skillName & s3' & _ & Hbody).
        apply bind_returned in Hbody as (skillExists & s4 & _ & Hbody).
        destruct (skillExists && negb force).
        { apply bind_returned in Hbody as ([] & s5 & _ & [= <- <-]). step_done. }
        apply bind_returned in Hbody as ([] & s5 & _ & Hbody).
        apply bind_returned in Hbody as ([] & s6 & _ & [= <- <-]). step_done.
      * unfold bind, console_log, ret. step_done.
    + unfold bind, console_log, ret. step_done.
  - unfold bind, console_log, ret. step_done.
Qed.

Lemma importSkill_Counted tally tally' r :
  Counted tally ->
  results tally' = results tally ++ [r] ->
  imported tally' = (imported tally + if ir_success r then 1 else 0)%nat ->
  skipped tally' = (skipped tally + if isSkipped r then 1 else 0)%nat ->
  failed tally' = (failed tally + if ir_success r || isSkipped r then 0 else 1)%nat ->
  (ir_success r = true -> isSkipped r = false) ->
  Counted tally'.
Proof.
  intros (Hi & Hs & Hsum) Hres Himp Hskip Hfail Hex. unfold Counted.
  rewrite Hres, !List.filter_app, !length_app, Himp, Hskip, Hfail. cbn.
  destruct (ir_success r) eqn:Hr; [rewrite (Hex eq_refl)|];
    destruct (isSkipped r); cbn; lia.
Qed.

(** The loop never throws: one result per skill, in order. *)
Lemma importSkills_run targetDir force dryRun todo tally s :
  exists tally' s',
    importSkills targetDir force dryRun todo tally s = (Returned tally', s') /\
    map ir_skillName (results tally')
      = map ir_skillName (results tally) ++ map lastSegment todo /\
    (Counted tally -> Counted tally').
Proof.
  revert tally s. induction todo as [|skillDir rest IH]; intros tally s; simpl.
  - exists tally, s. by rewrite app_nil_r.
  - destruct (importSkill_step targetDir force dryRun tally skillDir s)
      as (tally1 & s1 & r & Hrun & Hres & Hname & Himp & Hskip & Hfail & Hex & _).
    unfold bind. rewrite Hrun.
    destruct (IH tally1 s1) as (tally' & s' & Hrest & Hnames & Hc').
    exists tally', s'. split; [done|]. split.
    + rewrite Hnames, Hres, map_app. simpl. rewrite Hname. by rewrite <- app_assoc.
    + intros Hc. apply Hc'. by eapply importSkill_Counted.
Qed.

Lemma bind_console_log {A} text (k : unit -> M W A) s :
  bind (console_log text) k s = k tt (logged [text] s).
Proof. done. Qed.

Lemma try_finally_cleanup {A} (m : M W A) ev (f : W -> outcome unit * W) s r s1 :
  m s = (Returned r, s1) ->
  exists s', try_finally m (catch_ignore (acting ev f)) s = (Returned r, s').
Proof.
  intros Hm. unfold try_finally, catch_ignore, try_catch, acting. rewrite Hm.
  destruct (f (world s1)) as [[[]|e] w2]; by eexists.
Qed.

Lemma try_finally_returned {A} (m : M W A) (final : M W unit) s a s' :
  try_finally m final s = (Returned a, s') -> exists s1, m s = (Returned a, s1).
Proof.
  unfold try_finally. destruct (m s) as [r s1].
  destruct (final s1) as [[[]|e] s2]; [|done]. intros [= -> <-]. by exists s1.
Qed.

(** In a summary [importFromGitHub] returns there is one result for
    each skill discovered, in the order of discovery and under the
    name of its directory; the three counters add up to their number;
    [imported] counts the results that succeeded and [skipped] those
    that say the skill was there already.  Processing a skill never
    throws, whatever the state: it adds one result under the name of
    the directory and steps the one counter that goes with it, and a
    skill that fails is recorded as a failed result that says why,
    with the validation errors when it does not validate.  So the loop
    over the skills never throws either, and the import returns a
    summary once the clone has succeeded, the skills directory is found
    and the discovery has returned. *)
Theorem importFromGitHub_summary url options s :
  (forall summary s',
     importFromGitHub url options s = (Returned summary, s') ->
     exists owner repo tempDir discovered s1,
       parseGitHubUrl url = Some (owner, repo) /\
       discoverSkills
         (path_join tempDir (or_default (io_skillsPath options) (js "skills"))) s1
         = (Returned discovered, s1) /\
       is_repoUrl summary = fullRepoUrl owner repo /\
       is_branch summary = or_default (io_branch options) (js "main") /\
       is_totalFound summary = length discovered /\
       map ir_skillName (is_results summary) = map lastSegment discovered /\
       (is_imported summary + is_failed summary + is_skipped summary)%nat
         = is_totalFound summary /\
       is_imported summary = length (List.filter ir_success (is_results summary)) /\
       is_skipped summary = length (List.filter isSkipped (is_results summary))) /\
  (forall targetDir force dryRun tally skillDir s0,
     exists tally' s1 r,
       importSkill targetDir force dryRun tally skillDir s0 = (Returned tally', s1) /\
       results tally' = results tally ++ [r] /\
       ir_skillName r = lastSegment skillDir /\
       imported tally' = (imported tally + if ir_success r then 1 else 0)%nat /\
       skipped tally' = (skipped tally + if isSkipped r then 1 else 0)%nat /\
       failed tally'
         = (failed tally + if ir_success r || isSkipped r then 0 else 1)%nat /\
       (ir_success r = true -> isSkipped r = false) /\
       (ir_success r = false -> isSkipped r = false ->
        is_Some (ir_validationErrors r) \/ is_Some (ir_error r)) /\
       (forall validation,
          (validateSkillDir skillDir s0).1 = Returned validation ->
          valid validation = false ->
          r = {| ir_skillName := lastSegment skillDir;
                 ir_skillDir := skillDir;
                 ir_success := false;
                 ir_error := None;
                 ir_validationErrors :=
                   Some (map (fun e => field e ++ js ": " ++ message e)
                             (errors validation));
                 ir_alreadyExists := None |})) /\
  (forall targetDir force dryRun todo tally s0,
     exists tally' s1,
       importSkills targetDir force dryRun todo tally s0 = (Returned tally', s1) /\
       map ir_skillName (results tally')
         = map ir_skillName (results tally) ++ map lastSegment todo) /\
  (forall owner repo tempDir w1 cloneResult s2 discovered,
     let branch := or_default (io_branch options) (js "main") in
     let skillsPath := or_default (io_skillsPath options) (js "skills") in
     let skillsDir := path_join tempDir skillsPath in
     parseGitHubUrl url = Some (owner, repo) ->
     Deno_makeTempDir tempPrefix (world s) = (Returned tempDir, w1) ->
     cloneRepo (fullRepoUrl owner repo) branch tempDir
       (logged [[LF] ++ js "Cloning repository: " ++ fullRepoUrl owner repo;
                js "Branch: " ++ branch;
                js "Temporary directory: " ++ tempDir ++ [LF]]
          {| world := w1; effects := effects s ++ [EMakeTempDir tempPrefix] |})
       = (Returned cloneResult, s2) ->
     clone_success cloneResult = true ->
     let s3 := logged [[CHECK] ++ js " Repository cloned successfully" ++ [LF]] s2 in
     (exists_ skillsDir s3).1 = Returned true ->
     (discoverSkills skillsDir
        (logged [js "Discovering skills in: " ++ skillsPath ++ js "/" ++ [LF]] s3)).1
       = Returned discovered ->
     exists summary s',
       importFromGitHub url options s = (Returned summary, s') /\
       is_totalFound summary = length discovered).
Proof.
  split; [|split; [|split]].
  2: { intros. apply importSkill_step. }
  2: { intros targetDir force dryRun todo tally s0.
       destruct (importSkills_run targetDir force dryRun todo tally s0)
         as (tally' & s1 & Hrun & Hnames & _).
       by exists tally', s1. }
  2: { cbv zeta.
       intros owner repo tempDir w1 cloneResult s2 discovered
         Hparse Htemp Hclone Hcloned Hpresent Hdiscover.
       unfold importFromGitHub. rewrite Hparse.
       unfold bind at 1, acting at 1. fold tempPrefix. rewrite Htemp.
       match goal with
       | |- context [try_finally ?b _ ?s1] =>
           assert (exists summary s1',
                     b s1 = (Returned summary, s1') /\
                     is_totalFound summary = length discovered)
             as (summary & s1' & Hbody & Hfound)
       end.
       { rewrite !bind_console_log.
         unfold fullRepoUrl in Hclone.
         change (logged [?c] (logged [?b] (logged [?a] ?st)))
           with (logged [a; b; c] st).
         unfold bind at 1. rewrite Hclone, Hcloned. cbn [negb].
         rewrite bind_console_log.
         rewrite (bind_ReadOnly (exists_ _)) by eauto with readonly.
         rewrite Hpresent. cbn [negb].
         rewrite bind_console_log.
         rewrite (bind_ReadOnly (discoverSkills _)) by apply discoverSkills_ReadOnly.
         rewrite Hdiscover.
         destruct (Nat.eqb_spec (length discovered) 0) as [Hzero|Hsome].
         - rewrite bind_console_log. eexists _, _. split; [reflexivity|].
           by rewrite Hzero.
         - rewrite bind_console_log.
           match goal with
           | |- context [bind (importSkills ?t ?f ?d ?todo ?tally0) _ ?st] =>
               destruct (importSkills_run t f d todo tally0 st)
                 as (tally' & st' & Hloop & _ & _)
           end.
           unfold bind at 1. rewrite Hloop. by eexists _, _. }
       destruct (try_finally_cleanup _ (ERemove tempDir true)
                   (Deno_remove tempDir true) _ _ _ Hbody) as [s' Hrun].
       exists summary, s'. by split. }
  intros summary s'. unfold importFromGitHub.
  destruct (parseGitHubUrl url) as [[owner repo]|]; [|done]. intros Hrun.
  apply bind_returned in Hrun as (tempDir & s1 & _ & Hrun).
  apply try_finally_returned in Hrun as (s2 & Hrun).
  apply bind_returned in Hrun as ([] & s3 & _ & Hrun).
  apply bind_returned in Hrun as ([] & s4 & _ & Hrun).
  apply bind_returned in Hrun as ([] & s5 & _ & Hrun).
  apply bind_returned in Hrun as (cloneResult & s6 & _ & Hrun).
  destruct (negb (clone_success cloneResult)); [done|].
  apply bind_returned in Hrun as ([] & s7 & _ & Hrun).
  apply bind_returned in Hrun as (present & s8 & _ & Hrun).
  destruct (negb present); [done|].
  apply bind_returned in Hrun as ([] & s9 & _ & Hrun).
  apply bind_returned in Hrun as (discovered & s10 & Hdiscover & Hrun).
  pose proof (discoverSkills_ReadOnly
                (path_join tempDir (or_default (io_skillsPath options) (js "skills")))
                s9) as Hro.
  rewrite Hdiscover in Hro. cbn [snd] in Hro. subst s10.
  exists owner, repo, tempDir, discovered, s9.
  split; [done|]. split; [done|].
  destruct (Nat.eqb_spec (length discovered) 0) as [Hzero|Hsome].
  - apply bind_returned in Hrun as ([] & s11 & _ & [= <- <-]).
    destruct discovered; [|done]. cbn [is_repoUrl is_branch is_totalFound
      is_imported is_failed is_skipped is_results]. done.
  - apply bind_returned in Hrun as ([] & s11 & _ & Hrun).
    apply bind_returned in Hrun as (tally & s12 & Hloop & [= <- <-]).
    cbn [is_repoUrl is_branch is_totalFound is_imported is_failed is_skipped
         is_results].
    match type of Hloop with
    | importSkills ?t ?f ?d ?todo ?tally0 ?st = _ =>
        destruct (importSkills_run t f d todo tally0 st)
          as (tally' & st' & Hloop' & Hnames & Hcounted)
    end.
    destruct Hcounted as (Hi & Hs & Hsum); [done|].
    rewrite Hloop in Hloop'. injection Hloop' as <- <-.
    cbn [results map app] in Hnames.
    assert (length (results tally) = length discovered) as Hlen.
    { by rewrite <- (length_map ir_skillName), Hnames, length_map. }
    repeat split; try done. lia.
Qed.

End ImportFacts.
End ImportFacts.

(** ** The commands *)

Module CommandFacts.
Import Listing Importer Main Terms ImportFacts.
Section CommandFacts.
Context {W : Type} `{Deno W} `{Shell W}.

Lemma logged_effects lines s : effects (logged lines s) = effects s.
Proof.
  unfold logged. revert s.
  induction lines as [|text lines IH]; intros s; [done|].
  cbn [fold_left]. by rewrite IH.
Qed.

Lemma logged_app lines lines' s :
  logged (lines ++ lines') s = logged lines' (logged lines s).
Proof. unfold logged. by rewrite fold_left_app. Qed.

(** Printing the results changes nothing in the record of effects and
    tells whether one of them is a failure. *)
Lemma printResults_run results hasErrors s :
  exists s',
    printResults results hasErrors s
      = (Returned (hasErrors || negb (forallb success results)), s') /\
    effects s' = effects s.
Proof.
  revert hasErrors s. induction results as [|result rest IH]; intros hasErrors s.
  - exists s. cbn [printResults forallb negb]. by rewrite orb_false_r.
  - cbn [printResults forallb]. destruct (success result).
    + rewrite bind_console_log.
      match goal with
      | |- context [printResults rest hasErrors ?s0] =>
          destruct (IH hasErrors s0) as (s' & Hrun & Heff)
      end.
      exists s'. split; [exact Hrun | by rewrite Heff, logged_effects].
    + unfold bind at 1, console_error at 1.
      match goal with
      | |- context [printResults rest true ?s0] =>
          destruct (IH true s0) as (s' & Hrun & Heff)
      end.
      exists s'. rewrite Hrun. cbn [andb negb orb]. rewrite orb_true_r.
      split; [done | exact Heff].
Qed.

Lemma validateSkillDir_returns dir s :
  exists result, validateSkillDir dir s = (Returned result, s).
Proof.
  assert (Total (validateSkillDir dir)) as Htotal
    by (apply try_catch_Total; intros e; apply ret_Total).
  destruct (Htotal s) as [result Hresult]. exists result.
  rewrite (ReadOnly_run _ s (validateSkillDir_ReadOnly dir)).
  by rewrite <- Hresult.
Qed.

(** [commandValidate] changes nothing and never throws; it exits with
    0 when [validateSkillDir] accepts the directory and with 1 when it
    does not. *)
Theorem commandValidate_status dir s :
  exists result s',
    (validateSkillDir dir (logged [js "Validating skill: " ++ dir ++ [LF]] s)).1
      = Returned result /\
    commandValidate dir s = (Returned (if valid result then 0 else 1)%nat, s') /\
    effects s' = effects s.
Proof.
  unfold commandValidate. rewrite bind_console_log.
  set (s1 := logged _ s).
  destruct (validateSkillDir_returns dir s1) as [result Hresult].
  exists result. unfold bind at 1. rewrite Hresult. cbn [fst].
  destruct (valid result).
  - eexists. split; [done|]. split; [reflexivity|].
    cbn [snd effects]. subst s1. apply logged_effects.
  - eexists. split; [done|]. split; [reflexivity|].
    cbn [snd effects]. subst s1. apply logged_effects.
Qed.

Lemma parseTargets_run args s :
  exists s',
    parseTargets args s
      = (Returned match selected args with
                  | Some targets => inr targets
                  | None => inl 1%nat
                  end, s') /\
    effects s' = effects s /\
    (is_Some (selected args) -> s' = s).
Proof.
  unfold parseTargets, selected. destruct (args_all args).
  { exists s. by split. }
  destruct (truthy_string (args_target args)) as [target|].
  - destruct (asDeployTarget target) as [t|].
    + exists s. by split.
    + eexists. split; [reflexivity|]. split; [done|]. by intros [? ?].
  - eexists. split; [reflexivity|]. split; [done|]. by intros [? ?].
Qed.

(** [commandDeploy] deploys nothing unless targets are selected and
    the skill validates: otherwise it exits with 1 and the record of
    effects is as it was.  When it deploys, it exits with 0 if every
    target succeeded and with 1 if one failed; what [deploySkill]
    throws, it throws. *)
Theorem commandDeploy_status dir args s :
  (selected args = None ->
   exists s', commandDeploy dir args s = (Returned 1%nat, s') /\
              effects s' = effects s) /\
  (forall targets,
     selected args = Some targets ->
     exists validation,
       (validateSkillDir dir (logged [js "Validating skill: " ++ dir] s)).1
         = Returned validation /\
       (valid validation = false ->
        exists s', commandDeploy dir args s = (Returned 1%nat, s') /\
                   effects s' = effects s) /\
       (valid validation = true ->
        match deploySkill dir (deployOptions args targets)
                (logged (deployNotice dir args targets) s) with
        | (Returned results, s3) =>
            exists s', commandDeploy dir args s = (Returned (statusOf results), s') /\
                       effects s' = effects s3
        | (Thrown e, s3) => commandDeploy dir args s = (Thrown e, s3)
        end)).
Proof.
  destruct (parseTargets_run args s) as (s0 & Hparse & Heff0 & Hsame).
  split.
  - intros Hsel. unfold commandDeploy, bind at 1. rewrite Hparse, Hsel.
    exists s0. by split.
  - intros targets Hsel. rewrite Hsel in *.
    rewrite (Hsame (ltac:(eauto))) in Hparse. clear s0 Heff0 Hsame.
    assert (forall body : nat + list DeployTarget -> M W nat,
              bind (parseTargets args) body s = body (inr targets) s) as Hbind.
    { intros body. unfold bind. by rewrite Hparse. }
    unfold commandDeploy. rewrite !Hbind. clear Hbind Hparse.
    rewrite !bind_console_log.
    set (s1 := logged [js "Validating skill: " ++ dir] s).
    destruct (validateSkillDir_returns dir s1) as [validation Hvalidation].
    exists validation. split; [by rewrite Hvalidation|].
    assert (forall body : ValidationResult -> M W nat,
              bind (validateSkillDir dir) body s1 = body validation s1) as Hbind.
    { intros body. unfold bind. by rewrite Hvalidation. }
    rewrite !Hbind. clear Hbind. split.
    + intros ->. cbn [negb]. eexists. split; [reflexivity|].
      cbn [snd effects]. subst s1. apply logged_effects.
    + intros ->. cbn [negb]. rewrite bind_console_log.
      fold (deployOptions args targets).
      assert (forall k : unit -> M W nat,
                bind (if dryRun (deployOptions args targets)
                      then console_log
                             (js "(Dry run mode - no files will be written)" ++ [LF])
                      else ret tt) k
                  (logged [[CHECK] ++ js " Validation passed" ++ [LF]] s1)
                = k tt (logged
                          ([js "Validating skill: " ++ dir;
                            [CHECK] ++ js " Validation passed" ++ [LF]] ++
                           (if args_dry_run args
                            then [js "(Dry run mode - no files will be written)"
                                  ++ [LF]]
                            else [])) s)) as ->.
      { intros k. subst s1. cbn [dryRun deployOptions].
        by destruct (args_dry_run args). }
      rewrite bind_console_log, <- logged_app, <- app_assoc.
      fold (deployNotice dir args targets).
      destruct (deploySkill dir (deployOptions args targets)
                  (logged (deployNotice dir args targets) s))
        as [[results|e] s3] eqn:Hdeploy.
      * destruct (printResults_run results false s3) as (s' & Hprint & Heff).
        exists s'. unfold bind at 1. rewrite Hdeploy.
        unfold bind, exit. rewrite Hprint. cbn [orb].
        split; [|done]. unfold statusOf. by destruct (forallb success results).
      * unfold bind at 1. by rewrite Hdeploy.
Qed.

(** [commandRemove] exits with 1, having done nothing, when no target
    or an unknown one is given; otherwise it exits with 0 when
    [removeSkill] succeeded and with 1 when it did not. *)
Theorem commandRemove_status name args s :
  (forall target,
     truthy_string (args_target args) = Some target ->
     forall deployTarget,
       asDeployTarget target = Some deployTarget ->
       exists result s1 s',
         removeSkill name deployTarget
           (logged [js "Removing skill " ++ [QUOTE] ++ name ++ [QUOTE] ++
                    js " from " ++ target ++ js "..."] s)
           = (Returned result, s1) /\
         commandRemove name args s
           = (Returned (if removed result then 0 else 1)%nat, s') /\
         effects s' = effects s1) /\
  (selected {| args_all := false; args_target := args_target args;
               args_force := false; args_dry_run := false;
               args_project_path := None |} = None ->
   exists s', commandRemove name args s = (Returned 1%nat, s') /\
              effects s' = effects s).
Proof.
  unfold commandRemove, selected. cbn [args_all args_target]. split.
  - intros target -> deployTarget ->. rewrite bind_console_log.
    set (s0 := logged _ s).
    assert (Total (removeSkill name deployTarget)) as Hremove
      by (apply try_catch_Total; intros e; apply ret_Total).
    destruct (Hremove s0) as [result Hresult].
    destruct (removeSkill name deployTarget s0) as [r s1] eqn:Hrun.
    cbn [fst] in Hresult. subst r.
    exists result, s1. unfold bind at 1. rewrite Hrun.
    destruct (removed result); eexists; split; try done; split; reflexivity.
  - destruct (truthy_string (args_target args)) as [target|].
    + destruct (asDeployTarget target); [done|]. intros _.
      eexists. split; [reflexivity|]. done.
    + intros _. eexists. split; [reflexivity|]. done.
Qed.

End CommandFacts.
End CommandFacts.

(** ** The repository's own tests, on the model *)

Module RepositoryTests.
Import Sim Scenarios.

(** validator.test.ts, "validateMetadata - name too long". *)
Lemma test_name_too_long :
  validateMetadata {[ js "name" := VStr (List.repeat 97%N 65);
                      js "description" := VStr (js "A test skill") ]}
    = [mkError (js "name") (js "Must be 64 characters or less (got 65)")].
Proof. vm_compute. reflexivity. Qed.

(** validator.test.ts, "validateMetadata - name with newlines": both
    errors, in this order. *)
Lemma test_name_with_newlines :
  validateMetadata {[ js "name" := VStr (js "test-skill" ++ [LF] ++ js "with-newline");
                      js "description" := VStr (js "A test skill") ]}
    = [mkError (js "name") (js "Must be a single line (no newlines)");
       mkError (js "name")
         (js "Must contain only lowercase letters, numbers, and hyphens")].
Proof. vm_compute. reflexivity. Qed.

(** validator.test.ts, "validateMetadata - name with underscores". *)
Lemma test_name_with_underscores :
  validateMetadata {[ js "name" := VStr (js "test_skill");
                      js "description" := VStr (js "A test skill") ]}
    = [mkError (js "name")
         (js "Must contain only lowercase letters, numbers, and hyphens")].
Proof. vm_compute. reflexivity. Qed.

(** validator.test.ts, "parseSkillFile - file not found". *)
Lemma test_file_not_found :
  (parseSkillFile (js "/nonexistent/SKILL.md") (start clean)).1
    = Thrown (newError (js "File not found: /nonexistent/SKILL.md")).
Proof. vm_compute. reflexivity. Qed.

(** utils.test.ts, "parseFrontmatter - missing opening delimiter". *)
Lemma test_missing_opening_delimiter :
  parseFrontmatter (joinLines [js "name: test-skill"; js "---"; js ""; js "Content"])
    = Thrown (newError (js "SKILL.md must start with YAML frontmatter (---)")).
Proof. vm_compute. reflexivity. Qed.

(** utils.test.ts, "parseFrontmatter - missing closing delimiter". *)
Lemma test_missing_closing_delimiter :
  parseFrontmatter (joinLines [js "---"; js "name: test-skill"; js ""; js "Content"])
    = Thrown (newError (js "YAML frontmatter must end with ---")).
Proof. vm_compute. reflexivity. Qed.

(** validator.test.ts, "validateSkillDir - valid skill directory". *)
Lemma test_valid_skill_directory :
  (validateSkillDir (js "/work/test-skill") (start clean)).1
    = Returned {| valid := true; errors := [] |}.
Proof. vm_compute. reflexivity. Qed.

(** deployer.test.ts, "deploySkill - dry run mode", on three targets. *)
Lemma test_dry_run_mode :
  verdicts (deploySkill (js "/work/test-skill")
              (options_for [claude; codex; cursor] false true) (start clean)).1
    = Some [true; true; true] /\
  (deploySkill (js "/work/test-skill")
     (options_for [claude; codex; cursor] false true) (start clean)).2
    = start clean.
Proof. split; vm_compute; reflexivity. Qed.

End RepositoryTests.

(** ** The properties on concrete inputs *)

Module Cases.
Import Sim Scenarios.

(** C1, as stated, fails: deployed twice to the same target without
    force on a clean machine, the dry run reports two successes while
    the real run reports a success and then "already exists". *)
Lemma dryRun_verdict_differs :
  verdicts (run (deploySkill (js "/work/test-skill")
                             (options_for [claude; claude] false true)) clean).1
    = Some [true; true] /\
  verdicts (run (deploySkill (js "/work/test-skill")
                             (options_for [claude; claude] false false)) clean).1
    = Some [true; false].
Proof. split; vm_compute; reflexivity. Qed.

(** The same disagreement with a single target: a directory named
    .cursorrules cannot be overwritten by the file, which only the real
    run finds out. *)
Lemma dryRun_verdict_differs_on_write_failure :
  let w := with_files clean (<[js ".cursorrules" := Folder]> (files clean)) in
  verdicts (run (deploySkill (js "/work/test-skill")
                             (options_for [cursor] true true)) w).1
    = Some [true] /\
  verdicts (run (deploySkill (js "/work/test-skill")
                             (options_for [cursor] true false)) w).1
    = Some [false].
Proof. split; vm_compute; reflexivity. Qed.

(** The dry run of the first scenario changes nothing; and where
    test-skill is deployed already, the dry run and the real run for
    claude return the same refusal. *)
Lemma deploySkill_dryRun_witness :
  (deploySkill (js "/work/test-skill") (options_for [claude; claude] false true)
     (start clean)).2 = start clean /\
  exists refusal,
    deploySkill (js "/work/test-skill") (options_for [claude] false true)
      (start deployed) = (Returned [refusal], start deployed) /\
    deploySkill (js "/work/test-skill") (options_for [claude] false false)
      (start deployed) = (Returned [refusal], start deployed) /\
    success refusal = false.
Proof.
  split.
  - apply (deploySkill_dryRun (js "/work/test-skill")
             (options_for [claude; claude] false false) (start clean)).
  - destruct (deploySkill_dryRun (js "/work/test-skill")
                (options_for [claude] false false) (start deployed))
      as (_ & _ & _ & _ & _ & Hsingle).
    destruct (Hsingle claude
                [deployFailure claude
                   (alreadyExistsMessage claude
                      (js "/home/u/.claude/skills/test-skill"))]
                eq_refl)
      as (rd & rn & sn & Hrd & Hreal & Hagree).
    { vm_compute. reflexivity. }
    injection Hrd as <-.
    destruct Hagree as [[<- Hsame]|(Hsuccess & _)]; [|discriminate Hsuccess].
    rewrite (Hsame eq_refl) in Hreal.
    eexists. split; [|split; [exact Hreal | reflexivity]].
    vm_compute. reflexivity.
Defined.


(** C3 at the failing input: syncing the link x, whose skill is in the
    subdirectory skills/foo of the repository, deploys it and then
    removes only that subdirectory; the temporary directory, which was
    not there before, is still there after the call. *)
Theorem syncLink_leaves_temporary_directory :
  let r := run (syncLink (js "x") (user_claude false)) linked in
  (exists result, r.1 = Returned result /\ sr_success result = true) /\
  stat next_temp linked = Thrown (notFound next_temp) /\
  stat next_temp (world r.2) = Returned {| isDirectory := true |} /\
  last (effects r.2) = Some (ERemove (next_temp ++ js "/skills/foo") true) /\
  ERemove next_temp true ∉ effects r.2.
Proof.
  cbv zeta. split; [|split; [|split; [|split]]].
  - eexists. split; vm_compute; reflexivity.
  - vm_compute. reflexivity.
  - vm_compute. reflexivity.
  - vm_compute. reflexivity.
  - apply (bool_decide_unpack _). vm_compute. exact I.
Qed.

(** C4 at the failing input: deployed with the project path /proj,
    the skill goes to the user-level directories under the home
    directory all the same. *)
Theorem deploySkill_projectPath_unused :
  (run (deploySkill (js "/work/test-skill")
          {| targets := [claude; codex]; force := false; dryRun := false;
             projectPath := Some (js "/proj") |}) clean).1
    = Returned [deploySuccess claude (js "/home/u/.claude/skills/test-skill");
                deploySuccess codex (js "/home/u/.codex/skills/test-skill")].
Proof. vm_compute. reflexivity. Qed.



(** C6, as stated, fails: with no .cursorrules there,
    [removeSkill] on cursor reports success. *)
Lemma removeSkill_cursor_absent :
  (exists_ TARGET_PATHS.cursor.project (start clean)).1 = Returned false /\
  removeSkill (js "any-name") cursor (start clean)
    = (Returned {| removed := true; remove_error := None |}, start clean).
Proof. split; vm_compute; reflexivity. Qed.

(** Removing a skill that is not deployed, on claude. *)
Lemma removeSkill_outcomes_witness :
  removeSkill (js "nonexistent-skill") claude (start clean)
    = (Returned {| removed := false;
                   remove_error :=
                     Some (js "Skill not found: /home/u/.claude/skills/nonexistent-skill") |},
       start clean).
Proof.
  destruct (removeSkill_outcomes (js "nonexistent-skill") (start clean))
    as (_ & _ & _ & Hskill).
  refine (proj1 (Hskill claude (js "/home/u/.claude/skills") _ _) _).
  - intros Hc. discriminate Hc.
  - vm_compute. reflexivity.
  - vm_compute. reflexivity.
Defined.

(** C7, as stated, fails: both headers have a name that matches the
    pattern and a single-line description of at most 500 characters,
    and both have an error. *)
Lemma validateMetadata_rejects_well_formed :
  (prop empty_description (js "name") = VStr (js "a") /\
   nameRegex_test (js "a") = true /\
   prop empty_description (js "description") = VStr [] /\
   hasNewline [] = false /\
   validateMetadata empty_description
     = [mkError (js "description") (js "Required field is missing")]) /\
  (prop numeric_model (js "name") = VStr (js "a") /\
   prop numeric_model (js "description") = VStr (js "ok") /\
   hasNewline (js "ok") = false /\
   validateMetadata numeric_model
     = [mkError (js "model") (js "Must be a string")]).
Proof. repeat split; vm_compute; reflexivity. Qed.

(** A header that passes, and one without a name. *)
Lemma validateMetadata_rules_witness :
  validateMetadata good_header = [] /\
  errorsFor (js "name") nameless
    = [mkError (js "name") (js "Required field is missing")].
Proof.
  destruct (validateMetadata_rules good_header) as (_ & _ & Hgood & _).
  destruct (validateMetadata_rules nameless) as (_ & _ & _ & Hname & _).
  split.
  - apply (Hgood (js "test-skill") (js "A test skill")); try (vm_compute; reflexivity).
    + vm_compute. lia.
    + discriminate.
    + vm_compute. lia.
    + right. eexists. split; vm_compute; reflexivity.
    + left. vm_compute. reflexivity.
    + left. vm_compute. reflexivity.
  - apply Hname. vm_compute. reflexivity.
Defined.

Lemma linked_reads :
  (readLinkRegistry claude true (start linked)).1 = Returned linked_registry.
Proof. vm_compute. reflexivity. Defined.

Lemma clean_reads :
  (readLinkRegistry claude true (start clean)).1 = Returned emptyRegistry.
Proof. vm_compute. reflexivity. Defined.

(** C8 on the clean machine and on the one where x is linked: x is
    added and listed; adding it again without force fails and writes
    nothing; it is removed and the list is empty. *)
Lemma registry_add_remove_witness :
  (exists s',
     addLink (js "x") repository_url (user_claude false) in_subdirectory (start clean)
       = (Returned (linkSuccess x_link), s') /\
     listLinks (user_claude false) s' = (Returned [x_link], s')) /\
  addLink (js "x") repository_url (user_claude false) in_subdirectory (start linked)
    = (Returned (linkFailure (existsMessage (js "x"))), start linked) /\
  (exists s',
     removeLink (js "x") (user_claude false) (start linked)
       = (Returned (linkSuccess x_link), s') /\
     listLinks (user_claude false) s' = (Returned [], s')).
Proof.
  destruct (registry_add_remove (js "x") repository_url (user_claude false)
              in_subdirectory (start clean) emptyRegistry host_laws clean_reads)
    as (_ & Hadd & _).
  destruct (registry_add_remove (js "x") repository_url (user_claude false)
              in_subdirectory (start linked) linked_registry host_laws linked_reads)
    as (Hrefused & _ & _ & Hremove & _).
  split; [|split].
  - eexists.
    refine (proj2 (proj2 (Hadd (or_introl eq_refl)
                            {| lv_valid := true; lv_error := None |} _) eq_refl) _ _).
    + vm_compute. reflexivity.
    + vm_compute. reflexivity.
  - apply Hrefused; [|reflexivity]. vm_compute. eauto.
  - eexists.
    refine (proj2 (Hremove O eq_refl) _ _).
    vm_compute. reflexivity.
Defined.

(** C9 on the same machine: one enabled link, one result. *)
Lemma syncAllLinks_visits_witness :
  exists results s',
    syncAllLinks (user_claude false) (start linked) = (Returned results, s') /\
    length results = 1%nat.
Proof.
  destruct (syncAllLinks_visits (user_claude false) (start linked) linked_registry
              linked_reads) as (results & s' & Hrun & _ & Hlen).
  exists results, s'. split; [exact Hrun | exact Hlen].
Defined.

(** C10 on the same machine: disabling x rewrites the registry with
    the one flag changed; disabling a name that is not there fails and
    writes nothing. *)
Lemma toggleLink_frame_witness :
  toggleLink (js "x") false (user_claude false) (start linked)
    = afterWrite claude true
        {| version := LINK_REGISTRY_VERSION; links := [setEnabled false x_link] |}
        (setEnabled false x_link) (start linked) /\
  toggleLink (js "y") false (user_claude false) (start linked)
    = (Returned (linkFailure (notFoundMessage (js "y"))), start linked).
Proof.
  split.
  - refine (proj1 (proj2 (toggleLink_frame (js "x") false (user_claude false)
              (start linked) linked_registry host_laws linked_reads) O _)).
    vm_compute. reflexivity.
  - refine (proj1 (toggleLink_frame (js "y") false (user_claude false)
              (start linked) linked_registry host_laws linked_reads) _).
    vm_compute. reflexivity.
Defined.

(** The git sync of y, which declares no path, ends by removing the
    temporary directory. *)
Lemma syncLink_git_removes_temporary_witness :
  last (effects (syncLink (js "y") (user_claude false) (start linked_plain)).2)
    = Some (ERemove next_temp true).
Proof.
  apply (syncLink_git_removes_temporary (js "y") (user_claude false)
           (start linked_plain)
           {| version := LINK_REGISTRY_VERSION; links := [y_link] |} y_link next_temp
           (makeTempDir (js "skill-link-") linked_plain).2
           (Command_output (js "git") (cloneArguments y_link next_temp)
              (makeTempDir (js "skill-link-") linked_plain).2).1
           (Command_output (js "git") (cloneArguments y_link next_temp)
              (makeTempDir (js "skill-link-") linked_plain).2).2).
  - vm_compute. reflexivity.
  - vm_compute. reflexivity.
  - reflexivity.
  - reflexivity.
  - vm_compute. reflexivity.
  - vm_compute. reflexivity.
  - left. reflexivity.
Defined.

(** On the clean machine there is no registry file yet. *)
Lemma readLinkRegistry_missing_witness :
  readLinkRegistry claude true (start clean)
    = (Returned {| version := LINK_REGISTRY_VERSION; links := [] |}, start clean).
Proof.
  apply (readLinkRegistry_missing claude true (start clean)
           (js "/home/u/.claude/skill-links.json")
           (notFound (js "/home/u/.claude/skill-links.json"))).
  - vm_compute. reflexivity.
  - vm_compute. reflexivity.
  - reflexivity.
Defined.

(** Three targets, three outcomes; and a manifest whose header has
    nothing in it, on which [deploySkill] throws. *)
Lemma deploySkill_one_outcome_per_target_witness :
  (exists results s',
     deploySkill (js "/work/test-skill")
       (options_for [claude; codex; cursor] false false) (start clean)
       = (Returned results, s') /\
     map target results = [claude; codex; cursor]) /\
  (exists e,
     deploySkill (js "/work/hollow") (options_for [claude] false false) (start hollow)
       = (Thrown e, start hollow) /\
     errorClass e = TypeError).
Proof.
  split.
  - destruct (deploySkill_one_outcome_per_target (js "/work/test-skill")
                (options_for [claude; codex; cursor] false false) (start clean))
      as (_ & _ & Hreturns).
    destruct (Hreturns test_skill
                {[ js "name" := VStr (js "test-skill");
                   js "description" := VStr (js "A test skill") ]})
      as (results & s' & Hrun & Hall).
    + vm_compute. reflexivity.
    + reflexivity.
    + exists results, s'. split; [exact Hrun|].
      simpl in Hall.
      repeat match goal with
             | H : Forall2 _ (_ :: _) _ |- _ =>
                 apply Forall2_cons_inv_l in H as (? & ? & <- & H & ->)
             | H : Forall2 _ [] _ |- _ => apply Forall2_nil_inv_l in H as ->
             end.
      reflexivity.
  - destruct (deploySkill_one_outcome_per_target (js "/work/hollow")
                (options_for [claude] false false) (start hollow))
      as (_ & Hthrows & _).
    apply (Hthrows {| metadata := HNull; content := [LF] ++ js "# Hollow" ++ [LF];
                      raw := hollow_md |}).
    + vm_compute. reflexivity.
    + left. reflexivity.
Defined.

End Cases.

(** ** The further properties on concrete inputs *)

Module MoreCases.
Import Sim SimShell Scenarios Installed.
Import ConverterRules Listing Importer Main Terms.
Import RuleFacts FormatFacts FrontmatterFacts LinkTypeFacts RefusalFacts
  ToggleFacts UrlFacts ImportFacts CommandFacts ResultFacts.

(** In the simulated host, looking a file up never fails: it is there
    or it is not. *)
Lemma simulated_Probed base s entries : Probed (W:=World) base s entries.
Proof.
  apply Forall_forall. intros entry _ _.
  unfold exists_, try_catch, bind, reading. cbn [Deno_stat host].
  unfold stat. destruct (files (world s) !! _) as [[data|]|]; eauto.
Qed.

(** On the machine with two skills, [listSkills] lists the two, in
    order, and neither the empty directory nor the file. *)
Lemma listSkills_lists_witness :
  listSkills (js "~/.claude/skills") (start installed)
    = (Returned [js "skill1"; js "skill2"], start installed).
Proof.
  destruct (listSkills_lists (js "~/.claude/skills") (start installed)
              skills_directory) as [_ Hlist].
  - vm_compute. reflexivity.
  - destruct (Hlist skills_entries) as [Hrun _].
    + vm_compute. reflexivity.
    + vm_compute. reflexivity.
    + apply simulated_Probed.
    + rewrite Hrun. vm_compute. reflexivity.
Defined.

(** And [discoverSkills] finds their two directories. *)
Lemma discoverSkills_finds_witness :
  discoverSkills skills_directory (start installed)
    = (Returned [js "/home/u/.claude/skills/skill1";
                 js "/home/u/.claude/skills/skill2"], start installed).
Proof.
  destruct (discoverSkills_finds skills_directory (start installed)) as [_ Hfind].
  destruct (Hfind skills_entries) as [Hrun _].
  - vm_compute. reflexivity.
  - vm_compute. reflexivity.
  - apply simulated_Probed.
  - rewrite Hrun. vm_compute. reflexivity.
Defined.

(** The one error of the header without a name, printed. *)
Lemma formatErrors_lines_witness :
  splitLines (formatErrors (validateMetadata nameless))
    = [js "  - name: Required field is missing"].
Proof.
  rewrite (formatErrors_lines nameless).
  - vm_compute. reflexivity.
  - vm_compute. discriminate.
Defined.

(** The manifest of test-skill, cut into its parts. *)
Lemma parseFrontmatter_parts_witness :
  exists first yamlLines closing contentLines,
    splitLines skill_md = first :: yamlLines ++ closing :: contentLines /\
    trim first = js "---" /\
    Forall (fun line => trim line <> js "---") yamlLines /\
    trim closing = js "---" /\
    parseYaml (joinLines yamlLines) = Returned (metadata test_skill) /\
    content test_skill = joinLines contentLines /\
    raw test_skill = skill_md.
Proof.
  apply (proj1 (parseFrontmatter_parts (W:=World) skill_md test_skill)).
  vm_compute. reflexivity.
Defined.

(** Deploying test-skill to the three targets without force. *)
Lemma deploySkill_without_force_witness :
  exists new,
    effects (deploySkill (js "/work/test-skill")
               (options_for [claude; codex; cursor] false false) (start clean)).2
      = effects (start clean) ++ new /\
    Forall creating new.
Proof.
  apply (deploySkill_without_force (js "/work/test-skill")
           (options_for [claude; codex; cursor] false false) (start clean)).
  reflexivity.
Defined.

(** The repository address is detected as a git link and accepted;
    the ssh address of the same repository is taken for a directory. *)
Lemma detected_type_validation_witness :
  validateLink (newLink (js "x") repository_url no_details) (start clean)
    = (Returned {| lv_valid := true; lv_error := None |}, start clean) /\
  link_type (newLink (js "x") (js "git@github.com:owner/repo.git") no_details)
    = local.
Proof.
  split.
  - refine (proj2 (proj1 (detected_type_validation (js "x") repository_url
                            no_details (start clean) _ _) _)).
    + reflexivity.
    + vm_compute. reflexivity.
    + vm_compute. reflexivity.
  - refine (proj2 (proj2 (detected_type_validation (js "x")
                            (js "git@github.com:owner/repo.git")
                            no_details (start clean) _ _)) _).
    + reflexivity.
    + vm_compute. reflexivity.
    + vm_compute. reflexivity.
Defined.

(** On the machine where x is linked, y is not. *)
Lemma syncLink_refusals_witness :
  syncLink (js "y") (user_claude false) (start linked)
    = (Returned (syncFailure None (notFoundMessage (js "y"))), start linked).
Proof.
  refine (proj1 (syncLink_refusals (js "y") (user_claude false) (start linked)
                   linked_registry _) _).
  - vm_compute. reflexivity.
  - vm_compute. reflexivity.
Defined.

(** With a damaged registry file, adding a link fails and the file
    stays. *)
Lemma unreadable_registry_untouched_witness :
  addLink (js "x") repository_url (user_claude true) no_details (start damaged)
    = (Returned (linkFailure (js "Unexpected token in JSON")), start damaged).
Proof.
  refine (proj1 (unreadable_registry_untouched (js "x") repository_url true
                   (user_claude true) no_details (start damaged) damaged_error _)).
  vm_compute. reflexivity.
Defined.

(** Once x, the one link, is disabled, [syncAllLinks] has nothing to
    run. *)
Lemma disabled_link_not_synced_witness :
  exists results s'',
    syncAllLinks (user_claude false)
      (toggleLink (js "x") false (user_claude false) (start linked)).2
      = (Returned results, s'') /\
    SyncRun (user_claude false) []
      (toggleLink (js "x") false (user_claude false) (start linked)).2 results s''.
Proof.
  apply (disabled_link_not_synced (js "x") (user_claude false) (start linked)
           linked_registry (linkSuccess x_disabled)
           (toggleLink (js "x") false (user_claude false) (start linked)).2).
  - apply host_laws.
  - vm_compute. reflexivity.
  - intros name. unfold linked_registry. cbn [links].
    rewrite occurrences_one. destruct (hasName name x_link); lia.
  - vm_compute. reflexivity.
  - reflexivity.
Defined.

(** The four forms of the address of owner/repo. *)
Lemma parseGitHubUrl_formats_witness :
  parseGitHubUrl (js "https://github.com/owner/repo") = Some (js "owner", js "repo") /\
  parseGitHubUrl repository_url = Some (js "owner", js "repo") /\
  parseGitHubUrl (js "git@github.com:owner/repo.git") = Some (js "owner", js "repo") /\
  parseGitHubUrl (js "owner/repo") = Some (js "owner", js "repo").
Proof.
  destruct (parseGitHubUrl_formats (js "owner") (js "repo"))
    as (Hhttps & Hgit & Hssh & Hshort).
  - split; [discriminate|]. apply (bool_decide_unpack _). vm_compute. exact I.
  - split; [discriminate|]. apply (bool_decide_unpack _). vm_compute. exact I.
  - apply (bool_decide_unpack _). vm_compute. exact I.
  - split; [exact Hhttps|]. split; [exact Hgit|]. split; [exact Hssh|].
    apply Hshort. vm_compute. reflexivity.
Defined.

(** A repository name with a dot is accepted in the short form, and
    the address built from it is not accepted again. *)
Lemma parseGitHubUrl_sound_witness :
  (segment (js "owner") /\ segment (js "my.repo")) /\
  parseGitHubUrl (fullRepoUrl (js "owner") (js "my.repo")) = None.
Proof.
  split.
  - destruct (parseGitHubUrl_sound (js "owner/my.repo") (js "owner") (js "my.repo"))
      as (Howner & Hrepo & _).
    + vm_compute. reflexivity.
    + by split.
  - vm_compute. reflexivity.
Defined.

(** An import of owner/repo on the clean machine ends by removing its
    temporary directory; an address without a slash is refused at
    once. *)
Lemma importFromGitHub_cleans_up_witness :
  last (effects (importFromGitHub (js "owner/repo") (import_options false false)
                   (start clean)).2)
    = Some (ERemove import_temp true) /\
  importFromGitHub (js "repo") (import_options false false) (start clean)
    = (Thrown (newError (js "Invalid GitHub URL: repo")), start clean).
Proof.
  split.
  - apply (proj2 (importFromGitHub_cleans_up (js "owner/repo")
                    (import_options false false) (start clean))
             (js "owner") (js "repo") import_temp import_started).
    + vm_compute. reflexivity.
    + vm_compute. reflexivity.
  - apply (proj1 (importFromGitHub_cleans_up (js "repo")
                    (import_options false false) (start clean))).
    vm_compute. reflexivity.
Defined.

(** The dry run of that import. *)
Lemma importFromGitHub_dryRun_witness :
  exists new,
    effects (importFromGitHub (js "owner/repo") (import_options false true)
               (start clean)).2
      = effects (start clean) ++ [EMakeTempDir tempPrefix] ++ new
        ++ [ERemove import_temp true] /\
    Forall (cloning repository_url (js "main") import_temp) new.
Proof.
  apply (importFromGitHub_dryRun (js "owner/repo") (import_options false true)
           (start clean) (js "owner") (js "repo") import_temp import_started).
  - reflexivity.
  - vm_compute. reflexivity.
  - vm_compute. reflexivity.
Defined.

(** The import itself, without force. *)
Lemma importFromGitHub_without_force_witness :
  exists new,
    effects (importFromGitHub (js "owner/repo") (import_options false false)
               (start clean)).2
      = effects (start clean) ++ [EMakeTempDir tempPrefix] ++ new
        ++ [ERemove import_temp true] /\
    Forall creatingOrGit new.
Proof.
  apply (importFromGitHub_without_force (js "owner/repo") (import_options false false)
           (start clean) (js "owner") (js "repo") import_temp import_started).
  - reflexivity.
  - vm_compute. reflexivity.
  - vm_compute. reflexivity.
Defined.

(** The summary of an import of three skills: one is imported, one
    does not validate, one is there already. *)
Lemma importFromGitHub_summary_witness :
  exists summary,
    (importFromGitHub (js "owner/pack") (import_options false false)
       (start pack_machine)).1 = Returned summary /\
    is_totalFound summary = 3%nat /\
    map ir_skillName (is_results summary) = [js "alpha"; js "beta"; js "gamma"] /\
    map ir_success (is_results summary) = [true; false; false] /\
    is_imported summary = 1%nat /\
    is_failed summary = 1%nat /\
    is_skipped summary = 1%nat /\
    (is_imported summary + is_failed summary + is_skipped summary)%nat
      = is_totalFound summary.
Proof.
  destruct (importFromGitHub (js "owner/pack") (import_options false false)
              (start pack_machine)) as [[summary|e] s'] eqn:Hrun.
  - exists summary. split; [reflexivity|].
    destruct (proj1 (importFromGitHub_summary _ _ _) _ _ Hrun)
      as (owner & repo & tempDir & discovered & s1 & _ & _ & _ & _
          & Hfound & Hnames & Hsum & _).
    vm_compute in Hrun. injection Hrun as <- <-.
    repeat (split; [reflexivity|]). exact Hsum.
  - vm_compute in Hrun. discriminate Hrun.
Defined.

(** Without a target nothing is deployed; a dry run of test-skill for
    claude exits with 0. *)
Lemma commandDeploy_status_witness :
  (exists s', commandDeploy (js "/work/test-skill") no_target (start clean)
                = (Returned 1%nat, s') /\
              effects s' = effects (start clean)) /\
  (exists s', commandDeploy (js "/work/test-skill") dry_claude (start clean)
                = (Returned 0%nat, s') /\
              effects s' = []).
Proof.
  pose proof (commandDeploy_status (js "/work/test-skill") no_target (start clean))
    as [Hnone _].
  pose proof (commandDeploy_status (js "/work/test-skill") dry_claude (start clean))
    as [_ Hsome].
  split; [apply Hnone; reflexivity|].
  destruct (Hsome [claude] eq_refl) as (validation & Hvalidation & _ & Hdeploy).
  vm_compute in Hvalidation. injection Hvalidation as <-.
  specialize (Hdeploy eq_refl).
  destruct (deploySkill (js "/work/test-skill") (deployOptions dry_claude [claude])
              (logged (deployNotice (js "/work/test-skill") dry_claude [claude])
                 (start clean))) as [[results|e] s3] eqn:Hrun.
  - vm_compute in Hrun. injection Hrun as <- <-.
    destruct Hdeploy as (s' & Hcommand & Heffects). exists s'. split; assumption.
  - vm_compute in Hrun. discriminate Hrun.
Defined.

(** Removing skill1 from claude exits with 0; without a target the
    command exits with 1. *)
Lemma commandRemove_status_witness :
  (exists result s1 s',
     removeSkill (js "skill1") claude
       (logged [js "Removing skill " ++ [QUOTE] ++ js "skill1" ++ [QUOTE] ++
                js " from " ++ js "claude" ++ js "..."] (start installed))
       = (Returned result, s1) /\
     commandRemove (js "skill1") dry_claude (start installed)
       = (Returned (if removed result then 0 else 1)%nat, s') /\
     effects s' = effects s1) /\
  (exists s', commandRemove (js "skill1") no_target (start installed)
                = (Returned 1%nat, s') /\
              effects s' = effects (start installed)).
Proof.
  split.
  - apply (proj1 (commandRemove_status (js "skill1") dry_claude (start installed))
             (js "claude") eq_refl claude).
    vm_compute. reflexivity.
  - apply (proj2 (commandRemove_status (js "skill1") no_target (start installed))).
    reflexivity.
Defined.

(** Without a home directory the deployment to claude is a failure
    that says so; a .cursorrules that cannot be deleted is reported by
    [removeSkill] with the error of the deletion. *)
Lemma operations_never_throw_witness :
  deployTarget (js "/work/test-skill") (VStr (js "test-skill"))
      (options_for [claude] false false) claude (start homeless)
    = (Returned (deployFailure claude (js "Could not determine home directory")),
       start homeless) /\
  removeSkill (js "test-skill") cursor (start blocked)
    = (Returned {| removed := false;
                   remove_error := Some (js "Directory not empty: .cursorrules") |},
       {| world := blocked; effects := [ERemove (js ".cursorrules") false] |}).
Proof.
  destruct (@operations_never_throw World _)
    as (_ & _ & _ & _ & _ & _ & _ & Hdestination & _ & _ & Hdeletion).
  split.
  - apply (Hdestination (js "/work/test-skill") (VStr (js "test-skill"))
             (options_for [claude] false false) claude (start homeless)
             (newError (js "Could not determine home directory"))).
    + intros Hc. discriminate Hc.
    + vm_compute. reflexivity.
  - apply (Hdeletion (js "test-skill") cursor (start blocked) (js ".cursorrules") false
             (failure (js "Directory not empty") (js ".cursorrules")) blocked).
    + vm_compute. reflexivity.
    + reflexivity.
    + vm_compute. reflexivity.
    + vm_compute. reflexivity.
Defined.

End MoreCases.
